(** * Railway booking automation: fallback seats, configuration, UI flow

    A shallow embedding of the pure and control-flow parts of the
    Playwright test-suite that books tickets on the railway site:

    - [Seats]: the two fallback seat generators
      ([generateGenericSeatNumbers], [generateCommonSeatPatterns]);
    - [Config]: the configuration loader [getBookingPreferences] reading
      [process.env], together with the part of [parseInt] it relies on;
    - [Browser]: the Playwright calls the flow performs, as operations of
      an abstract page, threaded through a state-and-exception monad
      that records every call;
    - [Login], [RealBooking], [OtpWait]: the password entry of the UI
      booking test, the booking-initiation stage of the real booking
      test, and the two manual-OTP polling loops;
    - [SearchConfig]: the loader [getSearchData];
    - [Stages]: the user name entry, [handleSeatSelection] and
      [handlePaymentAndOTP];
    - [Api]: the helpers that talk to the site over HTTP
      ([getAuthToken], [attemptBooking], [attemptFallbackBooking],
      [testBookingEndpoints]), against an abstract server;
    - [ConfigTests]: the three tests of the loaders and generators. *)

From stdpp Require Import gmap strings list pretty.
From Stdlib Require Import ZArith Ascii.

Local Open Scope Z_scope.

(** ** JavaScript idioms shared by the embeddings *)

Module JS.

(** [for (let i = start; i < ...; i++) body], run for [n] more
    iterations from index [i], threading the loop-carried state. *)
Fixpoint for_range {S : Type} (n : nat) (i : Z) (body : Z → S → S) (s : S) : S :=
  match n with
  | O => s
  | S n' => for_range n' (i + 1) body (body i s)
  end.

(** [for (let i = 0; i < count; i++) body] for an integer [count]:
    the body runs [count] times when [count] is positive and not at
    all otherwise. *)
Definition for_below {S : Type} (count : Z) (body : Z → S → S) (s : S) : S :=
  for_range (Z.to_nat count) 0 body s.

(** [a % b] on integers: the remainder has the sign of [a]. *)
Definition rem (a b : Z) : Z := Z.rem a b.

(** [a[i]] on an array of strings.  Reading outside the array yields
    [undefined]; the generators only read at [i % a.length] with
    [i >= 0] and [a] not empty, which is inside the array, so that the
    default is never observed. *)
Definition index (a : list string) (i : Z) : string :=
  if i <? 0 then "undefined" else default "undefined" (a !! Z.to_nat i).

(** [a.length] *)
Definition len {A : Type} (a : list A) : Z := Z.of_nat (length a).

(** [a.slice(0, e)] for an integer [e]: a negative [e] counts from the
    end of the array, and the result never extends past it. *)
Definition slice0 {A : Type} (a : list A) (e : Z) : list A :=
  take (Z.to_nat (if e <? 0 then Z.max (len a + e) 0 else Z.min e (len a))) a.

(** [`${n}`] for an integer-valued number [n]: its decimal notation. *)
Definition num_to_string (n : Z) : string := pretty n.

End JS.

(** ** The fallback seat generators *)

Module Seats.
Import JS.

Definition rows : list string := ["A"; "B"; "C"; "D"; "E"; "F"].

Definition generateGenericSeatNumbers (count : Z) : list string :=
  for_below count
    (λ i seats,
       let row := index rows (rem i (len rows)) in
       let number := i `div` len rows + 1 in
       seats ++ [row +:+ num_to_string number])
    [].

Definition commonPatterns : list (list string) :=
  [ ["1A"; "1B"; "1C"; "1D"; "1E"; "1F"];
    ["2A"; "2B"; "2C"; "2D"; "2E"; "2F"];
    ["3A"; "3B"; "3C"; "3D"; "3E"; "3F"];
    ["A1"; "A2"; "A3"; "A4"; "A5"; "A6"];
    ["B1"; "B2"; "B3"; "B4"; "B5"; "B6"];
    ["S1"; "S2"; "S3"; "S4"; "S5"; "S6"] ].

(** [commonPatterns[patternIndex]], read only under the guard
    [patternIndex < commonPatterns.length]. *)
Definition pattern_at (patternIndex : Z) : list string :=
  default [] (commonPatterns !! Z.to_nat patternIndex).

(** One iteration of the loop of [generateCommonSeatPatterns]; the
    loop-carried state is the array [seats] and [patternIndex]. *)
Definition common_body (i : Z) (st : list string * Z) : list string * Z :=
  let '(seats, patternIndex) := st in
  if patternIndex <? len commonPatterns then
    let pattern := pattern_at patternIndex in
    let seats := seats ++ [index pattern (rem i (len pattern))] in
    if rem (i + 1) (len pattern) =? 0
    then (seats, patternIndex + 1)
    else (seats, patternIndex)
  else
    (seats ++ ["S" +:+ num_to_string (i + 1)], patternIndex).

Definition generateCommonSeatPatterns (count : Z) : list string :=
  let '(seats, _) := for_below count common_body ([], 0) in
  slice0 seats count.

(** The seat at 0-based position [i] of the generic sequence, as the
    specification words it. *)
Definition generic_seat (i : Z) : string :=
  index rows (i `mod` 6) +:+ num_to_string (i `div` 6 + 1).

(** The templates laid end to end, and the seat at position [i] of the
    common sequence: template seats first, then [S{i+1}]. *)
Definition template_seats : list string := concat commonPatterns.

Definition common_seat (i : Z) : string :=
  if i <? len template_seats then index template_seats i
  else "S" +:+ num_to_string (i + 1).

(** *** Shapes of seat identifiers *)

Definition is_row_letter (c : ascii) : bool :=
  let n := N_of_ascii c in ((65 <=? n) && (n <=? 70))%N.       (* [A-F] *)
Definition is_digit_1_9 (c : ascii) : bool :=
  let n := N_of_ascii c in ((49 <=? n) && (n <=? 57))%N.       (* [1-9] *)
Definition is_digit (c : ascii) : bool :=
  let n := N_of_ascii c in ((48 <=? n) && (n <=? 57))%N.       (* [0-9] *)

Fixpoint all_chars (p : ascii → bool) (s : string) : bool :=
  match s with
  | EmptyString => true
  | String c s' => p c && all_chars p s'
  end.

(** The whole of [s] matches [[A-F][1-9]+]. *)
Definition matches_row_nonzero_digits (s : string) : bool :=
  match s with
  | String c (String d ds) => is_row_letter c && is_digit_1_9 d && all_chars is_digit_1_9 ds
  | _ => false
  end.

(** The whole of [s] matches [[A-F][1-9][0-9]*]: a row letter and a
    positive decimal number without leading zero. *)
Definition matches_row_number (s : string) : bool :=
  match s with
  | String c (String d ds) => is_row_letter c && is_digit_1_9 d && all_chars is_digit ds
  | _ => false
  end.

End Seats.

(** ** The configuration loader *)

Module Config.

(** A JavaScript number as the loader can produce it: [NaN], or an
    integer that a double holds.  A numeral too large for a double
    makes [parseInt] return [Infinity], which this type leaves out:
    [parseInt] below then yields an integer of magnitude 2^1024 or
    more, and [no_overflow] tells the results that are numbers of the
    code. *)
Inductive number := NaN | Int (z : Z).

Definition no_overflow (n : number) : bool :=
  match n with NaN => true | Int z => Z.abs z <? 2 ^ 1024 end.

(** The double nearest to the integer [m >= 0], ties to even: the 53
    leading bits are kept and the rest is rounded. *)
Definition to_double (m : Z) : Z :=
  let e := Z.log2 m - 52 in
  if e <=? 0 then m
  else
    let q := m `div` 2 ^ e in
    let r := m `mod` 2 ^ e in
    let half := 2 ^ (e - 1) in
    if (half <? r) || ((r =? half) && Z.odd q) then (q + 1) * 2 ^ e
    else q * 2 ^ e.

(** [n <= 0]: every comparison with [NaN] is false. *)
Definition le_zero (n : number) : bool :=
  match n with NaN => false | Int z => z <=? 0 end.

(** The ASCII members of StrWhiteSpaceChar: TAB, LF, VT, FF, CR, SP. *)
Definition is_white_space (c : ascii) : bool :=
  let n := N_of_ascii c in
  ((9 <=? n) && (n <=? 13) || (n =? 32))%N.

(** Text is held as its UTF-8 bytes.  The members of StrWhiteSpaceChar
    outside ASCII, by their encodings: U+00A0 in two bytes; U+1680,
    U+2000 to U+200A, U+2028, U+2029, U+202F, U+205F, U+3000 and U+FEFF
    in three. *)
Definition is_white_space_2 (a b : ascii) : bool :=
  ((N_of_ascii a =? 194) && (N_of_ascii b =? 160))%N.

Definition is_white_space_3 (a b c : ascii) : bool :=
  let a := N_of_ascii a in
  let b := N_of_ascii b in
  let c := N_of_ascii c in
  ((a =? 225) && (b =? 154) && (c =? 128)
   || (a =? 226) && (b =? 128)
      && ((128 <=? c) && (c <=? 138) || (c =? 168) || (c =? 169) || (c =? 175))
   || (a =? 226) && (b =? 129) && (c =? 159)
   || (a =? 227) && (b =? 128) && (c =? 128)
   || (a =? 239) && (b =? 187) && (c =? 191))%N.

Fixpoint trim_start (s : string) : string :=
  match s with
  | String a s1 =>
      if is_white_space a then trim_start s1
      else if (N_of_ascii a <? 194)%N then s
      else
        match s1 with
        | String b s2 =>
            if is_white_space_2 a b then trim_start s2
            else
              match s2 with
              | String c s3 =>
                  if is_white_space_3 a b c then trim_start s3 else s
              | EmptyString => s
              end
        | EmptyString => s
        end
  | EmptyString => s
  end.

(** The value of [c] as a digit in the given radix, if it is one. *)
Definition digit_value (radix : Z) (c : ascii) : option Z :=
  let n := Z.of_N (N_of_ascii c) in
  let v := if (48 <=? n) && (n <=? 57) then Some (n - 48)
           else if (97 <=? n) && (n <=? 122) then Some (n - 87)
           else if (65 <=? n) && (n <=? 90) then Some (n - 55)
           else None in
  match v with
  | Some d => if d <? radix then Some d else None
  | None => None
  end.

(** The longest prefix of radix digits, read as an integer; [acc] is
    [None] until a first digit has been seen. *)
Fixpoint parse_digits (radix : Z) (acc : option Z) (s : string) : option Z :=
  match s with
  | String c s' =>
      match digit_value radix c with
      | Some d => parse_digits radix (Some (radix * default 0 acc + d)) s'
      | None => acc
      end
  | EmptyString => acc
  end.

(** [parseInt(string)] with no radix argument: leading white space is
    skipped, a sign is read, a [0x]/[0X] prefix selects radix 16 and
    radix 10 applies otherwise, the digits that follow are read up to
    the first character that is not one, and the absence of any digit
    gives [NaN]; the integer read is rounded to a double. *)
Definition parseInt (s : string) : number :=
  let s := trim_start s in
  let '(sign, s) :=
    match s with
    | String "-" r => (-1, r)
    | String "+" r => (1, r)
    | _ => (1, s)
    end in
  let '(radix, s) :=
    match s with
    | String "0" (String "x" r) | String "0" (String "X" r) => (16, r)
    | _ => (10, s)
    end in
  match parse_digits radix None s with
  | Some m => Int (sign * to_double m)
  | None => NaN
  end.

(** [s.split(',')]: the pieces between the separators, at least one. *)
Fixpoint split (sep : ascii) (s : string) : list string :=
  match s with
  | EmptyString => [EmptyString]
  | String c s' =>
      if Ascii.eqb c sep then EmptyString :: split sep s'
      else match split sep s' with
           | piece :: pieces => String c piece :: pieces
           | [] => [String c EmptyString]
           end
  end.

(** Truthiness of a value of type [string | undefined]. *)
Definition truthy (v : option string) : bool :=
  match v with
  | Some (String _ _) => true
  | Some EmptyString | None => false
  end.

Record bookingPrefs := {
  trainName : option string;
  preferredSeats : list string;
  numberOfSeats : number
}.

Definition missing_booking_variables : string :=
  "Missing required booking environment variables. Please ensure TRAIN_NAME, PREFERRED_SEATS, and NUMBER_OF_SEATS are set in .env file".

Definition seats_not_positive : string :=
  "NUMBER_OF_SEATS must be a positive number".

(** [getBookingPreferences()], reading [process.env]; [inl] carries the
    message of the [Error] thrown. *)
Definition getBookingPreferences (env : gmap string string) : string + bookingPrefs :=
  let prefs := {|
    trainName := env !! "TRAIN_NAME";
    preferredSeats :=
      if truthy (env !! "PREFERRED_SEATS")
      then split "," (default EmptyString (env !! "PREFERRED_SEATS"))
      else [];
    numberOfSeats :=
      if truthy (env !! "NUMBER_OF_SEATS")
      then parseInt (default EmptyString (env !! "NUMBER_OF_SEATS"))
      else Int 0
  |} in
  if negb (truthy (trainName prefs))
     || negb (truthy (env !! "PREFERRED_SEATS"))
     || negb (truthy (env !! "NUMBER_OF_SEATS"))
  then inl missing_booking_variables
  else if le_zero (numberOfSeats prefs)
  then inl seats_not_positive
  else inr prefs.

(** The configuration fields the loader requires. *)
Definition required_fields : list string :=
  ["TRAIN_NAME"; "PREFERRED_SEATS"; "NUMBER_OF_SEATS"].

(** [msg] contains [field] verbatim. *)
Definition names_field (msg field : string) : Prop :=
  ∃ before after, msg = before +:+ field +:+ after.

(** An environment with every required field set, the seat count
    being the given text. *)
Definition env_with_seats (seats : string) : gmap string string :=
  <["TRAIN_NAME" := "SUBORNO EXPRESS"]>
    (<["PREFERRED_SEATS" := "A1,B2"]>
       (<["NUMBER_OF_SEATS" := seats]> ∅)).

End Config.

(** ** The browser, as the flow sees it *)

Module Browser.

(** Playwright locators, built the way the tests build them. *)
Inductive locator :=
| Locator (selector : string)                    (* page.locator(selector) *)
| Within (parent : locator) (selector : string)  (* parent.locator(selector) *)
| First (l : locator).                           (* l.first() *)

(** The calls made on the page, its keyboard and the clock, indexed by
    the type of what they return. *)
Inductive call : Type → Type :=
| IsVisible (l : locator) (timeout : Z) : call bool
| Clear (l : locator) : call unit
| PressSequentially (l : locator) (text : string) (delay : Z) : call unit
| Fill (l : locator) (text : string) : call unit
| InputValue (l : locator) : call string
| Focus (l : locator) : call unit
| Click (l : locator) : call unit
| Count (l : locator) : call Z
| All (l : locator) : call (list locator)
| InnerText (l : locator) : call string
| KeyboardPress (key : string) : call unit
| KeyboardType (text : string) : call unit
| ClipboardWriteText (text : string) : call unit
| WaitForTimeout (ms : Z) : call unit
| WaitForLoadState (state : string) (timeout : Z) : call unit
| Screenshot (path : string) (fullPage : bool) : call unit
| Url : call string
| DateNow : call Z.

(** The helper functions of the test file whose invocation is
    recorded. *)
Inductive helper := HandleCoachSelection | HandleSeatSelection.

Inductive event :=
| Called {A : Type} (c : call A)
| Entered (h : helper).

(** A page over worlds [W]: every call either returns a value or
    rejects with an error message, and moves the world on. *)
Definition page (W : Type) : Type :=
  ∀ A : Type, call A → W → (string + A) * W.

Record state (W : Type) := State { world : W; trace : list event }.
Arguments State {W} _ _.
Arguments world {W} _.
Arguments trace {W} _.

(** An asynchronous computation running against a page: it threads the
    world and the trace of calls, and either returns a value or throws
    an error message. *)
Definition flow (W A : Type) : Type := state W → (string + A) * state W.

Section Monad.
Context {W : Type}.

Definition ret {A} (a : A) : flow W A := λ st, (inr a, st).

Definition bind {A B} (m : flow W A) (k : A → flow W B) : flow W B :=
  λ st, match m st with
        | (inr a, st') => k a st'
        | (inl e, st') => (inl e, st')
        end.

Definition throw {A} (e : string) : flow W A := λ st, (inl e, st).

(** [try { body } catch (error) { handler(error) }] *)
Definition try_catch {A} (body : flow W A) (handler : string → flow W A) : flow W A :=
  λ st, match body st with
        | (inr a, st') => (inr a, st')
        | (inl e, st') => handler e st'
        end.

(** [await] of one call on the page. *)
Definition perform (pg : page W) {A} (c : call A) : flow W A :=
  λ st, let '(r, w) := pg A c (world st) in
        (r, State w (trace st ++ [Called c])).

Definition enter (h : helper) : flow W unit :=
  λ st, (inr (), State (world st) (trace st ++ [Entered h])).

End Monad.

(** A page that never rejects a call. *)
Definition never_rejects {W} (pg : page W) : Prop :=
  ∀ A (c : call A) w, ∃ a, (pg A c w).1 = inr a.

Definition is_entered (ev : event) : bool :=
  match ev with Entered _ => true | Called _ => false end.

(** A computation that only adds page calls to the trace: no helper
    is entered while it runs. *)
Definition calls_only {W A} (m : flow W A) : Prop :=
  ∀ st, ∃ evs, trace (m st).2 = trace st ++ evs
               ∧ Forall (λ ev, is_entered ev = false) evs.

(** A computation whose thrown errors all satisfy [P]. *)
Definition throws_only {W A} (P : string → Prop) (m : flow W A) : Prop :=
  ∀ st e, (m st).1 = inl e → P e.

(** The double quote occurring inside selectors. *)
Definition dq : string := String "034"%char EmptyString.
Definition quoted (s : string) : string := dq +:+ s +:+ dq.

(** [hay.includes(needle)] *)
Fixpoint includes (needle hay : string) : bool :=
  String.prefix needle hay
  || match hay with
     | String _ hay' => includes needle hay'
     | EmptyString => false
     end.

End Browser.

Declare Scope flow_scope.
Delimit Scope flow_scope with flow.
Notation "x ← y ; z" := (Browser.bind y (λ x, z))
  (at level 20, y at level 100, z at level 200, only parsing) : flow_scope.
Notation "x ;; z" := (Browser.bind x (λ _, z))
  (at level 100, z at level 200, only parsing, right associativity) : flow_scope.

(** ** Password entry of the UI booking test *)

Module Login.
Import Browser.
Local Open Scope flow_scope.

Definition passwordSelectors : list string :=
  [ "input[type=" +:+ quoted "password" +:+ "]";
    "input[placeholder*=" +:+ quoted "Password" +:+ "]";
    "input[name*=" +:+ quoted "password" +:+ "]" ].

(** Text is held as its UTF-8 bytes.  A byte from 128 to 191 continues
    the character begun before it. *)
Definition is_continuation (c : ascii) : bool :=
  let n := N_of_ascii c in ((128 <=? n) && (n <=? 191))%N.

(** The bytes [s] begin in the middle of a character. *)
Definition continues (s : string) : bool :=
  match s with
  | String c _ => is_continuation c
  | EmptyString => false
  end.

(** The characters of a text, each as the text of its own bytes: what
    [for (const char of text)] walks. *)
Fixpoint code_points (s : string) : list string :=
  match s with
  | EmptyString => []
  | String c rest =>
      match code_points rest with
      | char :: chars =>
          if continues char then String c char :: chars
          else String c EmptyString :: char :: chars
      | [] => [String c EmptyString]
      end
  end.

(** The UTF-16 code units that the character begun by a byte takes: two
    for a character of four bytes, one for any other, none for a
    continuation byte. *)
Definition code_units (c : ascii) : nat :=
  let n := N_of_ascii c in
  if (n <? 128)%N then 1%nat
  else if (n <? 192)%N then 0%nat
  else if (n <? 240)%N then 1%nat
  else 2%nat.

(** [s.length] *)
Fixpoint js_length (s : string) : nat :=
  match s with
  | EmptyString => 0%nat
  | String c rest => (code_units c + js_length rest)%nat
  end.

(** [a.length !== b.length] *)
Definition length_differs (a b : string) : bool :=
  negb (js_length a =? js_length b)%nat.

(** The ways of putting text into a field that the test knows. *)
Inductive input_method :=
| ByPressSequentially   (* field.pressSequentially(password, { delay: 100 }) *)
| ByFill                (* field.fill(password) *)
| ByKeyboard            (* page.keyboard, one character at a time *)
| ByClipboard.          (* clipboard write, focus, Control+V *)

Section WithPage.
Context {W : Type} (pg : page W).

(** [for (const char of password) { ... }] of Method 3, over the
    characters that are left. *)
Fixpoint typeChars (chars : list string) : flow W unit :=
  match chars with
  | [] => ret ()
  | char :: rest =>
      (if String.eqb char "#"
       then perform pg (KeyboardPress "Shift+3")
       else perform pg (KeyboardType char));;
      perform pg (WaitForTimeout 50);;
      typeChars rest
  end.

Definition typeCharByChar (password : string) : flow W unit :=
  typeChars (code_points password).

(** The body run on the first visible password field, from
    [await field.clear()] to the final value read back. *)
Definition enterPassword (field : locator) (password : string) : flow W string :=
  perform pg (Clear field);;
  (* Method 1 *)
  perform pg (PressSequentially field password 100);;
  enteredValue ← perform pg (InputValue field);
  (* Method 2 *)
  enteredValue ←
    (if length_differs enteredValue password then
       perform pg (Clear field);;
       perform pg (Fill field password);;
       perform pg (InputValue field)
     else ret enteredValue);
  (* Method 3 *)
  enteredValue ←
    (if length_differs enteredValue password then
       perform pg (Clear field);;
       typeCharByChar password;;
       perform pg (InputValue field)
     else ret enteredValue);
  (* Method 4 *)
  enteredValue ←
    (if length_differs enteredValue password then
       perform pg (Clear field);;
       perform pg (ClipboardWriteText password);;
       perform pg (Focus field);;
       perform pg (KeyboardPress "Control+V");;
       perform pg (InputValue field)
     else ret enteredValue);
  ret enteredValue.

(** [for (const selector of passwordSelectors) { try { ... } catch { } }];
    the result is [passwordFilled]. *)
Fixpoint fillPassword (selectors : list string) (password : string) : flow W bool :=
  match selectors with
  | [] => ret false
  | selector :: rest =>
      filled ←
        try_catch
          (let field := First (Locator selector) in
           visible ← perform pg (IsVisible field 3000);
           if visible then enterPassword field password;; ret true
           else ret false)
          (λ _, ret false);
      if filled then ret true else fillPassword rest password
  end.

(** *** Escalation, in the words of the specification

    Input methods are tried in a given order on a cleared field; after
    each, the value is read back, and the escalation stops as soon as
    the value read back has the expected length or no method is left. *)

Definition apply_method (m : input_method) (field : locator) (password : string)
  : flow W unit :=
  match m with
  | ByPressSequentially => perform pg (PressSequentially field password 100)
  | ByFill => perform pg (Fill field password)
  | ByKeyboard => typeCharByChar password
  | ByClipboard =>
      perform pg (ClipboardWriteText password);;
      perform pg (Focus field);;
      perform pg (KeyboardPress "Control+V")
  end.

Definition attempt (m : input_method) (field : locator) (password : string)
  : flow W string :=
  perform pg (Clear field);;
  apply_method m field password;;
  perform pg (InputValue field).

Fixpoint escalate_further (ms : list input_method) (field : locator)
    (password entered : string) : flow W string :=
  match ms with
  | [] => ret entered
  | m :: ms' =>
      if length_differs entered password then
        entered' ← attempt m field password;
        escalate_further ms' field password entered'
      else ret entered
  end.

Definition escalate (ms : list input_method) (field : locator) (password : string)
  : flow W string :=
  match ms with
  | [] => ret EmptyString
  | m :: ms' =>
      entered ← attempt m field password;
      escalate_further ms' field password entered
  end.

End WithPage.

(** The order the test escalates in, and the order the specification
    gives (direct set, simulated keystrokes, clipboard paste). *)
Definition order_in_test : list input_method :=
  [ByPressSequentially; ByFill; ByKeyboard; ByClipboard].
Definition order_in_spec : list input_method :=
  [ByFill; ByPressSequentially; ByClipboard].

(** The input methods invoked along a trace, in order.  Character by
    character typing shows as one [ByKeyboard] per key; the paste shows
    as the clipboard write that starts it. *)
Definition method_of (ev : event) : option input_method :=
  match ev with
  | Called (PressSequentially _ _ _) => Some ByPressSequentially
  | Called (Fill _ _) => Some ByFill
  | Called (KeyboardType _) => Some ByKeyboard
  | Called (ClipboardWriteText _) => Some ByClipboard
  | _ => None
  end.
Definition methods_invoked (tr : list event) : list input_method :=
  omap method_of tr.

(** A login form whose password field drops [#] when keys are pressed
    one after the other, and takes text verbatim when it is set or
    pasted.  The world is the field's value and the clipboard. *)
Fixpoint without_hash (s : string) : string :=
  match s with
  | EmptyString => EmptyString
  | String c s' => if Ascii.eqb c "#" then without_hash s' else String c (without_hash s')
  end.

Definition hash_dropping_form : page (string * string) :=
  λ A c,
    match c in call A return string * string → (string + A) * (string * string) with
    | IsVisible _ _ => λ w, (inr true, w)
    | Clear _ => λ w, (inr (), (EmptyString, w.2))
    | PressSequentially _ text _ => λ w, (inr (), (w.1 +:+ without_hash text, w.2))
    | Fill _ text => λ w, (inr (), (text, w.2))
    | InputValue _ => λ w, (inr w.1, w)
    | Focus _ => λ w, (inr (), w)
    | Click _ => λ w, (inr (), w)
    | Count _ => λ w, (inr 0, w)
    | All _ => λ w, (inr [], w)
    | InnerText _ => λ w, (inr EmptyString, w)
    | KeyboardPress key =>
        λ w, (inr (), (if String.eqb key "Control+V" then w.1 +:+ w.2 else w.1, w.2))
    | KeyboardType text => λ w, (inr (), (w.1 +:+ without_hash text, w.2))
    | ClipboardWriteText text => λ w, (inr (), (w.1, text))
    | WaitForTimeout _ => λ w, (inr (), w)
    | WaitForLoadState _ _ => λ w, (inr (), w)
    | Screenshot _ _ => λ w, (inr (), w)
    | Url => λ w, (inr "/auth/login", w)
    | DateNow => λ w, (inr 0, w)
    end.

End Login.

(** ** Booking initiation in the real booking test

    Calls to [console.log] are left out: they touch neither the page
    nor the control flow.  The one exception is a line that prints
    [page.url()]: the read of the address is kept. *)

Module RealBooking.
Import Browser.
Local Open Scope flow_scope.

Definition bookNowButtons : string :=
  "button.book-now-btn.seatsLayout, .book-now-btn.seatsLayout".

Definition otherClasses : list string :=
  ["SNIGDHA"; "AC_S"; "SHOVAN"; "FIRST_SEAT"].

Definition no_booking_options : string :=
  "No booking options found for any class. Check date and route availability.".

Definition could_not_initiate : string := "Could not initiate booking".

Section WithPage.
Context {W : Type} (pg : page W).
(** [bookingPrefs.trainName] and [searchData.class]. *)
Context (trainName searchClass : string).
(** What [handleCoachSelection] and [handleSeatSelection] do once
    entered. *)
Context (coachSelection seatSelection : flow W unit).

(** [await b.click(); await page.waitForLoadState('domcontentloaded',
    { timeout: 15000 }); bookingInitiated = true] *)
Definition clickToBook (b : locator) : flow W bool :=
  perform pg (Click b);;
  perform pg (WaitForLoadState "domcontentloaded" 15000);;
  ret true.

(** [for (const element of elements) { try { const text = await
    element.innerText(); if (text && !seen.includes(text))
    seen.push(text) } catch (error) { } }] *)
Fixpoint collectTexts (elements : list locator) (seen : list string)
  : flow W (list string) :=
  match elements with
  | [] => ret seen
  | element :: rest =>
      seen ←
        try_catch
          (text ← perform pg (InnerText element);
           if negb (String.eqb text EmptyString) && negb (bool_decide (text ∈ seen))
           then ret (seen ++ [text]) else ret seen)
          (λ _, ret seen);
      collectTexts rest seen
  end.

(** [for (const className of otherClasses) { ... break; }]; the
    result is [bookingInitiated]. *)
Fixpoint tryOtherClasses (classes : list string) : flow W bool :=
  match classes with
  | [] => ret false
  | className :: rest =>
      let classBookButtons :=
        Within (Within (Locator ("text=" +:+ className)) "..")
               ("button:has-text(" +:+ quoted "BOOK NOW" +:+ ")") in
      classButtonCount ← perform pg (Count classBookButtons);
      if 0 <? classButtonCount then clickToBook (First classBookButtons)
      else tryOtherClasses rest
  end.

(** Step 4, "Find and book the specified train"; the result is the
    value of [bookingInitiated] when the step is left normally. *)
Definition findAndBookTrain : flow W bool :=
  let trainHeading :=
    First (Locator ("heading:has-text(" +:+ quoted trainName +:+ ")")) in
  headingVisible ← perform pg (IsVisible trainHeading 10000);
  if headingVisible then
    let trainSection :=
      Within (Within (Locator ("text=" +:+ trainName)) "..") ".." in
    let classBookButton :=
      First (Within (Within (Within trainSection ("text=" +:+ searchClass)) "..")
                    bookNowButtons) in
    buttonVisible ← perform pg (IsVisible classBookButton 5000);
    if buttonVisible then clickToBook classBookButton else ret false
  else
    perform pg (Screenshot "search-results-debug.png" true);;
    let allBookingButtons := Locator bookNowButtons in
    allButtonCount ← perform pg (Count allBookingButtons);
    if 0 <? allButtonCount then clickToBook (First allBookingButtons)
    else
      trainElements ←
        perform pg (All (Locator ("heading[level=" +:+ quoted "2" +:+ "], h2, h3")));
      collectTexts trainElements [];;
      classElements ←
        perform pg (All (Locator
          "text=S_CHAIR, text=SNIGDHA, text=AC_S, text=AC_B, text=SHOVAN, text=FIRST_SEAT"));
      collectTexts classElements [];;
      let configuredClassBookButtons :=
        Within (Within (Locator ("text=" +:+ searchClass)) "..") bookNowButtons in
      buttonCount ← perform pg (Count configuredClassBookButtons);
      if 0 <? buttonCount then clickToBook (First configuredClassBookButtons)
      else
        bookingInitiated ← tryOtherClasses otherClasses;
        if negb bookingInitiated then throw no_booking_options
        else ret bookingInitiated.

Definition handleCoachSelection : flow W unit :=
  enter HandleCoachSelection;; coachSelection.

Definition handleSeatSelection : flow W unit :=
  enter HandleSeatSelection;; seatSelection.

(** The test from Step 4 to its end, inside its [try], with the
    [catch] that takes a screenshot and rethrows. *)
Definition bookFromSearchResults : flow W unit :=
  try_catch
    (bookingInitiated ← findAndBookTrain;
     (if negb bookingInitiated then throw could_not_initiate else ret ());;
     (* the line printed next reads [page.url()] *)
     perform pg Url;;
     handleCoachSelection;;
     handleSeatSelection)
    (λ error,
       perform pg (Screenshot "real-booking-error.png" true);;
       throw error).

End WithPage.

(** Search results showing the train's heading but no booking button
    for the configured class; the world counts the calls made. *)
Definition class_sold_out : page nat :=
  λ A c,
    match c in call A return nat → (string + A) * nat with
    | IsVisible l _ =>
        λ w, (inr (match l with First (Locator _) => true | _ => false end), S w)
    | Clear _ => λ w, (inr (), S w)
    | PressSequentially _ _ _ => λ w, (inr (), S w)
    | Fill _ _ => λ w, (inr (), S w)
    | InputValue _ => λ w, (inr EmptyString, S w)
    | Focus _ => λ w, (inr (), S w)
    | Click _ => λ w, (inr (), S w)
    | Count _ => λ w, (inr 0, S w)
    | All _ => λ w, (inr [], S w)
    | InnerText _ => λ w, (inr EmptyString, S w)
    | KeyboardPress _ => λ w, (inr (), S w)
    | KeyboardType _ => λ w, (inr (), S w)
    | ClipboardWriteText _ => λ w, (inr (), S w)
    | WaitForTimeout _ => λ w, (inr (), S w)
    | WaitForLoadState _ _ => λ w, (inr (), S w)
    | Screenshot _ _ => λ w, (inr (), S w)
    | Url => λ w, (inr "/search", S w)
    | DateNow => λ w, (inr 0, S w)
    end.

End RealBooking.

(** ** Waiting for the manually entered OTP *)

Module OtpWait.
Import Browser.
Local Open Scope flow_scope.

(** How a wait loop is left. *)
Inductive outcome :=
| Succeeded (indicator : string)  (* a success indicator was visible *)
| OtpEntered                      (* [break]: the OTP page was left *)
| TimedOut                        (* the loop condition became false *)
| OutOfFuel.                      (* the model's iteration bound was hit *)

Definition pollInterval : Z := 2000.

(** In [handleSeatSelection]. *)
Definition seatMaxWaitTime : Z := 10 * 60 * 1000.
Definition seatSuccessIndicators : list string :=
  ["text=Success"; "text=Confirmed"; "text=Booked"; "text=Ticket"; "text=PNR";
   "text=Booking Confirmed"].

(** In [handlePaymentAndOTP]. *)
Definition paymentMaxWaitTime : Z := 5 * 60 * 1000.
Definition paymentSuccessIndicators : list string :=
  ["text=Success"; "text=Confirmed"; "text=Booked"; "text=Ticket"; "text=PNR"].
Definition otpField : locator :=
  First (Locator ("input[placeholder*=" +:+ quoted "OTP" +:+ "], input[name*="
                  +:+ quoted "otp" +:+ "], input[id*=" +:+ quoted "otp" +:+ "]")).

Section WithPage.
Context {W : Type} (pg : page W).

(** [for (const indicator of successIndicators) { if (await
    page.locator(indicator).isVisible({ timeout: 1000 })) ... }]:
    the first indicator found visible, if any. *)
Fixpoint firstVisible (indicators : list string) : flow W (option string) :=
  match indicators with
  | [] => ret None
  | indicator :: rest =>
      visible ← perform pg (IsVisible (Locator indicator) 1000);
      if visible then ret (Some indicator) else firstVisible rest
  end.

(** [while (Date.now() - startTime < maxWaitTime) { ... }] of
    [handleSeatSelection], for at most [fuel] iterations. *)
Fixpoint seatWaitLoop (fuel : nat) (startTime : Z) : flow W outcome :=
  match fuel with
  | O => ret OutOfFuel
  | S fuel' =>
      now ← perform pg DateNow;
      if now - startTime <? seatMaxWaitTime then
        found ← firstVisible seatSuccessIndicators;
        match found with
        | Some indicator =>
            perform pg (Screenshot "booking-success-final.png" true);;
            ret (Succeeded indicator)
        | None =>
            perform pg (WaitForTimeout pollInterval);;
            seatWaitLoop fuel' startTime
        end
      else ret TimedOut
  end.

Definition seatOtpWait (fuel : nat) : flow W outcome :=
  startTime ← perform pg DateNow;
  seatWaitLoop fuel startTime.

(** The loop of [handlePaymentAndOTP], for at most [fuel]
    iterations. *)
Fixpoint paymentWaitLoop (fuel : nat) (startTime : Z) : flow W outcome :=
  match fuel with
  | O => ret OutOfFuel
  | S fuel' =>
      now ← perform pg DateNow;
      if now - startTime <? paymentMaxWaitTime then
        currentUrl ← perform pg Url;
        left ←
          (if negb (includes "otp" currentUrl) then
             visible ← perform pg (IsVisible otpField 1000);
             ret (negb visible)
           else ret false);
        if left then ret OtpEntered
        else
          found ← firstVisible paymentSuccessIndicators;
          match found with
          | Some indicator =>
              perform pg (Screenshot "booking-success.png" true);;
              ret (Succeeded indicator)
          | None =>
              perform pg (WaitForTimeout pollInterval);;
              paymentWaitLoop fuel' startTime
          end
      else ret TimedOut
  end.

Definition paymentOtpWait (fuel : nat) : flow W outcome :=
  startTime ← perform pg DateNow;
  paymentWaitLoop fuel startTime.

End WithPage.

(** *** A simulated page

    What the page shows is a function of the time on a logical clock,
    in milliseconds.  The clock is the world: [waitForTimeout(ms)]
    advances it by [ms], and every other call takes no time. *)
Record script := Script {
  shows : locator → Z → bool;   (* is the locator visible at that time *)
  address : Z → string          (* [page.url()] at that time *)
}.

Definition simulated (s : script) : page Z :=
  λ A c,
    match c in call A return Z → (string + A) * Z with
    | IsVisible l _ => λ t, (inr (shows s l t), t)
    | Clear _ => λ t, (inr (), t)
    | PressSequentially _ _ _ => λ t, (inr (), t)
    | Fill _ _ => λ t, (inr (), t)
    | InputValue _ => λ t, (inr EmptyString, t)
    | Focus _ => λ t, (inr (), t)
    | Click _ => λ t, (inr (), t)
    | Count _ => λ t, (inr 0, t)
    | All _ => λ t, (inr [], t)
    | InnerText _ => λ t, (inr EmptyString, t)
    | KeyboardPress _ => λ t, (inr (), t)
    | KeyboardType _ => λ t, (inr (), t)
    | ClipboardWriteText _ => λ t, (inr (), t)
    | WaitForTimeout ms => λ t, (inr (), t + ms)
    | WaitForLoadState _ _ => λ t, (inr (), t)
    | Screenshot _ _ => λ t, (inr (), t)
    | Url => λ t, (inr (address s t), t)
    | DateNow => λ t, (inr t, t)
    end.

(** The first of the indicators that the script shows at time [t]. *)
Definition signal (s : script) (indicators : list string) (t : Z) : option string :=
  List.find (λ indicator, shows s (Locator indicator) t) indicators.

(** The OTP page is still up at time [t]: the address mentions [otp]
    or the OTP field is visible. *)
Definition otp_page_up (s : script) (t : Z) : bool :=
  includes "otp" (address s t) || shows s otpField t.

(** The time of the [k]-th poll of a wait that starts at [t0]. *)
Definition poll_time (t0 : Z) (k : nat) : Z := t0 + pollInterval * Z.of_nat k.

(** How a wait ended and what the clock showed then. *)
Definition ending {A} (r : (string + A) * state Z) : (string + A) * Z :=
  (r.1, world r.2).

(** A page that leaves the OTP screen at once and never shows a
    success indicator. *)
Definition silent_departure : script :=
  Script (λ _ _, false) (λ _, "https://railapp.railway.gov.bd/payment").

(** A page that leaves the OTP screen 6 seconds in, for a page that
    says [Success]. *)
Definition success_on_departure : script :=
  Script (λ l t, match l with
                 | Locator sel => String.eqb sel "text=Success" && (6000 <=? t)
                 | First _ => t <? 6000
                 | Within _ _ => false
                 end)
         (λ _, "https://railapp.railway.gov.bd/payment").

(** A page whose booking confirmation appears 6 seconds in. *)
Definition confirmed_after_6s : script :=
  Script (λ l t, match l with
                 | Locator sel => String.eqb sel "text=Confirmed" && (6000 <=? t)
                 | First _ => true
                 | Within _ _ => false
                 end)
         (λ _, "https://railapp.railway.gov.bd/otp").

End OtpWait.


(** ** The search configuration and the fallback booking data *)

Module SearchConfig.
Import Config.

Record searchData := {
  from : option string;
  to : option string;
  date : option string;
  class : option string;
  fromStation : option string;
  toStation : option string;
  journeyDate : option string;
  trainClass : option string
}.

Definition missing_search_variables : string :=
  "Missing required search environment variables. Please ensure SEARCH_FROM, SEARCH_TO, SEARCH_DATE, and SEARCH_CLASS are set in .env file".

(** [getSearchData()], reading [process.env]; [inl] carries the message
    of the [Error] thrown. *)
Definition getSearchData (env : gmap string string) : string + searchData :=
  let searchData := {|
    from := env !! "SEARCH_FROM";
    to := env !! "SEARCH_TO";
    date := env !! "SEARCH_DATE";
    class := env !! "SEARCH_CLASS";
    fromStation := env !! "SEARCH_FROM";
    toStation := env !! "SEARCH_TO";
    journeyDate := env !! "SEARCH_DATE";
    trainClass := env !! "SEARCH_CLASS"
  |} in
  if negb (truthy (from searchData)) || negb (truthy (to searchData))
     || negb (truthy (date searchData)) || negb (truthy (class searchData))
  then inl missing_search_variables
  else inr searchData.

Definition search_fields : list string :=
  ["SEARCH_FROM"; "SEARCH_TO"; "SEARCH_DATE"; "SEARCH_CLASS"].

(** The search settings of the project's example configuration. *)
Definition env_for_search : gmap string string :=
  <["SEARCH_FROM" := "Dhaka"]>
    (<["SEARCH_TO" := "Joydebpur"]>
       (<["SEARCH_DATE" := "28-May-2025"]>
          (<["SEARCH_CLASS" := "S_CHAIR"]> ∅))).

(** [pieces.join(sep)] *)
Fixpoint join (sep : string) (pieces : list string) : string :=
  match pieces with
  | [] => EmptyString
  | [piece] => piece
  | piece :: rest => piece +:+ sep +:+ join sep rest
  end.

(** [s] holds no occurrence of the character [c]. *)
Fixpoint free_of (c : ascii) (s : string) : bool :=
  match s with
  | EmptyString => true
  | String c' s' => negb (Ascii.eqb c' c) && free_of c s'
  end.

(** What may follow a numeral for [parseInt] to stop reading there: the
    end of the text, or a character that is not a decimal digit. *)
Definition ends_numeral (rest : string) : bool :=
  match rest with
  | EmptyString => true
  | String c _ => negb (Seats.is_digit c)
  end.

End SearchConfig.

(** ** The seat and payment stages, and the user name entry

    As before, calls to [console.log] are left out. *)

Module Stages.
Import JS Config Browser OtpWait.
Local Open Scope flow_scope.

(** [l.nth(i)]: Playwright defines it as the selector [nth=i] taken
    within [l]. *)
Definition nth_of (l : locator) (i : Z) : locator :=
  Within l ("nth=" +:+ num_to_string i).

(** Comparisons and [slice] against a seat count that may be [NaN]:
    every comparison with [NaN] is false, and [slice(0, NaN)] is empty. *)
Definition ge_num (a : Z) (n : number) : bool :=
  match n with NaN => false | Int z => z <=? a end.
Definition lt_num (a : Z) (n : number) : bool :=
  match n with NaN => false | Int z => a <? z end.
Definition slice_num {A} (l : list A) (n : number) : list A :=
  match n with NaN => [] | Int z => slice0 l z end.

(** The number of iterations of [for (let i = 0; i < Math.min(target -
    selected, seatCount); i++)]; with [NaN] the loop does not run. *)
Definition seats_to_select (target : number) (selected seatCount : Z) : Z :=
  match target with NaN => 0 | Int z => Z.min (z - selected) seatCount end.

Definition usernameSelectors : list string :=
  [ "input[placeholder*=" +:+ quoted "Mobile Number" +:+ "]";
    "input[placeholder*=" +:+ quoted "mobile" +:+ "]";
    "input[type=" +:+ quoted "tel" +:+ "]";
    "input[name*=" +:+ quoted "mobile" +:+ "]";
    "input[name*=" +:+ quoted "username" +:+ "]" ].

Definition overlaySelectors : list string :=
  [ ".cdk-overlay-backdrop"; ".mat-dialog-container";
    "[class*=" +:+ quoted "overlay" +:+ "]"; "[class*=" +:+ quoted "modal" +:+ "]" ].

Definition closeButtons : list string :=
  [ "button[mat-dialog-close]";
    "button:has-text(" +:+ quoted "Close" +:+ ")";
    "button:has-text(" +:+ quoted "×" +:+ ")";
    "[aria-label=" +:+ quoted "Close" +:+ "]" ].

Definition seatSelectionIndicators : list string :=
  [ "text=Select Seat"; "text=Choose Seat"; "text=Seat Selection"; "text=Coach";
    "[class*=" +:+ quoted "seat" +:+ "]"; "button[data-seat]" ].

Definition seatSelectors (seatNumber : string) : list string :=
  [ "button:has-text(" +:+ quoted seatNumber +:+ "):not([disabled])";
    "[data-seat=" +:+ quoted seatNumber +:+ "]:not([disabled])";
    "[title=" +:+ quoted seatNumber +:+ "]:not([disabled])";
    "text=" +:+ seatNumber ].

Definition availableSeatSelectors : list string :=
  [ "button:not([disabled]):not([class*=" +:+ quoted "selected"
      +:+ "]):not([class*=" +:+ quoted "occupied" +:+ "])";
    "[data-seat]:not([disabled]):not([class*=" +:+ quoted "selected"
      +:+ "]):not([class*=" +:+ quoted "occupied" +:+ "])";
    "[class*=" +:+ quoted "available" +:+ "]:not([disabled])" ].

Definition continueSelectors : list string :=
  [ "button:has-text(" +:+ quoted "CONTINUE PURCHASE" +:+ "):not([disabled])";
    "button:has-text(" +:+ quoted "Continue Purchase" +:+ "):not([disabled])";
    "button:has-text(" +:+ quoted "CONTINUE" +:+ "):not([disabled])";
    "button:has-text(" +:+ quoted "Continue" +:+ "):not([disabled])";
    "button:has-text(" +:+ quoted "Proceed" +:+ "):not([disabled])";
    "button:has-text(" +:+ quoted "Next" +:+ "):not([disabled])";
    "button:has-text(" +:+ quoted "Confirm Seat" +:+ "):not([disabled])";
    "input[type=" +:+ quoted "submit" +:+ "]:not([disabled])" ].

Definition otpIndicators : list string :=
  [ "text=Enter Your OTP Code"; "text=OTP";
    "input[placeholder*=" +:+ quoted "OTP" +:+ "]"; "text=Verification Code" ].

Definition paymentIndicators : list string :=
  [ "text=Payment"; "text=Pay"; "text=Amount"; "text=Total"; "text=OTP";
    "input[placeholder*=" +:+ quoted "OTP" +:+ "]" ].

Definition paymentMethods : list string :=
  [ "button:has-text(" +:+ quoted "Mobile Banking" +:+ ")";
    "button:has-text(" +:+ quoted "bKash" +:+ ")";
    "button:has-text(" +:+ quoted "Nagad" +:+ ")";
    "button:has-text(" +:+ quoted "Rocket" +:+ ")";
    "button:has-text(" +:+ quoted "Card" +:+ ")";
    "button:has-text(" +:+ quoted "Credit" +:+ ")";
    "button:has-text(" +:+ quoted "Debit" +:+ ")" ].

Definition proceedSelectors : list string :=
  [ "button:has-text(" +:+ quoted "Proceed" +:+ "):not([disabled])";
    "button:has-text(" +:+ quoted "Pay Now" +:+ "):not([disabled])";
    "button:has-text(" +:+ quoted "Continue" +:+ "):not([disabled])";
    "button:has-text(" +:+ quoted "Confirm Payment" +:+ "):not([disabled])" ].

(** How the body of a [try] inside a loop was left: by [return], by
    [break], or by running to its end or into the [catch]. *)
Inductive leave := Returned | Broke | Went_on.

Section WithPage.
Context {W : Type} (pg : page W).

(** The user name loop of the UI booking test; the result is
    [usernameFilled]. *)
Fixpoint fillUsername (selectors : list string) (username : string) : flow W bool :=
  match selectors with
  | [] => ret false
  | selector :: rest =>
      filled ←
        try_catch
          (let field := First (Locator selector) in
           visible ← perform pg (IsVisible field 3000);
           if visible then
             perform pg (Clear field);;
             perform pg (PressSequentially field username 100);;
             perform pg (InputValue field);;
             ret true
           else ret false)
          (λ _, ret false);
      if filled then ret true else fillUsername rest username
  end.

(** [for (const indicator of indicators) { if (await
    page.locator(indicator).isVisible({ timeout: 3000 })) { found =
    true; break; } }]; the loop is not inside a [try]. *)
Fixpoint anyVisible (indicators : list string) : flow W bool :=
  match indicators with
  | [] => ret false
  | indicator :: rest =>
      visible ← perform pg (IsVisible (Locator indicator) 3000);
      if visible then ret true else anyVisible rest
  end.

(** *** [handleSeatSelection] *)

(** The loop over [closeButtons]; the result is [overlayClosed]. *)
Fixpoint closeOverlay (buttons : list string) : flow W bool :=
  match buttons with
  | [] => ret false
  | closeBtn :: rest =>
      closed ←
        try_catch
          (let closeButton := First (Locator closeBtn) in
           visible ← perform pg (IsVisible closeButton 1000);
           if visible then perform pg (Click closeButton);; ret true
           else ret false)
          (λ _, ret false);
      if closed then ret true else closeOverlay rest
  end.

Fixpoint dismissOverlays (selectors : list string) : flow W unit :=
  match selectors with
  | [] => ret ()
  | overlaySelector :: rest =>
      try_catch
        (let overlay := First (Locator overlaySelector) in
         visible ← perform pg (IsVisible overlay 2000);
         if visible then
           overlayClosed ← closeOverlay closeButtons;
           (if negb overlayClosed then perform pg (KeyboardPress "Escape")
            else ret ());;
           perform pg (WaitForTimeout 1000)
         else ret ())
        (λ _, ret ());;
      dismissOverlays rest
  end.

(** The loop over the selectors of one preferred seat.  Its [try] body
    is [click; seatsSelected++; waitForTimeout(500); break]: an error
    thrown by the click leaves the counter as it was, an error thrown by
    the wait leaves it incremented, and both go on to the next selector.
    The result is the counter. *)
Fixpoint tryPreferredSeat (selectors : list string) (seatsSelected : Z) : flow W Z :=
  match selectors with
  | [] => ret seatsSelected
  | selector :: rest =>
      let seat := First (Locator selector) in
      clicked ←
        try_catch
          (visible ← perform pg (IsVisible seat 2000);
           if visible then perform pg (Click seat);; ret true else ret false)
          (λ _, ret false);
      if clicked then
        let seatsSelected := seatsSelected + 1 in
        waited ←
          try_catch (perform pg (WaitForTimeout 500);; ret true) (λ _, ret false);
        if waited then ret seatsSelected
        else tryPreferredSeat rest seatsSelected
      else tryPreferredSeat rest seatsSelected
  end.

Fixpoint selectPreferred (seats : list string) (targetSeats : number)
    (seatsSelected : Z) : flow W Z :=
  match seats with
  | [] => ret seatsSelected
  | seatNumber :: rest =>
      seatsSelected ← tryPreferredSeat (seatSelectors seatNumber) seatsSelected;
      if ge_num seatsSelected targetSeats then ret seatsSelected
      else selectPreferred rest targetSeats seatsSelected
  end.

(** [for (let i = 0; i < seatsToSelect; i++) { try { await
    availableSeats.nth(i).click(); seatsSelected++; await
    page.waitForTimeout(500); } catch (error) { } }], with [n]
    iterations left from index [i]. *)
Fixpoint clickAvailable (n : nat) (i : Z) (availableSeats : locator)
    (seatsSelected : Z) : flow W Z :=
  match n with
  | O => ret seatsSelected
  | S n' =>
      clicked ←
        try_catch (perform pg (Click (nth_of availableSeats i));; ret true)
                  (λ _, ret false);
      if clicked then
        try_catch (perform pg (WaitForTimeout 500)) (λ _, ret ());;
        clickAvailable n' (i + 1) availableSeats (seatsSelected + 1)
      else clickAvailable n' (i + 1) availableSeats seatsSelected
  end.

Fixpoint selectAvailable (selectors : list string) (targetSeats : number)
    (seatsSelected : Z) : flow W Z :=
  match selectors with
  | [] => ret seatsSelected
  | selector :: rest =>
      let availableSeats := Locator selector in
      seatCount ← perform pg (Count availableSeats);
      if 0 <? seatCount then
        let seatsToSelect := seats_to_select targetSeats seatsSelected seatCount in
        seatsSelected ←
          clickAvailable (Z.to_nat seatsToSelect) 0 availableSeats seatsSelected;
        if ge_num seatsSelected targetSeats then ret seatsSelected
        else selectAvailable rest targetSeats seatsSelected
      else selectAvailable rest targetSeats seatsSelected
  end.

(** From [let seatsSelected = 0] to the end of the top-up with
    available seats; the result is [seatsSelected]. *)
Definition selectSeats (bookingPrefs : bookingPrefs) : flow W Z :=
  let targetSeats := numberOfSeats bookingPrefs in
  seatsSelected ←
    selectPreferred (slice_num (preferredSeats bookingPrefs) targetSeats)
                    targetSeats 0;
  if lt_num seatsSelected targetSeats
  then selectAvailable availableSeatSelectors targetSeats seatsSelected
  else ret seatsSelected.

(** [for (const otpIndicator of otpIndicators) { if (await
    page.locator(otpIndicator).isVisible({ timeout: 3000 })) ... }]:
    the first indicator found visible, if any. *)
Fixpoint firstOtpIndicator (indicators : list string) : flow W (option string) :=
  match indicators with
  | [] => ret None
  | indicator :: rest =>
      visible ← perform pg (IsVisible (Locator indicator) 3000);
      if visible then ret (Some indicator) else firstOtpIndicator rest
  end.

(** The loop over [continueSelectors]; the result tells whether the
    function returned from inside the loop. *)
Fixpoint continueToOtp (fuel : nat) (selectors : list string) : flow W bool :=
  match selectors with
  | [] => ret false
  | selector :: rest =>
      left ←
        try_catch
          (let button := First (Locator selector) in
           visible ← perform pg (IsVisible button 3000);
           if visible then
             perform pg (Click button);;
             perform pg (WaitForLoadState "domcontentloaded" 15000);;
             reached ← firstOtpIndicator otpIndicators;
             match reached with
             | Some _ =>
                 perform pg (Screenshot "otp-page-reached.png" true);;
                 seatOtpWait pg fuel;;
                 ret Returned
             | None => ret Broke
             end
           else ret Went_on)
          (λ _, ret Went_on);
      match left with
      | Returned => ret true
      | Broke => ret false
      | Went_on => continueToOtp fuel rest
      end
  end.

Definition handleSeatSelection (fuel : nat) (bookingPrefs : bookingPrefs)
  : flow W unit :=
  perform pg (WaitForTimeout 3000);;
  dismissOverlays overlaySelectors;;
  onSeatSelectionPage ← anyVisible seatSelectionIndicators;
  if negb onSeatSelectionPage then ret ()
  else
    perform pg (Screenshot "seat-selection-page.png" true);;
    selectSeats bookingPrefs;;
    returned ← continueToOtp fuel continueSelectors;
    if returned then ret ()
    else
      (* the last line printed reads [page.url()] *)
      perform pg Url;;
      ret ().

(** *** [handlePaymentAndOTP] *)

Fixpoint choosePaymentMethod (methods : list string) : flow W unit :=
  match methods with
  | [] => ret ()
  | method :: rest =>
      chosen ←
        try_catch
          (let paymentButton := First (Locator method) in
           visible ← perform pg (IsVisible paymentButton 3000);
           if visible then
             perform pg (Click paymentButton);;
             perform pg (WaitForTimeout 2000);;
             ret true
           else ret false)
          (λ _, ret false);
      if chosen then ret () else choosePaymentMethod rest
  end.

Fixpoint proceedToPayment (selectors : list string) : flow W unit :=
  match selectors with
  | [] => ret ()
  | selector :: rest =>
      clicked ←
        try_catch
          (let button := First (Locator selector) in
           visible ← perform pg (IsVisible button 3000);
           if visible then
             perform pg (Click button);;
             perform pg (WaitForLoadState "domcontentloaded" 15000);;
             ret true
           else ret false)
          (λ _, ret false);
      if clicked then ret () else proceedToPayment rest
  end.

Definition handlePaymentAndOTP (fuel : nat) : flow W unit :=
  perform pg (WaitForTimeout 3000);;
  onPaymentPage ← anyVisible paymentIndicators;
  if negb onPaymentPage then
    perform pg (Screenshot "current-page-debug.png" true)
  else
    perform pg (Screenshot "payment-page.png" true);;
    choosePaymentMethod paymentMethods;;
    proceedToPayment proceedSelectors;;
    perform pg (WaitForTimeout 5000);;
    otpVisible ← perform pg (IsVisible otpField 10000);
    if otpVisible then
      perform pg (Screenshot "otp-page.png" true);;
      outcome ← paymentOtpWait pg fuel;
      match outcome with
      | Succeeded _ => ret ()
      | OtpEntered | TimedOut | OutOfFuel =>
          (* the last line printed reads [page.url()] *)
          perform pg Url;;
          ret ()
      end
    else
      perform pg (Screenshot "no-otp-found.png" true);;
      perform pg Url;;
      ret ().

End WithPage.

(** Kinds of events, for saying what a flow does and does not do. *)

Definition is_click (ev : event) : bool :=
  match ev with Called (Click _) => true | _ => false end.

(** Text entry and keyboard input. *)
Definition is_input (ev : event) : bool :=
  match ev with
  | Called (PressSequentially _ _ _) | Called (Fill _ _) | Called (Clear _)
  | Called (KeyboardPress _) | Called (KeyboardType _)
  | Called (ClipboardWriteText _) => true
  | _ => false
  end.

(** Looking and waiting: calls that do not act on the page. *)
Definition is_passive (ev : event) : bool :=
  match ev with
  | Called (IsVisible _ _) | Called (WaitForTimeout _) | Called (Screenshot _ _)
  | Called Url | Called DateNow => true
  | _ => false
  end.

(** What a flow does, from any state: it only adds events to the trace
    and each of them satisfies [P]; a value it returns satisfies [Q]; an
    error it throws satisfies [E]. *)
Definition spec {W A} (P : event → bool) (Q : A → Prop) (E : string → Prop)
    (m : flow W A) : Prop :=
  ∀ st, ∃ evs,
    trace (m st).2 = trace st ++ evs
    ∧ Forall (λ ev, P ev = true) evs
    ∧ match (m st).1 with inr a => Q a | inl e => E e end.

(** Every event that [m] adds to the trace satisfies [P]. *)
Definition emits_only {W A} (P : event → bool) (m : flow W A) : Prop :=
  spec P (λ _, True) (λ _, True) m.

(** [m] ends normally, whatever the page does. *)
Definition never_throws {W A} (m : flow W A) : Prop :=
  spec (λ _, true) (λ _, True) (λ _, False) m.

(** The number of clicks recorded in a trace. *)
Definition clicks (tr : list event) : nat := length (filter (λ ev, is_click ev = true) tr).

(** [m] adds [n] clicks to the trace, where [n] and the way [m] ends
    are related by [R]. *)
Definition click_spec {W A} (R : string + A → nat → Prop) (m : flow W A) : Prop :=
  ∀ st, ∃ n, clicks (trace (m st).2) = (clicks (trace st) + n)%nat ∧ R (m st).1 n.

(** A page on which waiting never fails. *)
Definition waits_never_reject {W} (pg : page W) : Prop :=
  ∀ ms w, (pg unit (WaitForTimeout ms) w).1 = inr ().

(** A counter that stood at [k] has gone up by the number [n] of clicks
    when the flow returns it. *)
Definition counted (k : Z) (r : string + Z) (n : nat) : Prop :=
  ∀ k', r = inr k' → k' = k + Z.of_nat n.

(** A page on which a click never fails. *)
Definition clicks_never_reject {W} (pg : page W) : Prop :=
  ∀ l w, (pg unit (Click l) w).1 = inr ().

(** A page on which nothing is visible. *)
Definition nothing_visible {W} (pg : page W) : Prop :=
  ∀ l timeout w, (pg bool (IsVisible l timeout) w).1 = inr false.

End Stages.

(** ** The booking API, as the helpers call it

    [getAuthToken], [attemptBooking] and [attemptFallbackBooking] talk
    to the site over HTTP.  The server is abstract: every request
    either resolves to a response or rejects.  The flow monad is the
    one of [Browser]; its world is here the state of the server paired
    with the log of the requests made, and the page trace is not
    touched.  Calls to [console.log] are left out. *)

Module Api.
Import JS Seats Config Browser.
Local Open Scope flow_scope.

Definition BASE_URL : string := "https://railapp.railway.gov.bd".

(** JavaScript values as these helpers meet them: parsed JSON, the data
    they send, and [undefined].  Numbers are those of [Config.number]. *)
#[warnings="-register-all"]
Inductive value :=
| Undefined
| Null
| Bool (b : bool)
| Num (n : number)
| Str (s : string)
| Arr (items : list value)
| Obj (fields : list (string * value)).

(** Truthiness: [undefined], [null], [false], [0], [NaN] and the empty
    string are falsy. *)
Definition truthy_value (v : value) : bool :=
  match v with
  | Undefined | Null => false
  | Bool b => b
  | Num NaN => false
  | Num (Int z) => negb (z =? 0)
  | Str s => negb (String.eqb s EmptyString)
  | Arr _ | Obj _ => true
  end.

(** [a || b], where evaluating an operand may throw: [b] is evaluated
    only when [a] is falsy. *)
Definition or_else (a b : string + value) : string + value :=
  match a with
  | inr v => if truthy_value v then inr v else b
  | inl e => inl e
  end.

(** The message of the [TypeError] for a property read on [null] or
    [undefined]. *)
Definition cannot_read (v : value) (key : string) : string :=
  "Cannot read properties of "
  +:+ (match v with Null => "null" | _ => "undefined" end)
  +:+ " (reading '" +:+ key +:+ "')".

(** The fields of an object are those of the parsed JSON text, each
    key once. *)
Fixpoint lookup_field (fields : list (string * value)) (key : string) : value :=
  match fields with
  | [] => Undefined
  | (k, v) :: rest => if String.eqb k key then v else lookup_field rest key
  end.

(** [v.key], for the keys these helpers read ([id], [name], [token],
    [data], ...), none of which is a property that strings, numbers,
    booleans or arrays have of their own. *)
Definition get (v : value) (key : string) : string + value :=
  match v with
  | Undefined | Null => inl (cannot_read v key)
  | Obj fields => inr (lookup_field fields key)
  | Bool _ | Num _ | Str _ | Arr _ => inr Undefined
  end.

(** [v.key?.key'] *)
Definition get_in (v : value) (key key' : string) : string + value :=
  match get v key with
  | inr (Undefined | Null) => inr Undefined
  | inr inner => get inner key'
  | inl e => inl e
  end.

(** [responseData.token || responseData.access_token ||
    responseData.accessToken || responseData.authToken ||
    responseData.data?.token || responseData.data?.access_token] *)
Definition token_of (responseData : value) : string + value :=
  or_else (or_else (or_else (or_else (or_else
    (get responseData "token")
    (get responseData "access_token"))
    (get responseData "accessToken"))
    (get responseData "authToken"))
    (get_in responseData "data" "token"))
    (get_in responseData "data" "access_token").

(** A response: its status, and what [response.json()] and
    [response.text()] settle to. *)
Record response := Response {
  status : Z;
  json : string + value;
  text : string + string
}.

(** [response.ok()]: the status is in the range 200 to 299. *)
Definition ok (r : response) : bool := (200 <=? status r) && (status r <=? 299).

(** The calls made on a request context, indexed by the type of what
    they resolve to. *)
Inductive op : Type → Type :=
| NewContext : op unit                       (* request.newContext() *)
| Post (url : string) (data : value) (headers : list (string * string)) : op response
| Dispose : op unit.                         (* apiRequestContext.dispose() *)

Inductive sent :=
| Sent {A : Type} (c : op A).

Definition server (W : Type) : Type :=
  ∀ A : Type, op A → W → (string + A) * W.

(** The requests made so far. *)
Definition log {W} (st : state (W * list sent)) : list sent := (world st).2.

(** [await] of one call on the request context. *)
Definition await {W} (srv : server W) {A} (c : op A) : flow (W * list sent) A :=
  λ st, let '(r, w) := srv A c (world st).1 in
        (r, State (w, (world st).2 ++ [Sent c]) (trace st)).

(** The outcome of an evaluation that may throw, or of a promise of the
    response that does not involve the server. *)
Definition settled {W A} (r : string + A) : flow W A := λ st, (r, st).

Definition jsonHeaders : list (string * string) :=
  [("Content-Type", "application/json"); ("Accept", "application/json")].

(** [headers], with [Authorization] added [if (authToken)]. *)
Definition headers_with (authToken : option string) : list (string * string) :=
  jsonHeaders
  ++ if truthy authToken
     then [("Authorization", "Bearer " +:+ default EmptyString authToken)]
     else [].

(** *** [getAuthToken] *)

Definition credentials_missing : string :=
  "RAILWAY_USERNAME and RAILWAY_PASSWORD must be set in .env file".

Definition could_not_authenticate : string :=
  "Could not authenticate with any known login endpoint".

Definition loginEndpoints : list string :=
  ["/api/auth/login"; "/api/login"; "/auth/login"; "/api/v1/auth/login";
   "/api/user/login"].

(** A value of [process.env]. *)
Definition of_env (v : option string) : value :=
  match v with Some s => Str s | None => Undefined end.

Definition loginData (username password : option string) : value :=
  Obj [ ("mobile", of_env username); ("password", of_env password);
        ("username", of_env username); ("phone", of_env username);
        ("mobileNumber", of_env username) ].

Definition loginPost (username password : option string) (endpoint : string)
  : op response :=
  Post (BASE_URL +:+ endpoint) (loginData username password) jsonHeaders.

Section WithServer.
Context {W : Type} (srv : server W).

(** The loop over [loginEndpoints]; the result is the token with which
    the function returns from inside the loop, if it does. *)
Fixpoint tryLogin (endpoints : list string) (username password : option string)
  : flow (W * list sent) (option value) :=
  match endpoints with
  | [] => ret None
  | endpoint :: rest =>
      found ←
        try_catch
          (response ← await srv (loginPost username password endpoint);
           if ok response then
             responseData ← settled (json response);
             token ← settled (token_of responseData);
             if truthy_value token then
               await srv Dispose;;
               ret (Some token)
             else ret None
           else ret None)
          (λ _, ret None);
      match found with
      | Some token => ret (Some token)
      | None => tryLogin rest username password
      end
  end.

Definition getAuthToken (env : gmap string string) : flow (W * list sent) value :=
  let username := env !! "RAILWAY_USERNAME" in
  let password := env !! "RAILWAY_PASSWORD" in
  if negb (truthy username) || negb (truthy password)
  then throw credentials_missing
  else
    await srv NewContext;;
    try_catch
      (found ← tryLogin loginEndpoints username password;
       match found with
       | Some token => ret token
       | None =>
           await srv Dispose;;
           throw could_not_authenticate
       end)
      (λ error,
         await srv Dispose;;
         throw error).

(** *** [attemptFallbackBooking] *)


(** A generator called with [bookingPrefs.numberOfSeats]: with [NaN]
    its loop does not run and the result is empty. *)
Definition seats_for (generate : Z → list string) (count : number) : list string :=
  match count with NaN => [] | Int z => generate z end.


Definition seat_array (seats : list string) : value := Arr (Str <$> seats).






(** *** [attemptBooking] *)





(** *** [testBookingEndpoints] *)

Definition testedEndpoints : list string :=
  ["/api/booking"; "/api/book"; "/api/v1/booking"; "/api/tickets/book"].

Definition testBookingData (bookingPrefs : bookingPrefs) : value :=
  Obj [ ("trainName", of_env (trainName bookingPrefs));
        ("seats", seat_array (preferredSeats bookingPrefs));
        ("seatNumbers", seat_array (preferredSeats bookingPrefs));
        ("coach", Str "SNIGDHA"); ("class", Str "SNIGDHA") ].

(** The loop over the endpoints; what the responses say is only
    printed. *)
Fixpoint testEach (endpoints : list string) (testBookingData : value)
    (authToken : option string) : flow (W * list sent) unit :=
  match endpoints with
  | [] => ret ()
  | endpoint :: rest =>
      try_catch
        (response ← await srv (Post (BASE_URL +:+ endpoint) testBookingData
                                    (headers_with authToken));
         if ok response then
           settled (json response);;
           ret ()
         else ret ())
        (λ _, ret ());;
      testEach rest testBookingData authToken
  end.

Definition testBookingEndpoints (bookingPrefs : bookingPrefs)
    (authToken : option string) : flow (W * list sent) unit :=
  testEach testedEndpoints (testBookingData bookingPrefs) authToken.

End WithServer.

(** The posts a function may make, as log entries. *)
Definition loginPosts (username password : option string) (endpoints : list string)
  : list sent :=
  (λ endpoint, Sent (loginPost username password endpoint)) <$> endpoints.




(** A server on which creating and disposing of a request context
    never fails. *)
Definition contexts_never_reject {W} (srv : server W) : Prop :=
  ∀ w, (srv unit NewContext w).1 = inr () ∧ (srv unit Dispose w).1 = inr ().

(** What a flow adds to the log, related to the way it ends. *)
Definition sends {W A} (R : list sent → string + A → Prop)
    (m : flow (W * list sent) A) : Prop :=
  ∀ st, ∃ reqs, log (m st).2 = log st ++ reqs ∧ R reqs (m st).1.

(** A server on which only [/api/login] knows the user; it answers with
    the token under [data.access_token].  The world counts the calls. *)
Definition login_at_second_endpoint : server nat :=
  λ A c,
    match c in op A return nat → (string + A) * nat with
    | NewContext => λ w, (inr (), S w)
    | Dispose => λ w, (inr (), S w)
    | Post url _ _ =>
        λ w, (inr (if String.eqb url (BASE_URL +:+ "/api/login")
                   then Response 200
                          (inr (Obj [("data", Obj [("access_token", Str "t0k3n")])]))
                          (inr EmptyString)
                   else Response 404 (inl "Unexpected token N in JSON at position 0")
                                     (inr "Not Found")),
              S w)
    end.


Definition credentials : gmap string string :=
  <["RAILWAY_USERNAME" := "01700000000"]> (<["RAILWAY_PASSWORD" := "pass#word"]> ∅).

End Api.

(** ** The tests of the configuration

    The three tests that exercise the loaders and the seat generators
    without a browser.  A test fails when the code under test throws
    outside an expectation, or at the first expectation that is not
    met. *)

Module ConfigTests.
Import JS Seats Config SearchConfig Browser Api.

Inductive failure :=
| Threw (message : string)       (* an error of the code under test *)
| Unmet (expectation : string).  (* the expectation that did not hold *)

(** The expectations of a test in their order, each with what it
    evaluates to; the first that is not met fails the test. *)
Fixpoint first_unmet (expectations : list (string * bool)) : failure + unit :=
  match expectations with
  | [] => inr ()
  | (expectation, holds) :: rest =>
      if holds then first_unmet rest else inl (Unmet expectation)
  end.

(** [expect(v).toBeDefined()] *)
Definition toBeDefined {A} (v : option A) : bool :=
  match v with Some _ => true | None => false end.

(** [process.env.X || fallback] *)
Definition env_or (v : option string) (fallback : string) : string :=
  if truthy v then default EmptyString v else fallback.

(** [expect(v).toBe(s)] for [v] a string or [undefined] and [s] a
    string. *)
Definition toBe_text (v : option string) (s : string) : bool :=
  match v with Some s' => String.eqb s' s | None => false end.

(** [expect(a).toBe(b)] on numbers: [Object.is], for which [NaN] is
    [NaN]. *)
Definition toBe_number (a b : number) : bool :=
  match a, b with
  | NaN, NaN => true
  | Int x, Int y => x =? y
  | _, _ => false
  end.

(** [expect(() => f()).toThrow(expected)]: [f] throws and the message
    of the error contains [expected]. *)
Definition toThrow {A} (thrown : string + A) (expected : string) : bool :=
  match thrown with
  | inl message => includes expected message
  | inr _ => false
  end.

(** [expect(a).toHaveLength(n)] *)
Definition toHaveLength {A} (a : list A) (n : number) : bool :=
  match n with NaN => false | Int z => len a =? z end.

(** [expect(s).toMatch(/^[A-F]\d+$/)] for [s] a string or [undefined]. *)
Definition toMatch_row_digits (s : option string) : bool :=
  match s with
  | Some (String c (String d ds)) => is_row_letter c && is_digit d && all_chars is_digit ds
  | _ => false
  end.

(** 'should read configuration from environment variables' *)
Definition readsConfiguration (env : gmap string string) : failure + unit :=
  match getSearchData env with
  | inl message => inl (Threw message)
  | inr searchData =>
      match getBookingPreferences env with
      | inl message => inl (Threw message)
      | inr bookingPrefs =>
          first_unmet
            [ ("searchData.from is defined", toBeDefined (from searchData));
              ("searchData.to is defined", toBeDefined (to searchData));
              ("searchData.date is defined", toBeDefined (date searchData));
              ("searchData.class is defined", toBeDefined (class searchData));
              ("bookingPrefs.trainName is defined",
               toBeDefined (trainName bookingPrefs));
              ("bookingPrefs.preferredSeats is defined", true);
              ("bookingPrefs.numberOfSeats is defined", true);
              ("bookingPrefs.preferredSeats is an array", true);
              ("bookingPrefs.numberOfSeats is a number", true);
              ("searchData.from is SEARCH_FROM",
               toBe_text (from searchData) (env_or (env !! "SEARCH_FROM") EmptyString));
              ("searchData.to is SEARCH_TO",
               toBe_text (to searchData) (env_or (env !! "SEARCH_TO") EmptyString));
              ("searchData.date is SEARCH_DATE",
               toBe_text (date searchData) (env_or (env !! "SEARCH_DATE") EmptyString));
              ("searchData.class is SEARCH_CLASS",
               toBe_text (class searchData) (env_or (env !! "SEARCH_CLASS") EmptyString));
              ("bookingPrefs.trainName is TRAIN_NAME",
               toBe_text (trainName bookingPrefs)
                         (env_or (env !! "TRAIN_NAME") EmptyString));
              ("bookingPrefs.numberOfSeats is parseInt(NUMBER_OF_SEATS)",
               toBe_number (numberOfSeats bookingPrefs)
                           (parseInt (env_or (env !! "NUMBER_OF_SEATS") "1"))) ]
      end
  end.

(** 'should validate required environment variables'; the result comes
    with [process.env] as the test leaves it. *)
Definition validatesEnvironment (env : gmap string string)
  : (failure + unit) * gmap string string :=
  let originalEnv := env in
  let outcome :=
    first_unmet
      [ ("getSearchData throws without SEARCH_FROM",
         toThrow (getSearchData (delete "SEARCH_FROM" originalEnv))
                 "Missing required search environment variables");
        ("getBookingPreferences throws without TRAIN_NAME",
         toThrow (getBookingPreferences (delete "TRAIN_NAME" originalEnv))
                 "Missing required booking environment variables");
        ("getBookingPreferences throws for 0 seats",
         toThrow (getBookingPreferences (<["NUMBER_OF_SEATS" := "0"]> originalEnv))
                 "NUMBER_OF_SEATS must be a positive number") ] in
  (outcome, originalEnv).

(** 'should generate fallback seat patterns correctly' *)
Definition generatesFallbackSeats (env : gmap string string) : failure + unit :=
  match getBookingPreferences env with
  | inl message => inl (Threw message)
  | inr bookingPrefs =>
      let genericSeats :=
        seats_for generateGenericSeatNumbers (numberOfSeats bookingPrefs) in
      let commonSeats :=
        seats_for generateCommonSeatPatterns (numberOfSeats bookingPrefs) in
      first_unmet
        [ ("genericSeats has numberOfSeats elements",
           toHaveLength genericSeats (numberOfSeats bookingPrefs));
          ("genericSeats[0] is a row letter and digits",
           toMatch_row_digits (genericSeats !! 0%nat));
          ("commonSeats has numberOfSeats elements",
           toHaveLength commonSeats (numberOfSeats bookingPrefs));
          ("threeSeats has 3 elements",
           toHaveLength (generateGenericSeatNumbers 3) (Int 3));
          ("fiveSeats has 5 elements",
           toHaveLength (generateCommonSeatPatterns 5) (Int 5)) ]
  end.

End ConfigTests.

(** * Properties *)

(** ** The configuration loader *)

Module ConfigFacts.
Import Config.

Lemma names_field_intro msg field before after :
  msg = before +:+ field +:+ after → names_field msg field.
Proof. intros ->. by exists before, after. Qed.

(** A seat count that parses to a number not above 0 is rejected: by
    the seat-count check when the other fields are set, and by the
    check for missing fields otherwise. *)
Lemma nonpositive_count_rejected (env : gmap string string) seats :
  env !! "NUMBER_OF_SEATS" = Some seats →
  truthy (Some seats) = true → le_zero (parseInt seats) = true →
  (∃ msg, getBookingPreferences env = inl msg)
  ∧ (truthy (env !! "TRAIN_NAME") = true →
     truthy (env !! "PREFERRED_SEATS") = true →
     getBookingPreferences env = inl seats_not_positive).
Proof.
  intros Hseats Hset Hlow. unfold getBookingPreferences.
  cbn [trainName numberOfSeats]. rewrite Hseats, Hset.
  change (default EmptyString (Some seats)) with seats. rewrite Hlow.
  destruct (truthy (env !! "TRAIN_NAME")), (truthy (env !! "PREFERRED_SEATS"));
    cbn; (split; [by eexists | by intros]).
Qed.

(** C4. The loader throws when [NUMBER_OF_SEATS] is ["0"] or ["-1"]
    (with the seat-count message when the other fields are set); and
    when one of [TRAIN_NAME], [PREFERRED_SEATS], [NUMBER_OF_SEATS] is
    absent it throws a message that differs from the seat-count
    message and contains the name of the absent field. *)
Theorem loader_rejects_bad_count_and_missing_field :
  (∀ env : gmap string string,
     env !! "NUMBER_OF_SEATS" = Some "0" ∨ env !! "NUMBER_OF_SEATS" = Some "-1" →
     (∃ msg, getBookingPreferences env = inl msg)
     ∧ (truthy (env !! "TRAIN_NAME") = true →
        truthy (env !! "PREFERRED_SEATS") = true →
        getBookingPreferences env = inl seats_not_positive))
  ∧ (∀ (env : gmap string string) field,
       field ∈ required_fields → env !! field = None →
       getBookingPreferences env = inl missing_booking_variables
       ∧ missing_booking_variables ≠ seats_not_positive
       ∧ names_field missing_booking_variables field).
Proof.
  split.
  - intros env [Hseats|Hseats];
      by eapply nonpositive_count_rejected.
  - intros env field Hfield Hmissing. split_and!.
    + unfold getBookingPreferences. cbn [trainName numberOfSeats].
      unfold required_fields in Hfield.
      apply elem_of_cons in Hfield as [->|Hfield]; [by rewrite Hmissing|].
      apply elem_of_cons in Hfield as [->|Hfield];
        [rewrite Hmissing; by destruct (truthy _)|].
      apply list_elem_of_singleton in Hfield as ->. rewrite Hmissing.
      by destruct (truthy _), (truthy _).
    + done.
    + unfold required_fields in Hfield.
      apply elem_of_cons in Hfield as [->|Hfield];
        [|apply elem_of_cons in Hfield as [->|Hfield];
          [|apply list_elem_of_singleton in Hfield as ->]].
      * by apply (names_field_intro _ _
          "Missing required booking environment variables. Please ensure "
          ", PREFERRED_SEATS, and NUMBER_OF_SEATS are set in .env file").
      * by apply (names_field_intro _ _
          "Missing required booking environment variables. Please ensure TRAIN_NAME, "
          ", and NUMBER_OF_SEATS are set in .env file").
      * by apply (names_field_intro _ _
          "Missing required booking environment variables. Please ensure TRAIN_NAME, PREFERRED_SEATS, and "
          " are set in .env file").
Qed.

Lemma loader_rejects_bad_count_and_missing_field_witness :
  getBookingPreferences (env_with_seats "-1") = inl seats_not_positive
  ∧ getBookingPreferences (delete "PREFERRED_SEATS" (env_with_seats "2"))
    = inl missing_booking_variables.
Proof.
  split.
  - apply (proj1 loader_rejects_bad_count_and_missing_field (env_with_seats "-1"));
      [right|..]; reflexivity.
  - apply (proj2 loader_rejects_bad_count_and_missing_field
             (delete "PREFERRED_SEATS" (env_with_seats "2")) "PREFERRED_SEATS");
      [|reflexivity].
    apply list_elem_of_In. right. left. reflexivity.
Defined.

(** C5, at the failing input. With every field set and
    [NUMBER_OF_SEATS=abc], [parseInt] gives [NaN], the test
    [NaN <= 0] is false, and the loader returns a preferences object
    whose seat count is [NaN] instead of throwing. *)
Theorem loader_accepts_non_numeric_count :
  parseInt "abc" = NaN
  ∧ getBookingPreferences (env_with_seats "abc")
    = inr {| trainName := Some "SUBORNO EXPRESS";
             preferredSeats := ["A1"; "B2"];
             numberOfSeats := NaN |}.
Proof. split; reflexivity. Qed.

End ConfigFacts.

(** ** The fallback seat generators *)

Module SeatFacts.
Import JS Seats.

Lemma for_range_push {A} (f : Z → A) n i (acc : list A) :
  for_range n i (λ i acc, acc ++ [f i]) acc = acc ++ (f <$> seqZ i (Z.of_nat n)).
Proof.
  revert i acc. induction n as [|n IH]; intros i acc.
  - by rewrite seqZ_nil, app_nil_r.
  - cbn [for_range]. rewrite IH, (seqZ_cons i) by lia.
    rewrite <- app_assoc. cbn. do 3 f_equal. f_equal; lia.
Qed.

Lemma generic_closed_form count :
  generateGenericSeatNumbers count = generic_seat <$> seqZ 0 count.
Proof.
  unfold generateGenericSeatNumbers, for_below.
  rewrite (for_range_push
             (λ i, index rows (rem i (len rows))
                   +:+ num_to_string (i `div` len rows + 1))).
  cbn [app]. destruct (decide (0 ≤ count)).
  - rewrite Z2Nat.id by done. apply list_fmap_ext.
    intros k i [-> _]%lookup_seqZ. unfold generic_seat, rem.
    change (len rows) with 6. by rewrite Z.rem_mod_nonneg by lia.
  - rewrite (seqZ_nil 0 count) by lia. by rewrite Z2Nat.nonpos by lia.
Qed.

(** The reads [a[i % a.length]] of the generators stay inside the
    array. *)
Lemma index_rem_in_range (a : list string) i :
  a ≠ [] → 0 ≤ i →
  ∃ x, a !! Z.to_nat (rem i (len a)) = Some x ∧ index a (rem i (len a)) = x.
Proof.
  intros Ha Hi. unfold rem, index, len.
  assert (0 < Z.of_nat (length a)) by (destruct a; [done|cbn; lia]).
  rewrite Z.rem_mod_nonneg by lia.
  pose proof (Z.mod_pos_bound i (Z.of_nat (length a)) ltac:(done)) as Hk.
  rewrite (proj2 (Z.ltb_ge _ 0)) by lia.
  destruct (lookup_lt_is_Some_2 a (Z.to_nat (i `mod` Z.of_nat (length a))))
    as [x Hx]; [lia|].
  exists x. by rewrite Hx.
Qed.

Lemma common_body_step i seats :
  0 ≤ i →
  common_body i (seats, Z.min (i `div` 6) 6)
  = (seats ++ [common_seat i], Z.min ((i + 1) `div` 6) 6).
Proof.
  intros Hi. destruct (decide (i < 36)) as [Hlt|Hge].
  - assert (∀ n : nat, (n < 36)%nat →
              common_body (Z.of_nat n) (seats, Z.min (Z.of_nat n `div` 6) 6)
              = (seats ++ [common_seat (Z.of_nat n)],
                 Z.min ((Z.of_nat n + 1) `div` 6) 6)) as Hsmall.
    { intros n Hn.
      do 36 (destruct n as [|n]; [vm_compute; reflexivity|]). lia. }
    rewrite <- (Z2Nat.id i) by done. apply Hsmall. lia.
  - assert (6 ≤ i `div` 6) by (apply Z.div_le_lower_bound; lia).
    assert (6 ≤ (i + 1) `div` 6) by (apply Z.div_le_lower_bound; lia).
    rewrite !Z.min_r by done. unfold common_body, common_seat.
    change (len commonPatterns) with 6. change (len template_seats) with 36.
    change (6 <? 6) with false. cbv iota.
    by rewrite (proj2 (Z.ltb_ge i 36)) by lia.
Qed.

Lemma common_loop n i seats :
  0 ≤ i →
  for_range n i common_body (seats, Z.min (i `div` 6) 6)
  = (seats ++ (common_seat <$> seqZ i (Z.of_nat n)),
     Z.min ((i + Z.of_nat n) `div` 6) 6).
Proof.
  revert i seats. induction n as [|n IH]; intros i seats Hi.
  - rewrite seqZ_nil, app_nil_r, Z.add_0_r by done. done.
  - cbn [for_range]. rewrite common_body_step, IH by lia.
    rewrite (seqZ_cons i) by lia. rewrite <- app_assoc. cbn.
    f_equal; [do 3 f_equal; f_equal; lia | do 2 f_equal; lia].
Qed.

Lemma common_closed_form count :
  generateCommonSeatPatterns count = common_seat <$> seqZ 0 count.
Proof.
  unfold generateCommonSeatPatterns, for_below.
  pose proof (common_loop (Z.to_nat count) 0 [] ltac:(done)) as Hloop.
  change (Z.min (0 `div` 6) 6) with 0 in Hloop. rewrite Hloop. cbn [app].
  unfold slice0, len. rewrite length_fmap, length_seqZ, Nat2Z.id.
  destruct (decide (0 ≤ count)).
  - rewrite Z2Nat.id by done. rewrite (proj2 (Z.ltb_ge count 0)) by done.
    rewrite Z.min_id. apply take_ge. by rewrite length_fmap, length_seqZ.
  - rewrite (Z2Nat.nonpos count), !seqZ_nil by lia. apply take_nil.
Qed.

(** Facts about a sequence laid out position by position. *)

Lemma positions_length {A} (f : Z → A) count :
  length (f <$> seqZ 0 count) = Z.to_nat count.
Proof. by rewrite length_fmap, length_seqZ. Qed.

Lemma positions_lookup {A} (f : Z → A) count i :
  0 ≤ i < count → (f <$> seqZ 0 count) !! Z.to_nat i = Some (f i).
Proof.
  intros Hi. rewrite list_lookup_fmap, lookup_seqZ_lt by lia.
  cbn. f_equal. f_equal. lia.
Qed.

Lemma positions_prefix {A} (f : Z → A) m n :
  m ≤ n → f <$> seqZ 0 m = take (Z.to_nat m) (f <$> seqZ 0 n).
Proof.
  intros Hmn. destruct (decide (0 ≤ m)).
  - replace n with (m + (n - m)) by lia.
    rewrite seqZ_app, fmap_app by lia.
    by rewrite take_app_length' by (by rewrite positions_length).
  - rewrite (seqZ_nil 0 m) by lia. rewrite Z2Nat.nonpos by lia. done.
Qed.

(** Decimal notation of a positive integer: a digit other than 0,
    then digits. *)

Lemma append_cons c s t : String c s +:+ t = String c (s +:+ t).
Proof. reflexivity. Qed.

Lemma append_empty_r s : s +:+ EmptyString = s.
Proof. induction s as [|c s IH]; [done|by rewrite append_cons, IH]. Qed.

Lemma all_chars_snoc p ds c :
  all_chars p (ds +:+ String c EmptyString) = all_chars p ds && p c.
Proof.
  induction ds as [|d ds IH].
  - change (all_chars p (String c EmptyString) = true && p c).
    cbn. by destruct (p c).
  - rewrite append_cons. cbn. rewrite IH. by destruct (p d), (all_chars p ds).
Qed.

Lemma append_snoc ds c s : (ds +:+ String c EmptyString) +:+ s = ds +:+ String c s.
Proof. induction ds as [|d ds IH]; [done|by rewrite !append_cons, IH]. Qed.

Lemma pretty_N_char_digit x : is_digit (pretty_N_char x) = true.
Proof. unfold pretty_N_char. by repeat case_match. Qed.

Lemma pretty_N_go_digits x s :
  (0 < x)%N →
  ∃ d ds, pretty_N_go x s = String d (ds +:+ s)
          ∧ is_digit_1_9 d = true ∧ all_chars is_digit ds = true.
Proof.
  revert s. induction (N.lt_wf_0 x) as [x _ IH]; intros s Hx.
  rewrite pretty_N_go_step by done.
  destruct (decide (x < 10)%N) as [Hsmall|Hbig].
  - rewrite N.div_small, N.mod_small, pretty_N_go_0 by done.
    exists (pretty_N_char x), EmptyString. split_and!; [done| |done].
    assert (x = 1 ∨ x = 2 ∨ x = 3 ∨ x = 4 ∨ x = 5 ∨ x = 6
            ∨ x = 7 ∨ x = 8 ∨ x = 9)%N
      as [->|[->|[->|[->|[->|[->|[->|[->| ->]]]]]]]] by lia; done.
  - destruct (IH (x `div` 10)%N) with (s := String (pretty_N_char (x `mod` 10)) s)
      as (d & ds & -> & Hd & Hds).
    { apply N.div_lt; lia. }
    { apply N.div_str_pos; lia. }
    exists d, (ds +:+ String (pretty_N_char (x `mod` 10)) EmptyString).
    rewrite append_snoc, all_chars_snoc, Hds, pretty_N_char_digit. done.
Qed.

Lemma num_to_string_positive z :
  0 < z →
  ∃ d ds, num_to_string z = String d ds
          ∧ is_digit_1_9 d = true ∧ all_chars is_digit ds = true.
Proof.
  intros Hz. destruct z as [|p|p]; [lia| |lia].
  unfold num_to_string, pretty, pretty_Z, pretty, pretty_positive, pretty, pretty_N.
  rewrite decide_False by done.
  destruct (pretty_N_go_digits (N.pos p) EmptyString) as (d & ds & -> & Hd & Hds);
    [lia|].
  exists d, ds. by rewrite append_empty_r.
Qed.

(** The row letter of position [i] is the letter numbered [i mod 6]
    from [A]. *)
Lemma generic_seat_parts i :
  0 ≤ i →
  ∃ c, rows !! Z.to_nat (i `mod` 6) = Some (String c EmptyString)
       ∧ generic_seat i = String c (num_to_string (i `div` 6 + 1))
       ∧ Z.of_N (N_of_ascii c) = 65 + i `mod` 6.
Proof.
  intros Hi. unfold generic_seat.
  pose proof (Z.mod_pos_bound i 6 ltac:(lia)) as Hk.
  remember (i `mod` 6) as k eqn:Hmod.
  assert (k = 0 ∨ k = 1 ∨ k = 2 ∨ k = 3 ∨ k = 4 ∨ k = 5)
    as [->|[->|[->|[->|[->| ->]]]]] by lia;
    eexists; (split_and!; reflexivity).
Qed.

Lemma generic_seat_inj i j :
  0 ≤ i → 0 ≤ j → generic_seat i = generic_seat j → i = j.
Proof.
  intros Hi Hj Heq.
  destruct (generic_seat_parts i Hi) as (c & _ & Hseat & Hc).
  destruct (generic_seat_parts j Hj) as (c' & _ & Hseat' & Hc').
  rewrite Hseat, Hseat' in Heq.
  injection Heq as -> Hnum. apply (inj pretty) in Hnum.
  rewrite (Z.div_mod i 6), (Z.div_mod j 6) by lia. lia.
Qed.

Lemma generic_seat_well_formed i :
  0 ≤ i → matches_row_number (generic_seat i) = true.
Proof.
  intros Hi. destruct (generic_seat_parts i Hi) as (c & _ & -> & Hc).
  destruct (num_to_string_positive (i `div` 6 + 1)) as (d & ds & -> & Hd & Hds).
  { pose proof (Z.div_pos i 6). lia. }
  pose proof (Z.mod_pos_bound i 6 ltac:(lia)).
  cbn. rewrite Hd, Hds, !andb_true_r. unfold is_row_letter.
  apply andb_true_intro; split; apply N.leb_le; lia.
Qed.

Lemma generic_seat_small_well_formed i :
  0 ≤ i < 54 → matches_row_nonzero_digits (generic_seat i) = true.
Proof.
  revert i. apply Forall_seqZ with (m := 0) (n := 54)
    (P := λ i, matches_row_nonzero_digits (generic_seat i) = true).
  apply (bool_decide_unpack _). vm_compute. exact I.
Qed.

(** C1. For every [count >= 1] and every position [i < count], the
    generic generator has at position [i] the identifier made of the
    [(i mod 6)]-th letter of [A, B, C, D, E, F] and of the number
    [floor(i/6) + 1]; for 3 seats it gives [A1, B1, C1] and for 7 seats
    [A1, B1, C1, D1, E1, F1, A2]. *)
Theorem generic_seat_at_position :
  (∀ count i, 1 ≤ count → 0 ≤ i < count →
     ∃ letter,
       ["A"; "B"; "C"; "D"; "E"; "F"] !! Z.to_nat (i `mod` 6) = Some letter
       ∧ generateGenericSeatNumbers count !! Z.to_nat i
         = Some (letter +:+ num_to_string (i `div` 6 + 1)))
  ∧ generateGenericSeatNumbers 3 = ["A1"; "B1"; "C1"]
  ∧ generateGenericSeatNumbers 7 = ["A1"; "B1"; "C1"; "D1"; "E1"; "F1"; "A2"].
Proof.
  split_and!; [|by vm_compute..].
  intros count i Hcount Hi.
  destruct (generic_seat_parts i) as (c & Hrow & Hseat & _); [lia|].
  exists (String c EmptyString). split; [exact Hrow|].
  by rewrite generic_closed_form, positions_lookup, Hseat.
Qed.

Lemma generic_seat_at_position_witness :
  ∃ letter,
    ["A"; "B"; "C"; "D"; "E"; "F"] !! Z.to_nat (13 `mod` 6) = Some letter
    ∧ generateGenericSeatNumbers 20 !! Z.to_nat 13
      = Some (letter +:+ num_to_string (13 `div` 6 + 1)).
Proof. apply (proj1 generic_seat_at_position 20 13); lia. Defined.

(** C2. For every [count >= 1] the common-pattern generator returns
    exactly [count] identifiers: the seats of the templates [1A..1F],
    [2A..2F], [3A..3F], [A1..A6], [B1..B6], [S1..S6] taken in order and,
    past the 36 template seats, [S37], [S38], ... from a counter that
    goes up by one; for 5 seats it gives [1A..1E] and for 8 seats
    [1A..1F, 2A, 2B]. *)
Theorem common_seat_patterns :
  (∀ count, 1 ≤ count →
     length (generateCommonSeatPatterns count) = Z.to_nat count
     ∧ generateCommonSeatPatterns count
       = take (Z.to_nat count) (concat commonPatterns)
         ++ ((λ n, "S" +:+ num_to_string n) <$> seqZ 37 (count - 36)))
  ∧ generateCommonSeatPatterns 5 = ["1A"; "1B"; "1C"; "1D"; "1E"]
  ∧ generateCommonSeatPatterns 8 = ["1A"; "1B"; "1C"; "1D"; "1E"; "1F"; "2A"; "2B"].
Proof.
  split_and!; [|by vm_compute..].
  intros count Hcount. rewrite common_closed_form. split.
  { apply positions_length. }
  assert (∀ n, n ≤ 36 →
            common_seat <$> seqZ 0 n = take (Z.to_nat n) (concat commonPatterns))
    as Htemplates.
  { intros n Hn. rewrite (positions_prefix common_seat n 36) by done.
    f_equal. }
  assert (∀ n, common_seat <$> seqZ 36 n
               = (λ n, "S" +:+ num_to_string n) <$> seqZ 37 n) as Hpadding.
  { intros n. change 37 with (1 + 36).
    rewrite <- (fmap_add_seqZ 1 36), <- list_fmap_compose.
    apply list_fmap_ext. intros k i [-> _]%lookup_seqZ. unfold common_seat.
    change (len template_seats) with 36.
    rewrite (proj2 (Z.ltb_ge _ 36)) by lia. cbn. do 2 f_equal. lia. }
  destruct (decide (count ≤ 36)) as [Hle|Hgt].
  - rewrite Htemplates, (seqZ_nil 37) by lia. by rewrite app_nil_r.
  - replace count with (36 + (count - 36)) at 1 by lia.
    rewrite seqZ_app, fmap_app, Htemplates, Hpadding by lia.
    f_equal. change (Z.to_nat 36) with (length (concat commonPatterns)).
    rewrite take_ge by done. symmetry. apply take_ge. cbn. lia.
Qed.

Lemma common_seat_patterns_witness :
  length (generateCommonSeatPatterns 40) = Z.to_nat 40
  ∧ generateCommonSeatPatterns 40
    = take (Z.to_nat 40) (concat commonPatterns)
      ++ ((λ n, "S" +:+ num_to_string n) <$> seqZ 37 (40 - 36)).
Proof. apply (proj1 common_seat_patterns 40); lia. Defined.

(** C3 as stated fails: from 55 seats on, the generic generator
    produces [A10], whose digits are not all between 1 and 9. *)
Lemma generic_seat_with_zero_digit :
  ¬ (∀ count, 1 ≤ count →
       ∀ seat, seat ∈ generateGenericSeatNumbers count →
               matches_row_nonzero_digits seat = true).
Proof.
  intros Hall. specialize (Hall 55 ltac:(lia) "A10").
  assert ("A10" ∈ generateGenericSeatNumbers 55) as Hin.
  { apply list_elem_of_lookup. exists 54%nat. by vm_compute. }
  specialize (Hall Hin). by vm_compute in Hall.
Qed.

(** C3, amended. For every [count >= 1] the generic generator returns
    exactly [count] pairwise distinct identifiers, each a row letter
    [A] to [F] followed by a positive decimal number without leading
    zero ([[A-F][1-9][0-9]*]); up to 54 seats every digit is between 1
    and 9 ([[A-F][1-9]+]). *)
Theorem generic_seats_distinct_and_well_formed count :
  1 ≤ count →
  length (generateGenericSeatNumbers count) = Z.to_nat count
  ∧ NoDup (generateGenericSeatNumbers count)
  ∧ (∀ seat, seat ∈ generateGenericSeatNumbers count →
             matches_row_number seat = true)
  ∧ (count ≤ 54 →
     ∀ seat, seat ∈ generateGenericSeatNumbers count →
             matches_row_nonzero_digits seat = true).
Proof.
  intros Hcount. rewrite generic_closed_form. split_and!.
  - apply positions_length.
  - apply NoDup_fmap_2_strong; [|apply NoDup_seqZ].
    intros i j [Hi _]%elem_of_seqZ [Hj _]%elem_of_seqZ.
    by apply generic_seat_inj.
  - intros seat (i & -> & [Hi _]%elem_of_seqZ)%list_elem_of_fmap.
    by apply generic_seat_well_formed.
  - intros Hsmall seat (i & -> & Hi%elem_of_seqZ)%list_elem_of_fmap.
    apply generic_seat_small_well_formed. lia.
Qed.

Lemma generic_seats_distinct_and_well_formed_witness :
  length (generateGenericSeatNumbers 60) = Z.to_nat 60
  ∧ NoDup (generateGenericSeatNumbers 60)
  ∧ (∀ seat, seat ∈ generateGenericSeatNumbers 60 →
             matches_row_number seat = true)
  ∧ (60 ≤ 54 →
     ∀ seat, seat ∈ generateGenericSeatNumbers 60 →
             matches_row_nonzero_digits seat = true).
Proof. apply (generic_seats_distinct_and_well_formed 60). lia. Defined.

(** C9. Both generators are total: for every count they return a list,
    of length [count] when [count] is not negative, and for count 0
    the empty list; a seat count of 0 is turned down before that, by
    the configuration loader. *)
Theorem generators_total :
  generateGenericSeatNumbers 0 = []
  ∧ generateCommonSeatPatterns 0 = []
  ∧ (∀ count,
       length (generateGenericSeatNumbers count) = Z.to_nat count
       ∧ length (generateCommonSeatPatterns count) = Z.to_nat count)
  ∧ (∀ env : gmap string string,
       env !! "NUMBER_OF_SEATS" = Some "0" →
       ∃ msg, Config.getBookingPreferences env = inl msg).
Proof.
  split_and!; [done..| |].
  - intros count. rewrite generic_closed_form, common_closed_form.
    split; apply positions_length.
  - intros env Hzero.
    apply (proj1 (ConfigFacts.nonpositive_count_rejected env "0" Hzero eq_refl eq_refl)).
Qed.

Lemma generators_total_witness :
  ∃ msg, Config.getBookingPreferences (Config.env_with_seats "0") = inl msg.
Proof.
  apply (proj2 (proj2 (proj2 generators_total)) (Config.env_with_seats "0")).
  reflexivity.
Defined.

(** C10. Both generators are prefix-coherent: for [m <= n] the result
    for [m] seats is the first [m] identifiers of the result for [n]
    seats. *)
Theorem generators_prefix_coherent m n :
  m ≤ n →
  generateGenericSeatNumbers m = take (Z.to_nat m) (generateGenericSeatNumbers n)
  ∧ generateCommonSeatPatterns m = take (Z.to_nat m) (generateCommonSeatPatterns n).
Proof.
  intros Hmn. rewrite !generic_closed_form, !common_closed_form.
  split; by apply positions_prefix.
Qed.

Lemma generators_prefix_coherent_witness :
  generateGenericSeatNumbers 4 = take (Z.to_nat 4) (generateGenericSeatNumbers 9)
  ∧ generateCommonSeatPatterns 4 = take (Z.to_nat 4) (generateCommonSeatPatterns 9).
Proof. apply (generators_prefix_coherent 4 9). lia. Defined.

End SeatFacts.

(** ** Password entry *)

Module LoginFacts.
Import Browser Login.

(** Case analysis on the next call of the page, on the characters
    typed, or on the length check, whichever the goal is stuck on. *)
Ltac flow_step pg :=
  match goal with
  | H : _ = _ |- _ => rewrite H; cbn
  | |- context [pg ?A ?c ?w] =>
      let r := fresh "r" in let w' := fresh "w" in
      destruct (pg A c w) as [[r|r] w'] eqn:?; cbn
  | |- context [typeCharByChar pg ?p ?st] =>
      let r := fresh "r" in let st' := fresh "st" in
      destruct (typeCharByChar pg p st) as [[r|r] st'] eqn:?; cbn
  | |- context [length_differs ?a ?b] =>
      destruct (length_differs a b) eqn:?; cbn
  end.

(** C6, amended. On the password field the test checks that the value
    read back has the expected length and escalates through the input
    methods in the order: simulated keystrokes ([pressSequentially]),
    direct set ([fill]), key by key typing on the keyboard, clipboard
    paste; it stops as soon as the length matches or the four methods
    are exhausted. *)
Theorem password_entry_escalates {W} (pg : page W) field password st :
  enterPassword pg field password st
  = escalate pg order_in_test field password st.
Proof.
  unfold enterPassword, escalate, order_in_test, escalate_further, attempt,
    apply_method, bind, ret, perform.
  cbn. repeat flow_step pg; reflexivity.
Qed.

(** C6 as stated fails: no escalation order that starts with the
    direct set describes the test.  On a form whose field drops [#]
    under key presses, the test first presses the keys and only then
    sets the value. *)
Lemma password_entry_not_direct_set_first :
  ¬ (∃ later, ∀ W (pg : page W) field password st,
       enterPassword pg field password st
       = escalate pg (ByFill :: later) field password st).
Proof.
  intros [later Hsame].
  specialize (Hsame _ hash_dropping_form (Locator "input") "a#b"
                (State (EmptyString, EmptyString) [])).
  apply (f_equal (λ r, methods_invoked (trace r.2))) in Hsame.
  destruct later; vm_compute in Hsame; discriminate.
Qed.

End LoginFacts.

(** ** Booking initiation *)

Module RealBookingFacts.
Import Browser RealBooking.

Section Rules.
Context {W : Type} (pg : page W).

Lemma calls_only_ret {A} (a : A) : calls_only (W := W) (ret a).
Proof. intros st. exists []. by rewrite app_nil_r. Qed.

Lemma calls_only_throw {A} e : calls_only (W := W) (A := A) (throw e).
Proof. intros st. exists []. by rewrite app_nil_r. Qed.

Lemma calls_only_perform {A} (c : call A) : calls_only (perform pg c).
Proof.
  intros st. exists [Called c]. unfold perform.
  destruct (pg A c (world st)). cbn. by repeat constructor.
Qed.

Lemma calls_only_bind {A B} (m : flow W A) (k : A → flow W B) :
  calls_only m → (∀ a, calls_only (k a)) → calls_only (bind m k).
Proof.
  intros Hm Hk st. unfold bind. destruct (Hm st) as (evs & Htr & Hevs).
  destruct (m st) as [[e|a] st1]; cbn in *; [by exists evs|].
  destruct (Hk a st1) as (evs' & Htr' & Hevs').
  exists (evs ++ evs'). rewrite Htr', Htr, app_assoc.
  split; [done|by apply Forall_app].
Qed.

Lemma calls_only_try_catch {A} (m : flow W A) (h : string → flow W A) :
  calls_only m → (∀ e, calls_only (h e)) → calls_only (try_catch m h).
Proof.
  intros Hm Hh st. unfold try_catch. destruct (Hm st) as (evs & Htr & Hevs).
  destruct (m st) as [[e|a] st1]; cbn in *; [|by exists evs].
  destruct (Hh e st1) as (evs' & Htr' & Hevs').
  exists (evs ++ evs'). rewrite Htr', Htr, app_assoc.
  split; [done|by apply Forall_app].
Qed.

Lemma throws_only_ret {A} P (a : A) : throws_only (W := W) P (ret a).
Proof. by intros st e. Qed.

Lemma throws_only_throw {A} (P : string → Prop) e :
  P e → throws_only (W := W) (A := A) P (throw e).
Proof. intros He st e' [= <-]. done. Qed.

Lemma throws_only_perform {A} P (c : call A) :
  never_rejects pg → throws_only P (perform pg c).
Proof.
  intros Hpg st e. unfold perform. destruct (Hpg A c (world st)) as [a Ha].
  destruct (pg A c (world st)) as [r w]. cbn in *. by subst r.
Qed.

Lemma throws_only_bind {A B} P (m : flow W A) (k : A → flow W B) :
  throws_only P m → (∀ a, throws_only P (k a)) → throws_only P (bind m k).
Proof.
  intros Hm Hk st e. unfold bind. specialize (Hm st).
  destruct (m st) as [[e'|a] st1]; cbn in *; [by intros [= <-]; apply Hm|].
  apply Hk.
Qed.

Lemma throws_only_try_catch {A} P (m : flow W A) (h : string → flow W A) :
  (∀ e, throws_only P (h e)) → throws_only P (try_catch m h).
Proof.
  intros Hh st e. unfold try_catch.
  destruct (m st) as [[e'|a] st1]; cbn; [apply Hh|done].
Qed.

End Rules.

(** Decompose a flow along its binds, branches and handlers. *)
Ltac flow_rules pg Hpg :=
  repeat first
    [ apply calls_only_ret | apply calls_only_throw | apply (calls_only_perform pg)
    | apply calls_only_bind | apply calls_only_try_catch
    | apply throws_only_ret | apply throws_only_throw; reflexivity
    | apply (throws_only_perform pg); exact Hpg
    | apply throws_only_bind | apply throws_only_try_catch
    | progress intros
    | match goal with |- context [if ?b then _ else _] => destruct b end ].

Section Stage.
Context {W : Type} (pg : page W) (trainName searchClass : string).

Lemma collectTexts_calls_only elements seen :
  calls_only (collectTexts pg elements seen).
Proof.
  revert seen. induction elements as [|element rest IH]; intros seen;
    cbn [collectTexts]; flow_rules pg I. apply IH.
Qed.

Lemma collectTexts_throws_only P elements seen :
  throws_only P (collectTexts pg elements seen).
Proof.
  revert seen. induction elements as [|element rest IH]; intros seen;
    cbn [collectTexts]; flow_rules pg I. apply IH.
Qed.

Lemma tryOtherClasses_calls_only classes :
  calls_only (tryOtherClasses pg classes).
Proof.
  induction classes as [|className rest IH];
    cbn [tryOtherClasses]; unfold clickToBook; flow_rules pg I. apply IH.
Qed.

Lemma tryOtherClasses_throws_only P classes :
  never_rejects pg → throws_only P (tryOtherClasses pg classes).
Proof.
  intros Hpg. induction classes as [|className rest IH];
    cbn [tryOtherClasses]; unfold clickToBook; flow_rules pg Hpg. apply IH.
Qed.

Lemma findAndBookTrain_calls_only :
  calls_only (findAndBookTrain pg trainName searchClass).
Proof.
  unfold findAndBookTrain, clickToBook. flow_rules pg I;
    first [apply collectTexts_calls_only | apply tryOtherClasses_calls_only].
Qed.

Lemma findAndBookTrain_throws_only :
  never_rejects pg →
  throws_only (λ e, e = no_booking_options)
              (findAndBookTrain pg trainName searchClass).
Proof.
  intros Hpg. unfold findAndBookTrain, clickToBook. flow_rules pg Hpg;
    first [apply collectTexts_throws_only | by apply tryOtherClasses_throws_only].
Qed.

End Stage.

(** C7. In the real booking flow, when the booking-initiation stage
    does not end with [bookingInitiated] true, the run ends in an
    error, neither [handleCoachSelection] nor [handleSeatSelection]
    is entered, and, unless a page call itself rejects, the error is
    one of the two messages of that stage. *)
Theorem failed_initiation_halts_run {W} (pg : page W)
    (trainName searchClass : string) (coach seat : flow W unit) st :
  (findAndBookTrain pg trainName searchClass st).1 ≠ inr true →
  let run := bookFromSearchResults pg trainName searchClass coach seat st in
  (∃ error, run.1 = inl error)
  ∧ (∃ evs, trace run.2 = trace st ++ evs
            ∧ (Entered HandleCoachSelection ∉ evs)
            ∧ (Entered HandleSeatSelection ∉ evs))
  ∧ (never_rejects pg →
     run.1 = inl could_not_initiate ∨ run.1 = inl no_booking_options).
Proof.
  intros Hstage run.
  destruct (findAndBookTrain_calls_only pg trainName searchClass st)
    as (evs & Htr & Hevs).
  pose proof (findAndBookTrain_throws_only pg trainName searchClass) as Hthrows.
  assert (∀ ev : event, is_entered ev = true →
            ev ∉ evs ++ [Called (Screenshot "real-booking-error.png" true)])
    as Hnone.
  { intros ev Hev [Hin|Hin%list_elem_of_singleton]%elem_of_app.
    - rewrite Forall_forall in Hevs. apply Hevs in Hin. congruence.
    - by subst ev. }
  assert (∃ e, (e = could_not_initiate
                ∨ (findAndBookTrain pg trainName searchClass st).1 = inl e)
               ∧ run = bind (perform pg (Screenshot "real-booking-error.png" true))
                            (λ _, throw e)
                            (findAndBookTrain pg trainName searchClass st).2)
    as (e & He & Hrun).
  { subst run. unfold bookFromSearchResults, try_catch, bind at 1.
    destruct (findAndBookTrain pg trainName searchClass st) as [[e|[]] st1];
      cbn in *; [by eauto|done|by eauto]. }
  clearbody run. subst run. unfold bind, perform, throw. cbn.
  destruct (pg unit (Screenshot "real-booking-error.png" true) _)
    as [[e'|[]] w] eqn:Hshot; cbn; rewrite Htr.
  - split_and!; [by eauto|exists (evs ++ [Called (Screenshot "real-booking-error.png" true)])|].
    + rewrite app_assoc. split_and!; [done|by apply Hnone..].
    + intros Hpg. destruct (Hpg _ (Screenshot "real-booking-error.png" true)
                              (world (findAndBookTrain pg trainName searchClass st).2))
        as [a Ha].
      rewrite Hshot in Ha. done.
  - split_and!; [by eauto|exists (evs ++ [Called (Screenshot "real-booking-error.png" true)])|].
    + rewrite app_assoc. split_and!; [done|by apply Hnone..].
    + intros Hpg. destruct He as [->|He]; [by left|right].
      by rewrite (Hthrows Hpg st e He).
Qed.

Lemma failed_initiation_halts_run_witness :
  let run := bookFromSearchResults class_sold_out "SUBORNO EXPRESS" "S_CHAIR"
               (ret ()) (ret ()) (State 0%nat []) in
  (∃ error, run.1 = inl error)
  ∧ (∃ evs, trace run.2 = trace (State 0%nat []) ++ evs
            ∧ (Entered HandleCoachSelection ∉ evs)
            ∧ (Entered HandleSeatSelection ∉ evs))
  ∧ (never_rejects class_sold_out →
     run.1 = inl could_not_initiate ∨ run.1 = inl no_booking_options).
Proof.
  apply (failed_initiation_halts_run class_sold_out "SUBORNO EXPRESS" "S_CHAIR"
           (ret ()) (ret ()) (State 0%nat [])).
  vm_compute. discriminate.
Defined.

End RealBookingFacts.

(** ** Waiting for the OTP *)

Module OtpWaitFacts.
Import Browser OtpWait.

Section Simulated.
Context (s : script).

Lemma firstVisible_simulated indicators t tr :
  ∃ tr', firstVisible (simulated s) indicators (State t tr)
         = (inr (signal s indicators t), State t tr').
Proof.
  revert tr. induction indicators as [|indicator rest IH]; intros tr.
  - by eexists.
  - cbn. unfold bind, perform. cbn.
    destruct (shows s (Locator indicator) t); [by eexists|]. apply IH.
Qed.

(** One iteration of the loop of [handleSeatSelection]. *)

Lemma seat_poll_quiet fuel t0 t tr :
  t - t0 < seatMaxWaitTime → signal s seatSuccessIndicators t = None →
  ∃ tr', seatWaitLoop (simulated s) (S fuel) t0 (State t tr)
         = seatWaitLoop (simulated s) fuel t0 (State (t + pollInterval) tr').
Proof.
  intros Hin Hquiet. cbn [seatWaitLoop]. unfold bind at 1, perform at 1.
  cbn -[firstVisible seatWaitLoop Z.ltb Z.sub].
  rewrite (proj2 (Z.ltb_lt _ _) Hin). unfold bind at 1.
  destruct (firstVisible_simulated seatSuccessIndicators t
              (tr ++ [Called DateNow])) as [tr1 ->].
  rewrite Hquiet. unfold bind, perform. cbn. by eexists.
Qed.

Lemma seat_poll_signalled fuel t0 t tr indicator :
  t - t0 < seatMaxWaitTime →
  signal s seatSuccessIndicators t = Some indicator →
  ending (seatWaitLoop (simulated s) (S fuel) t0 (State t tr))
  = (inr (Succeeded indicator), t).
Proof.
  intros Hin Hfound. cbn [seatWaitLoop]. unfold bind at 1, perform at 1.
  cbn -[firstVisible seatWaitLoop Z.ltb Z.sub].
  rewrite (proj2 (Z.ltb_lt _ _) Hin). unfold bind at 1.
  destruct (firstVisible_simulated seatSuccessIndicators t
              (tr ++ [Called DateNow])) as [tr1 ->].
  by rewrite Hfound.
Qed.

Lemma seat_poll_late fuel t0 t tr :
  seatMaxWaitTime ≤ t - t0 →
  ending (seatWaitLoop (simulated s) (S fuel) t0 (State t tr)) = (inr TimedOut, t).
Proof.
  intros Hout. cbn [seatWaitLoop]. unfold bind at 1, perform at 1.
  cbn -[firstVisible seatWaitLoop Z.ltb Z.sub].
  by rewrite (proj2 (Z.ltb_ge _ _) Hout).
Qed.

Lemma poll_time_S t0 k : poll_time t0 (S k) = poll_time t0 k + pollInterval.
Proof. unfold poll_time, pollInterval. lia. Qed.

Lemma seat_quiet_polls n fuel t0 j tr :
  pollInterval * Z.of_nat (j + n) ≤ seatMaxWaitTime →
  (∀ k, (j ≤ k < j + n)%nat →
        signal s seatSuccessIndicators (poll_time t0 k) = None) →
  ∃ tr', seatWaitLoop (simulated s) (n + fuel) t0 (State (poll_time t0 j) tr)
         = seatWaitLoop (simulated s) fuel t0 (State (poll_time t0 (j + n)) tr').
Proof.
  revert j tr. induction n as [|n IH]; intros j tr Hin Hquiet.
  - rewrite Nat.add_0_r. by eexists.
  - destruct (seat_poll_quiet (n + fuel) t0 (poll_time t0 j) tr) as [tr1 Hstep].
    { unfold poll_time, pollInterval in *. lia. }
    { apply Hquiet. lia. }
    change (S n + fuel)%nat with (S (n + fuel)). rewrite Hstep, <- poll_time_S.
    destruct (IH (S j) tr1) as [tr2 Hrest].
    { by replace (S j + n)%nat with (j + S n)%nat by lia. }
    { intros k Hk. apply Hquiet. lia. }
    rewrite Hrest. replace (S j + n)%nat with (j + S n)%nat by lia. by eexists.
Qed.

Lemma seatOtpWait_start fuel t0 tr :
  seatOtpWait (simulated s) fuel (State t0 tr)
  = seatWaitLoop (simulated s) fuel t0 (State (poll_time t0 0) (tr ++ [Called DateNow])).
Proof.
  unfold seatOtpWait, bind, perform, poll_time, pollInterval. cbn.
  by rewrite Z.add_0_r.
Qed.

(** One iteration of the loop of [handlePaymentAndOTP]. *)

Lemma payment_poll_head fuel t0 t tr :
  t - t0 < paymentMaxWaitTime →
  ∃ tr',
    paymentWaitLoop (simulated s) (S fuel) t0 (State t tr)
    = if otp_page_up s t then
        bind (firstVisible (simulated s) paymentSuccessIndicators)
          (λ found,
             match found with
             | Some indicator =>
                 bind (perform (simulated s) (Screenshot "booking-success.png" true))
                      (λ _, ret (Succeeded indicator))
             | None =>
                 bind (perform (simulated s) (WaitForTimeout pollInterval))
                      (λ _, paymentWaitLoop (simulated s) fuel t0)
             end)
          (State t tr')
      else (inr OtpEntered, State t tr').
Proof.
  intros Hin. cbn [paymentWaitLoop]. unfold bind at 1, perform at 1.
  cbn -[firstVisible paymentWaitLoop Z.ltb Z.sub includes].
  rewrite (proj2 (Z.ltb_lt _ _) Hin). unfold bind at 1, perform at 1.
  cbn -[firstVisible paymentWaitLoop includes]. unfold bind at 1.
  unfold otp_page_up.
  destruct (includes "otp" (address s t)).
  - cbn -[firstVisible paymentWaitLoop]. by eexists.
  - unfold bind at 1, perform at 1. cbn -[firstVisible paymentWaitLoop].
    destruct (shows s otpField t); cbn -[firstVisible paymentWaitLoop];
      by eexists.
Qed.

Lemma payment_poll_quiet fuel t0 t tr :
  t - t0 < paymentMaxWaitTime → otp_page_up s t = true →
  signal s paymentSuccessIndicators t = None →
  ∃ tr', paymentWaitLoop (simulated s) (S fuel) t0 (State t tr)
         = paymentWaitLoop (simulated s) fuel t0 (State (t + pollInterval) tr').
Proof.
  intros Hin Hup Hquiet.
  destruct (payment_poll_head fuel t0 t tr Hin) as [tr1 ->]. rewrite Hup.
  unfold bind at 1.
  destruct (firstVisible_simulated paymentSuccessIndicators t tr1) as [tr2 ->].
  rewrite Hquiet. unfold bind, perform. cbn -[paymentWaitLoop]. by eexists.
Qed.

Lemma payment_poll_signalled fuel t0 t tr indicator :
  t - t0 < paymentMaxWaitTime → otp_page_up s t = true →
  signal s paymentSuccessIndicators t = Some indicator →
  ending (paymentWaitLoop (simulated s) (S fuel) t0 (State t tr))
  = (inr (Succeeded indicator), t).
Proof.
  intros Hin Hup Hfound.
  destruct (payment_poll_head fuel t0 t tr Hin) as [tr1 ->]. rewrite Hup.
  unfold bind at 1.
  destruct (firstVisible_simulated paymentSuccessIndicators t tr1) as [tr2 ->].
  by rewrite Hfound.
Qed.

Lemma payment_poll_left fuel t0 t tr :
  t - t0 < paymentMaxWaitTime → otp_page_up s t = false →
  ending (paymentWaitLoop (simulated s) (S fuel) t0 (State t tr))
  = (inr OtpEntered, t).
Proof.
  intros Hin Hup.
  destruct (payment_poll_head fuel t0 t tr Hin) as [tr1 ->]. by rewrite Hup.
Qed.

Lemma payment_poll_late fuel t0 t tr :
  paymentMaxWaitTime ≤ t - t0 →
  ending (paymentWaitLoop (simulated s) (S fuel) t0 (State t tr))
  = (inr TimedOut, t).
Proof.
  intros Hout. cbn [paymentWaitLoop]. unfold bind at 1, perform at 1.
  cbn -[firstVisible paymentWaitLoop Z.ltb Z.sub includes].
  by rewrite (proj2 (Z.ltb_ge _ _) Hout).
Qed.

Lemma payment_quiet_polls n fuel t0 j tr :
  pollInterval * Z.of_nat (j + n) ≤ paymentMaxWaitTime →
  (∀ k, (j ≤ k < j + n)%nat →
        otp_page_up s (poll_time t0 k) = true
        ∧ signal s paymentSuccessIndicators (poll_time t0 k) = None) →
  ∃ tr', paymentWaitLoop (simulated s) (n + fuel) t0 (State (poll_time t0 j) tr)
         = paymentWaitLoop (simulated s) fuel t0 (State (poll_time t0 (j + n)) tr').
Proof.
  revert j tr. induction n as [|n IH]; intros j tr Hin Hquiet.
  - rewrite Nat.add_0_r. by eexists.
  - destruct (Hquiet j ltac:(lia)) as [Hup Hnone].
    destruct (payment_poll_quiet (n + fuel) t0 (poll_time t0 j) tr)
      as [tr1 Hstep]; [|done|done|].
    { unfold poll_time, pollInterval in *. lia. }
    change (S n + fuel)%nat with (S (n + fuel)). rewrite Hstep, <- poll_time_S.
    destruct (IH (S j) tr1) as [tr2 Hrest].
    { by replace (S j + n)%nat with (j + S n)%nat by lia. }
    { intros k Hk. apply Hquiet. lia. }
    rewrite Hrest. replace (S j + n)%nat with (j + S n)%nat by lia. by eexists.
Qed.

Lemma paymentOtpWait_start fuel t0 tr :
  paymentOtpWait (simulated s) fuel (State t0 tr)
  = paymentWaitLoop (simulated s) fuel t0
      (State (poll_time t0 0) (tr ++ [Called DateNow])).
Proof.
  unfold paymentOtpWait, bind, perform, poll_time, pollInterval. cbn.
  by rewrite Z.add_0_r.
Qed.

End Simulated.

(** C8 as stated fails for [handlePaymentAndOTP]: with no success
    indicator ever visible, its loop still ends before the maximum
    wait, as soon as the address no longer mentions [otp] and the OTP
    field is gone. *)
Lemma payment_wait_ends_early_without_signal :
  ¬ (∀ (s : script) t0 tr fuel,
       (150 < fuel)%nat →
       (∀ k, signal s paymentSuccessIndicators (poll_time t0 k) = None) →
       ending (paymentOtpWait (simulated s) fuel (State t0 tr))
       = (inr TimedOut, t0 + paymentMaxWaitTime)).
Proof.
  intros Hstops.
  specialize (Hstops silent_departure 0 [] 200%nat ltac:(lia) (λ _, eq_refl)).
  vm_compute in Hstops. discriminate.
Qed.

(** C8, amended. On a simulated page, polled every 2 seconds from the
    moment the OTP page is reached.  In [handleSeatSelection]: if the
    first success indicator shows at the poll after [n] intervals, with
    [n * 2s] below the maximum wait of 10 minutes, the wait ends then,
    reporting that indicator.  In [handlePaymentAndOTP], with a maximum
    wait of 5 minutes, each poll first tests whether the OTP page has
    been left (the address no longer mentions [otp] and the OTP field
    is not visible): the wait ends at the first such poll without
    reporting success, whether or not a success indicator shows then;
    while the OTP page is still up, it ends at the first poll where a
    success indicator shows, reporting it.  A wait that none of these
    ends stops at the maximum wait. *)
Theorem otp_wait_polling (s : script) (t0 : Z) (tr : list event) :
  (∀ n indicator fuel,
     pollInterval * Z.of_nat n < seatMaxWaitTime → (n < fuel)%nat →
     (∀ k, (k < n)%nat → signal s seatSuccessIndicators (poll_time t0 k) = None) →
     signal s seatSuccessIndicators (poll_time t0 n) = Some indicator →
     ending (seatOtpWait (simulated s) fuel (State t0 tr))
     = (inr (Succeeded indicator), poll_time t0 n))
  ∧ (∀ fuel,
       (300 < fuel)%nat →
       (∀ k, (k < 300)%nat →
             signal s seatSuccessIndicators (poll_time t0 k) = None) →
       ending (seatOtpWait (simulated s) fuel (State t0 tr))
       = (inr TimedOut, t0 + seatMaxWaitTime))
  ∧ (∀ n indicator fuel,
       pollInterval * Z.of_nat n < paymentMaxWaitTime → (n < fuel)%nat →
       (∀ k, (k < n)%nat →
             otp_page_up s (poll_time t0 k) = true
             ∧ signal s paymentSuccessIndicators (poll_time t0 k) = None) →
       otp_page_up s (poll_time t0 n) = true →
       signal s paymentSuccessIndicators (poll_time t0 n) = Some indicator →
       ending (paymentOtpWait (simulated s) fuel (State t0 tr))
       = (inr (Succeeded indicator), poll_time t0 n))
  ∧ (∀ n fuel,
       pollInterval * Z.of_nat n < paymentMaxWaitTime → (n < fuel)%nat →
       (∀ k, (k < n)%nat →
             otp_page_up s (poll_time t0 k) = true
             ∧ signal s paymentSuccessIndicators (poll_time t0 k) = None) →
       otp_page_up s (poll_time t0 n) = false →
       ending (paymentOtpWait (simulated s) fuel (State t0 tr))
       = (inr OtpEntered, poll_time t0 n))
  ∧ (∀ fuel,
       (150 < fuel)%nat →
       (∀ k, (k < 150)%nat →
             otp_page_up s (poll_time t0 k) = true
             ∧ signal s paymentSuccessIndicators (poll_time t0 k) = None) →
       ending (paymentOtpWait (simulated s) fuel (State t0 tr))
       = (inr TimedOut, t0 + paymentMaxWaitTime)).
Proof.
  assert (∀ n, poll_time t0 n - t0 = pollInterval * Z.of_nat n) as Helapsed
    by (intros n; unfold poll_time; lia).
  split_and!.
  - intros n indicator fuel Hin Hfuel Hquiet Hfound. rewrite seatOtpWait_start.
    replace fuel with (n + S (fuel - n - 1))%nat by lia.
    destruct (seat_quiet_polls s n (S (fuel - n - 1)) t0 0 (tr ++ [Called DateNow]))
      as [tr' ->]; [cbn [Nat.add]; lia|intros k Hk; apply Hquiet; lia|].
    apply seat_poll_signalled; [by rewrite Helapsed|done].
  - intros fuel Hfuel Hquiet. rewrite seatOtpWait_start.
    replace fuel with (300 + S (fuel - 301))%nat by lia.
    destruct (seat_quiet_polls s 300 (S (fuel - 301)) t0 0 (tr ++ [Called DateNow]))
      as [tr' ->]; [by vm_compute|intros k Hk; apply Hquiet; lia|].
    rewrite seat_poll_late by (rewrite Helapsed; by vm_compute).
    reflexivity.
  - intros n indicator fuel Hin Hfuel Hquiet Hup Hfound.
    rewrite paymentOtpWait_start.
    replace fuel with (n + S (fuel - n - 1))%nat by lia.
    destruct (payment_quiet_polls s n (S (fuel - n - 1)) t0 0 (tr ++ [Called DateNow]))
      as [tr' ->]; [cbn [Nat.add]; lia|intros k Hk; apply Hquiet; lia|].
    apply payment_poll_signalled; [by rewrite Helapsed|done..].
  - intros n fuel Hin Hfuel Hquiet Hleft. rewrite paymentOtpWait_start.
    replace fuel with (n + S (fuel - n - 1))%nat by lia.
    destruct (payment_quiet_polls s n (S (fuel - n - 1)) t0 0 (tr ++ [Called DateNow]))
      as [tr' ->]; [cbn [Nat.add]; lia|intros k Hk; apply Hquiet; lia|].
    apply payment_poll_left; [by rewrite Helapsed|done].
  - intros fuel Hfuel Hquiet. rewrite paymentOtpWait_start.
    replace fuel with (150 + S (fuel - 151))%nat by lia.
    destruct (payment_quiet_polls s 150 (S (fuel - 151)) t0 0 (tr ++ [Called DateNow]))
      as [tr' ->]; [by vm_compute|intros k Hk; apply Hquiet; lia|].
    rewrite payment_poll_late by (rewrite Helapsed; by vm_compute).
    reflexivity.
Qed.

Lemma otp_wait_polling_witness :
  ending (seatOtpWait (simulated confirmed_after_6s) 400 (State 0 []))
  = (inr (Succeeded "text=Confirmed"), poll_time 0 3)
  ∧ ending (paymentOtpWait (simulated confirmed_after_6s) 200 (State 0 []))
    = (inr (Succeeded "text=Confirmed"), poll_time 0 3)
  ∧ ending (paymentOtpWait (simulated silent_departure) 200 (State 0 []))
    = (inr OtpEntered, poll_time 0 0)
  ∧ ending (paymentOtpWait (simulated success_on_departure) 200 (State 0 []))
    = (inr OtpEntered, poll_time 0 3)
  ∧ ending (seatOtpWait (simulated success_on_departure) 400 (State 0 []))
    = (inr (Succeeded "text=Success"), poll_time 0 3).
Proof.
  split_and!.
  - apply (proj1 (otp_wait_polling confirmed_after_6s 0 []) 3%nat "text=Confirmed" 400%nat).
    + vm_compute. reflexivity.
    + lia.
    + intros k Hk. destruct k as [|[|[|k]]]; [reflexivity..|lia].
    + reflexivity.
  - apply (proj1 (proj2 (proj2 (otp_wait_polling confirmed_after_6s 0 [])))
             3%nat "text=Confirmed" 200%nat).
    + vm_compute. reflexivity.
    + lia.
    + intros k Hk. destruct k as [|[|[|k]]]; [by split..|lia].
    + reflexivity.
    + reflexivity.
  - apply (proj1 (proj2 (proj2 (proj2 (otp_wait_polling silent_departure 0 []))))
             0%nat 200%nat).
    + vm_compute. reflexivity.
    + lia.
    + intros k Hk. lia.
    + reflexivity.
  - apply (proj1 (proj2 (proj2 (proj2 (otp_wait_polling success_on_departure 0 []))))
             3%nat 200%nat).
    + vm_compute. reflexivity.
    + lia.
    + intros k Hk. destruct k as [|[|[|k]]]; [by split..|lia].
    + reflexivity.
  - apply (proj1 (otp_wait_polling success_on_departure 0 []) 3%nat "text=Success"
             400%nat).
    + vm_compute. reflexivity.
    + lia.
    + intros k Hk. destruct k as [|[|[|k]]]; [reflexivity..|lia].
    + reflexivity.
Defined.

End OtpWaitFacts.

(** ** More on the configuration loaders *)

Module LoaderFacts.
Import JS Config SearchConfig.

(** *** Numerals read back by [parseInt] *)

Lemma digit_value_pretty_char k :
  (k < 10)%N → digit_value 10 (pretty_N_char k) = Some (Z.of_N k).
Proof.
  intros Hk.
  assert (k = 0 ∨ k = 1 ∨ k = 2 ∨ k = 3 ∨ k = 4 ∨ k = 5 ∨ k = 6
          ∨ k = 7 ∨ k = 8 ∨ k = 9)%N
    as [->|[->|[->|[->|[->|[->|[->|[->|[->| ->]]]]]]]]] by lia; reflexivity.
Qed.

Lemma parse_digits_numeral x s :
  (0 < x)%N →
  parse_digits 10 None (pretty_N_go x s) = parse_digits 10 (Some (Z.of_N x)) s.
Proof.
  revert s. induction (N.lt_wf_0 x) as [x _ IH]; intros s Hx.
  rewrite pretty_N_go_step by done.
  pose proof (N.mod_lt x 10 ltac:(done)) as Hmod.
  destruct (decide (x < 10)%N) as [Hsmall|Hbig].
  - rewrite N.div_small, N.mod_small, pretty_N_go_0 by done.
    cbn [parse_digits]. rewrite digit_value_pretty_char by done.
    cbn [default from_option id]. do 2 f_equal; lia.
  - rewrite IH by (first [apply N.div_lt; lia | apply N.div_str_pos; lia]).
    cbn [parse_digits]. rewrite digit_value_pretty_char by done.
    cbn [default from_option id]. do 2 f_equal.
    rewrite (N.div_mod x 10) at 3 by done. lia.
Qed.

Lemma pretty_N_go_append x s t : pretty_N_go x s +:+ t = pretty_N_go x (s +:+ t).
Proof.
  revert s. induction (N.lt_wf_0 x) as [x _ IH]; intros s.
  destruct (decide (0 < x)%N) as [Hx|Hx].
  - rewrite (pretty_N_go_step x s), (pretty_N_go_step x (s +:+ t)) by done.
    by rewrite IH by (apply N.div_lt; lia).
  - replace x with 0%N by lia. by rewrite !pretty_N_go_0.
Qed.

Lemma digit_value_non_digit c :
  Seats.is_digit c = false → digit_value 10 c = None.
Proof.
  unfold Seats.is_digit, digit_value. intros Hc.
  set (n := N_of_ascii c) in *.
  assert (n < 48 ∨ 57 < n)%N as Hn.
  { apply andb_false_iff in Hc as [Hc%N.leb_gt|Hc%N.leb_gt]; lia. }
  destruct (Z.leb_spec 48 (Z.of_N n)), (Z.leb_spec (Z.of_N n) 57); try lia;
    cbn [andb];
    destruct (Z.leb_spec 97 (Z.of_N n)), (Z.leb_spec (Z.of_N n) 122);
    cbn [andb];
    destruct (Z.leb_spec 65 (Z.of_N n)), (Z.leb_spec (Z.of_N n) 90);
    cbn [andb]; try done;
    by rewrite (proj2 (Z.ltb_ge _ 10)) by lia.
Qed.

Lemma parse_digits_stops m rest :
  ends_numeral rest = true → parse_digits 10 (Some m) rest = Some m.
Proof.
  destruct rest as [|c rest]; [done|]. cbn [ends_numeral parse_digits].
  intros Hc%negb_true_iff. by rewrite digit_value_non_digit.
Qed.

(** Integers up to 2^53 are doubles. *)
Lemma to_double_exact m : 0 ≤ m ≤ 2 ^ 53 → to_double m = m.
Proof.
  intros Hm. destruct (decide (m = 2 ^ 53)) as [->|Hne]; [by vm_compute|].
  unfold to_double. destruct (decide (m = 0)) as [->|Hpos]; [done|].
  assert (Z.log2 m < 53) as Hlog by (apply Z.log2_lt_pow2; lia).
  by rewrite (proj2 (Z.leb_le (Z.log2 m - 52) 0)) by lia.
Qed.

Lemma to_double_nonneg m : 0 ≤ m → 0 ≤ to_double m.
Proof.
  intros Hm. unfold to_double. destruct (_ <=? 0) eqn:He; [done|].
  apply Z.leb_gt in He.
  assert (0 < 2 ^ (Z.log2 m - 52)) by (apply Z.pow_pos_nonneg; lia).
  assert (0 ≤ m `div` 2 ^ (Z.log2 m - 52)) by (apply Z.div_pos; lia).
  destruct (_ || _); nia.
Qed.

(** Beyond 2^53 the numeral is rounded, and white space outside ASCII
    is skipped like a blank: a no-break space, bytes 194 and 160,
    before [5]. *)
Lemma parseInt_rounds_and_trims :
  parseInt "9007199254740993" = Int 9007199254740992
  ∧ parseInt (String "194" (String "160" "5")) = Int 5
  ∧ no_overflow (parseInt ("1" +:+ String.concat "" (replicate 399 "0"))) = false.
Proof. by vm_compute. Qed.

(** A text that starts with a digit from 1 to 9 is read in radix 10
    from its first character. *)
Lemma parseInt_from_digit d r :
  Seats.is_digit_1_9 d = true →
  parseInt (String d r)
  = match parse_digits 10 None (String d r) with
    | Some m => Int (1 * to_double m)
    | None => NaN
    end.
Proof.
  destruct d as [[] [] [] [] [] [] [] []]; intros Hd;
    first [discriminate Hd | reflexivity].
Qed.

Lemma parseInt_positive_numeral n rest :
  0 < n ≤ 2 ^ 53 → ends_numeral rest = true →
  parseInt (num_to_string n +:+ rest) = Int n.
Proof.
  intros Hn Hrest. rewrite <- (to_double_exact n) at 2 by lia.
  destruct n as [|p|p]; [lia| |lia].
  unfold num_to_string, pretty, pretty_Z, pretty, pretty_positive, pretty, pretty_N.
  rewrite decide_False by done. rewrite pretty_N_go_append.
  change (EmptyString +:+ rest) with rest.
  destruct (SeatFacts.pretty_N_go_digits (N.pos p) rest) as (d & ds & Hshape & Hd & _);
    [lia|].
  rewrite Hshape, parseInt_from_digit, <- Hshape by done.
  rewrite parse_digits_numeral, parse_digits_stops by done.
  cbn [Z.of_N]. f_equal. lia.
Qed.

Lemma parseInt_nonpositive_numeral n :
  n ≤ 0 → ∃ m, parseInt (num_to_string n) = Int m ∧ m ≤ 0.
Proof.
  intros Hn. destruct n as [|p|p]; [by exists 0|lia|].
  exists (-1 * to_double (Z.pos p)).
  split; [|pose proof (to_double_nonneg (Z.pos p)); lia].
  unfold num_to_string, pretty, pretty_Z, pretty, pretty_positive, pretty, pretty_N.
  rewrite decide_False by done.
  change ("-" +:+ pretty_N_go (N.pos p) EmptyString)
    with (String "-" (pretty_N_go (N.pos p) EmptyString)).
  destruct (SeatFacts.pretty_N_go_digits (N.pos p) EmptyString)
    as (d & ds & Hshape & Hd & _); [lia|].
  assert (parseInt (String "-" (pretty_N_go (N.pos p) EmptyString))
          = match parse_digits 10 None (pretty_N_go (N.pos p) EmptyString) with
            | Some m => Int (-1 * to_double m)
            | None => NaN
            end) as ->.
  { rewrite Hshape. clear Hshape.
    destruct d as [[] [] [] [] [] [] [] []];
      first [discriminate Hd | reflexivity]. }
  rewrite parse_digits_numeral by lia. cbn [parse_digits]. f_equal.
Qed.

Lemma numeral_truthy n rest : truthy (Some (num_to_string n +:+ rest)) = true.
Proof.
  destruct n as [|p|p]; [done| |done].
  destruct (SeatFacts.num_to_string_positive (Z.pos p)) as (d & ds & -> & _); done.
Qed.

(** X1. A seat count written as a positive decimal numeral of at most
    2^53, the range in which every integer is a double, is read as that
    number, also when other text follows the numeral ([2 seats],
    [1.5]): with train name and preferred seats set, the loader returns
    the preferences with that seat count.  A numeral that is zero or
    negative, of any size, is turned down with the seat-count
    message. *)
Theorem loader_reads_decimal_count (env : gmap string string) n :
  truthy (env !! "TRAIN_NAME") = true →
  truthy (env !! "PREFERRED_SEATS") = true →
  (∀ rest,
     0 < n ≤ 2 ^ 53 → ends_numeral rest = true →
     env !! "NUMBER_OF_SEATS" = Some (num_to_string n +:+ rest) →
     getBookingPreferences env
     = inr {| trainName := env !! "TRAIN_NAME";
              preferredSeats :=
                split "," (default EmptyString (env !! "PREFERRED_SEATS"));
              numberOfSeats := Int n |})
  ∧ (n ≤ 0 →
     env !! "NUMBER_OF_SEATS" = Some (num_to_string n) →
     getBookingPreferences env = inl seats_not_positive).
Proof.
  intros Htrain Hseats. split.
  - intros rest Hn Hrest Hcount. unfold getBookingPreferences.
    cbn [trainName numberOfSeats]. rewrite Htrain, Hseats, Hcount.
    change (default EmptyString (Some (num_to_string n +:+ rest)))
      with (num_to_string n +:+ rest).
    rewrite numeral_truthy, parseInt_positive_numeral by done. cbn.
    by rewrite (proj2 (Z.leb_gt n 0)) by lia.
  - intros Hn Hcount.
    destruct (parseInt_nonpositive_numeral n Hn) as (m & Hm & Hle).
    apply (ConfigFacts.nonpositive_count_rejected env (num_to_string n)); try done.
    + rewrite <- (SeatFacts.append_empty_r (num_to_string n)). apply numeral_truthy.
    + rewrite Hm. cbn. by apply Z.leb_le.
Qed.

Lemma loader_reads_decimal_count_witness :
  getBookingPreferences (env_with_seats "3 seats")
  = inr {| trainName := Some "SUBORNO EXPRESS";
           preferredSeats := ["A1"; "B2"];
           numberOfSeats := Int 3 |}
  ∧ getBookingPreferences (env_with_seats "-12") = inl seats_not_positive.
Proof.
  split.
  - apply (proj1 (loader_reads_decimal_count (env_with_seats "3 seats") 3
                    eq_refl eq_refl) " seats"); [lia|reflexivity|reflexivity].
  - apply (proj2 (loader_reads_decimal_count (env_with_seats "-12") (-12)
                    eq_refl eq_refl)); [lia|reflexivity].
Defined.

(** *** Splitting and joining *)

Lemma split_not_empty c s : split c s ≠ [].
Proof.
  destruct s as [|a s]; [done|]. cbn.
  destruct (Ascii.eqb a c); [done|]. by destruct (split c s).
Qed.

Lemma join_cons sep piece rest :
  rest ≠ [] → join sep (piece :: rest) = piece +:+ sep +:+ join sep rest.
Proof. by destruct rest. Qed.

Lemma join_split c s : join (String c EmptyString) (split c s) = s.
Proof.
  induction s as [|a s IH]; [done|]. cbn [split].
  destruct (Ascii.eqb_spec a c) as [->|Hne].
  - rewrite join_cons by apply split_not_empty. by rewrite IH.
  - pose proof (split_not_empty c s) as Hs.
    destruct (split c s) as [|piece pieces]; [done|].
    destruct pieces as [|piece' pieces].
    + cbn in *. by rewrite IH.
    + rewrite join_cons in * by done.
      rewrite SeatFacts.append_cons. by rewrite IH.
Qed.

Lemma split_pieces_free c s : Forall (λ piece, free_of c piece = true) (split c s).
Proof.
  induction s as [|a s IH]; [by repeat constructor|]. cbn [split].
  destruct (Ascii.eqb a c) eqn:Hac; [by constructor|].
  destruct (split c s) as [|piece pieces]; [by repeat constructor; cbn; rewrite Hac|].
  inversion_clear IH as [|?? Hpiece Hpieces]. constructor; [|done].
  cbn. by rewrite Hac, Hpiece.
Qed.

(** X2. Whenever the loader returns preferences: the train name is a
    non-empty text; the preferred seats are a non-empty list of
    comma-free pieces which, joined by commas, give back
    [PREFERRED_SEATS]; the seat count is never zero or negative; and,
    unless its numeral is too large for a double (the code then has
    [Infinity]), the seat count is [NaN] or a positive integer. *)
Theorem loader_result_well_formed (env : gmap string string) prefs :
  getBookingPreferences env = inr prefs →
  (∃ name, trainName prefs = Some name ∧ name ≠ EmptyString)
  ∧ (∃ seats, env !! "PREFERRED_SEATS" = Some seats
              ∧ join "," (preferredSeats prefs) = seats
              ∧ preferredSeats prefs ≠ []
              ∧ Forall (λ piece, free_of "," piece = true) (preferredSeats prefs))
  ∧ le_zero (numberOfSeats prefs) = false
  ∧ (no_overflow (numberOfSeats prefs) = true →
     numberOfSeats prefs = NaN
     ∨ ∃ n, numberOfSeats prefs = Int n ∧ 0 < n < 2 ^ 1024).
Proof.
  unfold getBookingPreferences. cbn [trainName numberOfSeats].
  destruct (env !! "TRAIN_NAME") as [[|c name]|] eqn:Htrain; try done.
  destruct (env !! "PREFERRED_SEATS") as [[|c' seats]|] eqn:Hseats; try done.
  destruct (truthy (env !! "NUMBER_OF_SEATS")) eqn:Hcount; [|done].
  cbn -[split parseInt].
  destruct (le_zero _) eqn:Hlow; [done|]. intros [= <-].
  cbn -[split parseInt join]. split_and!.
  - by eexists.
  - exact (ex_intro _ (String c' seats)
             (conj eq_refl
                (conj (join_split "," (String c' seats))
                   (conj (split_not_empty "," (String c' seats))
                      (split_pieces_free "," (String c' seats)))))).
  - exact Hlow.
  - intros Hfinite. destruct (parseInt _) as [|n]; [by left|right].
    cbn [le_zero no_overflow] in *. apply Z.ltb_lt in Hfinite.
    apply Z.leb_gt in Hlow. exists n. split; [done|lia].
Qed.

Lemma loader_result_well_formed_witness :
  let prefs := {| trainName := Some "SUBORNO EXPRESS";
                  preferredSeats := ["A1"; "B2"];
                  numberOfSeats := Int 2 |} in
  (∃ name, trainName prefs = Some name ∧ name ≠ EmptyString)
  ∧ (∃ seats, env_with_seats "2" !! "PREFERRED_SEATS" = Some seats
              ∧ join "," (preferredSeats prefs) = seats
              ∧ preferredSeats prefs ≠ []
              ∧ Forall (λ piece, free_of "," piece = true) (preferredSeats prefs))
  ∧ le_zero (numberOfSeats prefs) = false
  ∧ (no_overflow (numberOfSeats prefs) = true →
     numberOfSeats prefs = NaN
     ∨ ∃ n, numberOfSeats prefs = Int n ∧ 0 < n < 2 ^ 1024).
Proof. apply (loader_result_well_formed (env_with_seats "2")). reflexivity. Defined.

(** X3. A required booking field that is set to the empty text is
    treated like an absent one: the loader throws the missing-variables
    message, whatever the other fields are. *)
Theorem loader_rejects_empty_field (env : gmap string string) field :
  field ∈ required_fields → env !! field = Some EmptyString →
  getBookingPreferences env = inl missing_booking_variables.
Proof.
  intros Hfield Hempty. unfold getBookingPreferences. cbn [trainName numberOfSeats].
  unfold required_fields in Hfield.
  apply elem_of_cons in Hfield as [->|Hfield]; [by rewrite Hempty|].
  apply elem_of_cons in Hfield as [->|Hfield];
    [rewrite Hempty; by destruct (truthy _)|].
  apply list_elem_of_singleton in Hfield as ->. rewrite Hempty.
  by destruct (truthy _), (truthy _).
Qed.

Lemma loader_rejects_empty_field_witness :
  getBookingPreferences (<["PREFERRED_SEATS" := EmptyString]> (env_with_seats "0"))
  = inl missing_booking_variables.
Proof.
  apply (loader_rejects_empty_field _ "PREFERRED_SEATS"); [|reflexivity].
  apply list_elem_of_In. right. left. reflexivity.
Defined.

(** X4. [getSearchData] throws its missing-variables message exactly
    when one of [SEARCH_FROM], [SEARCH_TO], [SEARCH_DATE],
    [SEARCH_CLASS] is absent or empty; otherwise it returns the four
    values, each of them non-empty and each under both of its names. *)
Theorem search_loader_behaviour (env : gmap string string) :
  (getSearchData env = inl missing_search_variables
   ↔ ∃ field, field ∈ search_fields ∧ truthy (env !! field) = false)
  ∧ (∀ data, getSearchData env = inr data →
       from data = env !! "SEARCH_FROM" ∧ fromStation data = from data
       ∧ to data = env !! "SEARCH_TO" ∧ toStation data = to data
       ∧ date data = env !! "SEARCH_DATE" ∧ journeyDate data = date data
       ∧ class data = env !! "SEARCH_CLASS" ∧ trainClass data = class data
       ∧ Forall (λ value, truthy value = true)
                [from data; to data; date data; class data]).
Proof.
  unfold getSearchData. cbn [from to date class]. split.
  - split.
    + intros Hthrown.
      destruct (truthy (env !! "SEARCH_FROM")) eqn:Hfrom;
        [|exists "SEARCH_FROM"; split; [set_solver|done]].
      destruct (truthy (env !! "SEARCH_TO")) eqn:Hto;
        [|exists "SEARCH_TO"; split; [set_solver|done]].
      destruct (truthy (env !! "SEARCH_DATE")) eqn:Hdate;
        [|exists "SEARCH_DATE"; split; [set_solver|done]].
      destruct (truthy (env !! "SEARCH_CLASS")) eqn:Hclass;
        [|exists "SEARCH_CLASS"; split; [set_solver|done]].
      done.
    + intros (field & Hfield & Hunset). unfold search_fields in Hfield.
      repeat (apply elem_of_cons in Hfield as [->|Hfield];
              [rewrite Hunset; by repeat (destruct (truthy _); cbn)|]).
      by apply elem_of_nil in Hfield.
  - intros data.
    destruct (truthy (env !! "SEARCH_FROM")) eqn:Hfrom; [|done].
    destruct (truthy (env !! "SEARCH_TO")) eqn:Hto; [|done].
    destruct (truthy (env !! "SEARCH_DATE")) eqn:Hdate; [|done].
    destruct (truthy (env !! "SEARCH_CLASS")) eqn:Hclass; [|done].
    intros [= <-]. cbn. split_and!; try done. by repeat constructor.
Qed.

Lemma search_loader_behaviour_witness :
  let data := {| from := Some "Dhaka"; to := Some "Joydebpur";
                 date := Some "28-May-2025"; class := Some "S_CHAIR";
                 fromStation := Some "Dhaka"; toStation := Some "Joydebpur";
                 journeyDate := Some "28-May-2025"; trainClass := Some "S_CHAIR" |} in
  from data = env_for_search !! "SEARCH_FROM" ∧ fromStation data = from data
  ∧ to data = env_for_search !! "SEARCH_TO" ∧ toStation data = to data
  ∧ date data = env_for_search !! "SEARCH_DATE" ∧ journeyDate data = date data
  ∧ class data = env_for_search !! "SEARCH_CLASS" ∧ trainClass data = class data
  ∧ Forall (λ value, truthy value = true)
           [from data; to data; date data; class data].
Proof. apply (proj2 (search_loader_behaviour env_for_search)). reflexivity. Defined.

End LoaderFacts.

(** ** More on the seat generators *)

Module SeatMoreFacts.
Import JS Seats SeatFacts.

Lemma template_seat_lookup i :
  0 ≤ i < 36 → template_seats !! Z.to_nat i = Some (common_seat i).
Proof.
  intros Hi. unfold common_seat, index. change (len template_seats) with 36.
  rewrite (proj2 (Z.ltb_lt i 36)), (proj2 (Z.ltb_ge i 0)) by lia.
  destruct (lookup_lt_is_Some_2 template_seats (Z.to_nat i)) as [seat ->];
    [cbn; lia|done].
Qed.

Lemma template_seats_distinct : NoDup template_seats.
Proof. apply (bool_decide_unpack _). by vm_compute. Qed.

(** No template seat is one of the padding seats [S37], [S38], ... *)
Lemma padding_not_template n : 37 ≤ n → "S" +:+ num_to_string n ∉ template_seats.
Proof.
  intros Hn Hin.
  change ("S" +:+ num_to_string n) with (String "S" (num_to_string n)) in Hin.
  unfold template_seats in Hin. cbn [concat commonPatterns app] in Hin.
  assert (∀ k, k < 37 → num_to_string n ≠ pretty k) as Hpad.
  { intros k Hk Heq%(inj pretty). lia. }
  repeat (apply elem_of_cons in Hin as [Heq|Hin];
          [first [discriminate Heq | injection Heq as Heq]|]);
    try (by apply elem_of_nil in Hin).
  - by apply (Hpad 1).
  - by apply (Hpad 2).
  - by apply (Hpad 3).
  - by apply (Hpad 4).
  - by apply (Hpad 5).
  - by apply (Hpad 6).
Qed.

Lemma common_seat_inj i j :
  0 ≤ i → 0 ≤ j → common_seat i = common_seat j → i = j.
Proof.
  intros Hi Hj Heq.
  assert (∀ a b, 0 ≤ a < 36 → 36 ≤ b → common_seat a ≠ common_seat b) as Hmixed.
  { intros a b Ha Hb Hab.
    apply (padding_not_template (b + 1)); [lia|].
    assert (common_seat b = "S" +:+ num_to_string (b + 1)) as <-.
    { unfold common_seat. change (len template_seats) with 36.
      by rewrite (proj2 (Z.ltb_ge b 36)) by lia. }
    rewrite <- Hab. eapply list_elem_of_lookup_2, template_seat_lookup. lia. }
  destruct (decide (i < 36)), (decide (j < 36)).
  - apply Z2Nat.inj; [done..|].
    eapply NoDup_lookup; [apply template_seats_distinct|..];
      [apply template_seat_lookup; lia|].
    rewrite Heq. apply template_seat_lookup. lia.
  - by destruct (Hmixed i j ltac:(lia) ltac:(lia)).
  - by destruct (Hmixed j i ltac:(lia) ltac:(lia)).
  - unfold common_seat in Heq. change (len template_seats) with 36 in Heq.
    rewrite !(proj2 (Z.ltb_ge _ 36)) in Heq by lia.
    apply (inj (String.app "S")), (inj pretty) in Heq. lia.
Qed.

(** X5. Whatever the count, the identifiers returned by the
    common-pattern generator are pairwise distinct: the 36 template
    seats differ from each other, and the padding [S37], [S38], ...
    repeats neither itself nor the template seats [S1] to [S6]. *)
Theorem common_seats_distinct count : NoDup (generateCommonSeatPatterns count).
Proof.
  rewrite common_closed_form.
  apply NoDup_fmap_2_strong; [|apply NoDup_seqZ].
  intros i j [Hi _]%elem_of_seqZ [Hj _]%elem_of_seqZ.
  by apply common_seat_inj.
Qed.

End SeatMoreFacts.

(** ** The stages *)

Module StageFacts.
Import JS Config Browser Login RealBooking OtpWait Stages.

(** *** Rules *)

Section Rules.
Context {W : Type} (pg : page W).

Lemma spec_weaken {A} (P P' : event → bool) (Q Q' : A → Prop) (E E' : string → Prop)
    (m : flow W A) :
  spec P Q E m →
  (∀ ev, P ev = true → P' ev = true) → (∀ a, Q a → Q' a) → (∀ e, E e → E' e) →
  spec P' Q' E' m.
Proof.
  intros Hm HP HQ HE st. destruct (Hm st) as (evs & Htr & Hevs & Hres).
  exists evs. split_and!; [done|by eapply Forall_impl|].
  destruct (m st).1; auto.
Qed.

Lemma spec_ret {A} P (Q : A → Prop) E a : Q a → spec (W := W) P Q E (ret a).
Proof. intros Ha st. exists []. by rewrite app_nil_r. Qed.

Lemma spec_throw {A} P (Q : A → Prop) (E : string → Prop) e :
  E e → spec (W := W) P Q E (throw e).
Proof. intros He st. exists []. by rewrite app_nil_r. Qed.

Lemma spec_perform {A} P (Q : A → Prop) (E : string → Prop) (c : call A) :
  P (Called c) = true →
  (∀ w, match (pg A c w).1 with inr a => Q a | inl e => E e end) →
  spec P Q E (perform pg c).
Proof.
  intros HP Hres st. exists [Called c]. unfold perform.
  specialize (Hres (world st)). destruct (pg A c (world st)) as [r w].
  cbn in *. split_and!; [done|by repeat constructor|done].
Qed.

Lemma spec_bind {A B} P (Q : A → Prop) (R : B → Prop) E
    (m : flow W A) (k : A → flow W B) :
  spec P Q E m → (∀ a, Q a → spec P R E (k a)) → spec P R E (bind m k).
Proof.
  intros Hm Hk st. unfold bind. destruct (Hm st) as (evs & Htr & Hevs & Hres).
  destruct (m st) as [[e|a] st1]; cbn in *; [by exists evs|].
  destruct (Hk a Hres st1) as (evs' & Htr' & Hevs' & Hres').
  exists (evs ++ evs'). rewrite Htr', Htr, app_assoc.
  split_and!; [done|by apply Forall_app|done].
Qed.

Lemma spec_try_catch {A} P (Q : A → Prop) E E'
    (m : flow W A) (h : string → flow W A) :
  spec P Q E m → (∀ e, E e → spec P Q E' (h e)) → spec P Q E' (try_catch m h).
Proof.
  intros Hm Hh st. unfold try_catch. destruct (Hm st) as (evs & Htr & Hevs & Hres).
  destruct (m st) as [[e|a] st1]; cbn in *; [|by exists evs].
  destruct (Hh e Hres st1) as (evs' & Htr' & Hevs' & Hres').
  exists (evs ++ evs'). rewrite Htr', Htr, app_assoc.
  split_and!; [done|by apply Forall_app|done].
Qed.

(** A call of which nothing is asked but its kind. *)
Lemma spec_call {A} P (c : call A) :
  P (Called c) = true → spec P (λ _, True) (λ _, True) (perform pg c).
Proof. intros HP. apply spec_perform; [done|]. intros w. by destruct (pg A c w).1. Qed.

Lemma spec_wait P ms :
  waits_never_reject pg → P (Called (WaitForTimeout ms)) = true →
  spec P (λ _, True) (λ _, False) (perform pg (WaitForTimeout ms)).
Proof. intros Hpg HP. apply spec_perform; [done|]. intros w. by rewrite Hpg. Qed.

Lemma spec_invisible P l timeout :
  nothing_visible pg → P (Called (IsVisible l timeout)) = true →
  spec P (λ visible, visible = false) (λ _, False) (perform pg (IsVisible l timeout)).
Proof. intros Hpg HP. apply spec_perform; [done|]. intros w. by rewrite Hpg. Qed.

End Rules.

(** Take a flow apart along its binds, handlers and branches, asking of
    each call only that it is of the kind wanted; [leaf] settles the
    flows that have a lemma of their own. *)
Ltac spec_calls_with pg leaf :=
  repeat first
    [ leaf
    | apply (spec_ret _ (λ _, True)); exact I
    | apply spec_throw; exact I
    | apply (spec_call pg); reflexivity
    | eapply spec_bind
    | eapply spec_try_catch
    | progress intros
    | match goal with
      | |- spec _ _ _ (if ?b then _ else _) => destruct b
      | |- spec _ _ _ (match ?x with _ => _ end) => destruct x
      end ].

Ltac spec_calls pg := spec_calls_with pg fail.

(** *** Waiting for the OTP is passive *)

Section Passive.
Context {W : Type} (pg : page W).

Lemma firstVisible_passive indicators :
  emits_only is_passive (firstVisible pg indicators).
Proof.
  induction indicators as [|indicator rest IH]; cbn [firstVisible];
    unfold emits_only in *; spec_calls_with pg ltac:(apply IH).
Qed.

Lemma seatWaitLoop_passive fuel startTime :
  emits_only is_passive (seatWaitLoop pg fuel startTime).
Proof.
  induction fuel as [|fuel IH]; cbn [seatWaitLoop]; unfold emits_only in *;
    spec_calls_with pg ltac:(first [apply firstVisible_passive | apply IH]).
Qed.

Lemma paymentWaitLoop_passive fuel startTime :
  emits_only is_passive (paymentWaitLoop pg fuel startTime).
Proof.
  induction fuel as [|fuel IH]; cbn [paymentWaitLoop]; unfold emits_only in *;
    spec_calls_with pg ltac:(first [apply firstVisible_passive | apply IH]).
Qed.

Lemma seatOtpWait_passive fuel : emits_only is_passive (seatOtpWait pg fuel).
Proof.
  unfold seatOtpWait, emits_only.
  spec_calls_with pg ltac:(apply seatWaitLoop_passive).
Qed.

Lemma paymentOtpWait_passive fuel : emits_only is_passive (paymentOtpWait pg fuel).
Proof.
  unfold paymentOtpWait, emits_only.
  spec_calls_with pg ltac:(apply paymentWaitLoop_passive).
Qed.

(** X6. While it waits for the OTP the flow only looks and waits: the
    two wait loops read the clock and the address, test visibility,
    sleep and take a screenshot, and make no click and no keyboard or
    text input, whatever the page does. *)
Theorem otp_waits_are_passive fuel :
  emits_only is_passive (seatOtpWait pg fuel)
  ∧ emits_only is_passive (paymentOtpWait pg fuel).
Proof.
  split; unfold seatOtpWait, paymentOtpWait, emits_only;
    spec_calls_with pg
      ltac:(first [apply seatWaitLoop_passive | apply paymentWaitLoop_passive]).
Qed.

End Passive.

(** *** Loops that swallow every error *)

Section Swallow.
Context {W : Type} (pg : page W).

Lemma emits_any {A} P (m : flow W A) :
  emits_only P m → spec (λ _, true) (λ _, True) (λ _, True) m.
Proof. intros Hm. by eapply spec_weaken. Qed.

Lemma typeCharByChar_emits password :
  emits_only (λ ev, negb (is_click ev)) (typeCharByChar pg password).
Proof.
  unfold typeCharByChar.
  induction (code_points password) as [|char rest IH]; cbn [typeChars];
    unfold emits_only in *; spec_calls_with pg ltac:(apply IH).
Qed.

Lemma enterPassword_emits field password :
  emits_only (λ ev, negb (is_click ev)) (enterPassword pg field password).
Proof.
  unfold enterPassword, emits_only.
  spec_calls_with pg ltac:(apply typeCharByChar_emits).
Qed.

Lemma fillPassword_never_throws selectors password :
  never_throws (fillPassword pg selectors password).
Proof.
  induction selectors as [|selector rest IH]; cbn [fillPassword];
    unfold never_throws in *;
    spec_calls_with pg
      ltac:(first [apply IH | apply (emits_any _ _ (enterPassword_emits _ _))]).
Qed.

Lemma fillUsername_never_throws selectors username :
  never_throws (fillUsername pg selectors username).
Proof.
  induction selectors as [|selector rest IH]; cbn [fillUsername];
    unfold never_throws in *; spec_calls_with pg ltac:(apply IH).
Qed.

(** X7. Whatever the page does, even when every call on it fails, the
    user name loop and the password loop of the login end normally:
    each error is caught and the next selector is tried, and with no
    selector left the result is [false]. *)
Theorem login_field_loops_never_throw selectors text st :
  (∃ filled, (fillUsername pg selectors text st).1 = inr filled)
  ∧ (∃ filled, (fillPassword pg selectors text st).1 = inr filled).
Proof.
  split.
  - destruct (fillUsername_never_throws selectors text st) as (_ & _ & _ & Hres).
    destruct (fillUsername pg selectors text st).1; [done|by eexists].
  - destruct (fillPassword_never_throws selectors text st) as (_ & _ & _ & Hres).
    destruct (fillPassword pg selectors text st).1; [done|by eexists].
Qed.

Lemma closeOverlay_never_throws buttons : never_throws (closeOverlay pg buttons).
Proof.
  induction buttons as [|closeBtn rest IH]; cbn [closeOverlay];
    unfold never_throws in *; spec_calls_with pg ltac:(apply IH).
Qed.

Lemma dismissOverlays_never_throws selectors :
  never_throws (dismissOverlays pg selectors).
Proof.
  induction selectors as [|selector rest IH]; cbn [dismissOverlays];
    unfold never_throws in *;
    spec_calls_with pg
      ltac:(first [apply IH
                  |eapply spec_weaken; [apply closeOverlay_never_throws|done..]]).
Qed.

Lemma tryPreferredSeat_never_throws selectors seatsSelected :
  never_throws (tryPreferredSeat pg selectors seatsSelected).
Proof.
  revert seatsSelected. induction selectors as [|selector rest IH];
    intros seatsSelected; cbn [tryPreferredSeat];
    unfold never_throws in *; spec_calls_with pg ltac:(apply IH).
Qed.

Lemma selectPreferred_never_throws seats targetSeats seatsSelected :
  never_throws (selectPreferred pg seats targetSeats seatsSelected).
Proof.
  revert seatsSelected. induction seats as [|seatNumber rest IH];
    intros seatsSelected; cbn [selectPreferred]; unfold never_throws in *;
    spec_calls_with pg
      ltac:(first [apply IH | apply tryPreferredSeat_never_throws]).
Qed.

Lemma firstOtpIndicator_emits indicators :
  emits_only is_passive (firstOtpIndicator pg indicators).
Proof.
  induction indicators as [|indicator rest IH]; cbn [firstOtpIndicator];
    unfold emits_only in *; spec_calls_with pg ltac:(apply IH).
Qed.

Lemma continueToOtp_never_throws fuel selectors :
  never_throws (continueToOtp pg fuel selectors).
Proof.
  induction selectors as [|selector rest IH]; cbn [continueToOtp];
    unfold never_throws in *;
    spec_calls_with pg
      ltac:(first [apply IH
                  |apply (emits_any _ _ (firstOtpIndicator_emits _))
                  |apply (emits_any _ _ (seatOtpWait_passive pg _))]).
Qed.

Lemma choosePaymentMethod_never_throws methods :
  never_throws (choosePaymentMethod pg methods).
Proof.
  induction methods as [|method rest IH]; cbn [choosePaymentMethod];
    unfold never_throws in *; spec_calls_with pg ltac:(apply IH).
Qed.

Lemma proceedToPayment_never_throws selectors :
  never_throws (proceedToPayment pg selectors).
Proof.
  induction selectors as [|selector rest IH]; cbn [proceedToPayment];
    unfold never_throws in *; spec_calls_with pg ltac:(apply IH).
Qed.

(** X8. The strategy loops of the seat and payment stages end normally
    whatever the page does: dismissing overlays, trying the preferred
    seats, looking for the continue button (with the OTP wait it leads
    to), choosing a payment method and clicking the proceed button all
    catch every error and go on to the next candidate. *)
Theorem stage_loops_never_throw fuel seats targetSeats st :
  (∃ done, (dismissOverlays pg overlaySelectors st).1 = inr done)
  ∧ (∃ seatsSelected, (selectPreferred pg seats targetSeats 0 st).1 = inr seatsSelected)
  ∧ (∃ returned, (continueToOtp pg fuel continueSelectors st).1 = inr returned)
  ∧ (∃ done, (choosePaymentMethod pg paymentMethods st).1 = inr done)
  ∧ (∃ done, (proceedToPayment pg proceedSelectors st).1 = inr done).
Proof.
  assert (∀ A (m : flow W A), never_throws m → ∃ a, (m st).1 = inr a) as Hends.
  { intros A m Hm. destruct (Hm st) as (_ & _ & _ & Hres).
    destruct (m st).1; [done|by eexists]. }
  split_and!; apply Hends.
  - apply dismissOverlays_never_throws.
  - apply selectPreferred_never_throws.
  - apply continueToOtp_never_throws.
  - apply choosePaymentMethod_never_throws.
  - apply proceedToPayment_never_throws.
Qed.

End Swallow.

(** *** What the stages do not do *)

Section Restraint.
Context {W : Type} (pg : page W).

Lemma anyVisible_emits indicators : emits_only is_passive (anyVisible pg indicators).
Proof.
  induction indicators as [|indicator rest IH]; cbn [anyVisible];
    unfold emits_only in *; spec_calls_with pg ltac:(apply IH).
Qed.

Lemma choosePaymentMethod_emits methods :
  emits_only (λ ev, negb (is_input ev)) (choosePaymentMethod pg methods).
Proof.
  induction methods as [|method rest IH]; cbn [choosePaymentMethod];
    unfold emits_only in *; spec_calls_with pg ltac:(apply IH).
Qed.

Lemma proceedToPayment_emits selectors :
  emits_only (λ ev, negb (is_input ev)) (proceedToPayment pg selectors).
Proof.
  induction selectors as [|selector rest IH]; cbn [proceedToPayment];
    unfold emits_only in *; spec_calls_with pg ltac:(apply IH).
Qed.

Lemma passive_no_input ev : is_passive ev = true → negb (is_input ev) = true.
Proof. destruct ev as [A []|]; done. Qed.

(** X9. [handlePaymentAndOTP] never enters anything: on no page does it
    fill or clear a field, press a key, type or paste.  Choosing a
    payment method and proceeding are clicks; the OTP itself is left to
    the person at the browser. *)
Theorem payment_stage_enters_nothing fuel :
  emits_only (λ ev, negb (is_input ev)) (handlePaymentAndOTP pg fuel).
Proof.
  unfold handlePaymentAndOTP, emits_only.
  spec_calls_with pg
    ltac:(first
      [ apply choosePaymentMethod_emits
      | apply proceedToPayment_emits
      | eapply spec_weaken;
          [apply anyVisible_emits|apply passive_no_input|done..]
      | eapply spec_weaken;
          [apply (paymentOtpWait_passive pg)|apply passive_no_input|done..] ]).
Qed.

(** On a page where nothing is visible. *)

Lemma anyVisible_in_vain indicators :
  nothing_visible pg →
  spec is_passive (λ found, found = false) (λ _, False) (anyVisible pg indicators).
Proof.
  intros Hpg. induction indicators as [|indicator rest IH]; cbn [anyVisible].
  - by apply spec_ret.
  - eapply spec_bind; [by apply spec_invisible|]. by intros visible ->.
Qed.

Lemma dismissOverlays_in_vain selectors :
  nothing_visible pg → emits_only is_passive (dismissOverlays pg selectors).
Proof.
  intros Hpg. unfold emits_only.
  induction selectors as [|selector rest IH]; cbn [dismissOverlays].
  - by apply spec_ret.
  - eapply spec_bind; [|intros; apply IH].
    eapply (spec_try_catch _ _ (λ _, False)); [|done].
    eapply spec_bind; [by apply spec_invisible|].
    intros visible ->. cbv iota. by apply (spec_ret _ (λ _, True)).
Qed.

(** X10. On a page where nothing is visible, the seat stage and the
    payment stage touch nothing: they wait, test visibility and (the
    payment stage) take one screenshot, and make no click and no
    keyboard or text input. *)
Theorem stages_skip_when_nothing_visible fuel bookingPrefs :
  nothing_visible pg →
  emits_only is_passive (handleSeatSelection pg fuel bookingPrefs)
  ∧ emits_only is_passive (handlePaymentAndOTP pg fuel).
Proof.
  intros Hpg. split; unfold handleSeatSelection, handlePaymentAndOTP, emits_only.
  - eapply spec_bind; [by apply (spec_call pg)|]. intros _ _.
    eapply spec_bind; [by apply dismissOverlays_in_vain|]. intros _ _.
    eapply spec_bind.
    { eapply spec_weaken; [by apply anyVisible_in_vain|done|intros a Ha; exact Ha|done]. }
    intros found ->. cbn [negb]. cbv iota. by apply spec_ret.
  - eapply spec_bind; [by apply (spec_call pg)|]. intros _ _.
    eapply spec_bind.
    { eapply spec_weaken; [by apply anyVisible_in_vain|done|intros a Ha; exact Ha|done]. }
    intros found ->. cbn [negb]. cbv iota. by apply (spec_call pg).
Qed.

End Restraint.

(** [nothing_visible] holds of the simulated page whose script shows
    nothing. *)
Lemma stages_skip_when_nothing_visible_witness :
  emits_only is_passive
    (handleSeatSelection (simulated silent_departure) 400
       {| trainName := Some "SUBORNO EXPRESS"; preferredSeats := ["A1"];
          numberOfSeats := Int 1 |})
  ∧ emits_only is_passive (handlePaymentAndOTP (simulated silent_departure) 400).
Proof.
  apply (stages_skip_when_nothing_visible (simulated silent_departure)).
  intros l timeout w. reflexivity.
Defined.

(** *** How many seats get selected *)

Section Selection.
Context {W : Type} (pg : page W).

Lemma wait_then_break :
  waits_never_reject pg →
  spec (λ _, true) (λ waited, waited = true) (λ _, False)
    (try_catch (bind (perform pg (WaitForTimeout 500)) (λ _, ret true))
               (λ _, ret false)).
Proof.
  intros Hpg. eapply (spec_try_catch _ _ (λ _, False)); [|done].
  eapply spec_bind; [by apply spec_wait|]. intros _ _. by apply spec_ret.
Qed.

Lemma tryPreferredSeat_bound selectors seatsSelected :
  waits_never_reject pg →
  spec (λ _, true) (λ k, seatsSelected ≤ k ≤ seatsSelected + 1) (λ _, False)
    (tryPreferredSeat pg selectors seatsSelected).
Proof.
  intros Hpg. revert seatsSelected.
  induction selectors as [|selector rest IH]; intros seatsSelected;
    cbn [tryPreferredSeat].
  - apply spec_ret. cbn beta in *. lia.
  - eapply spec_bind.
    { eapply (spec_try_catch _ (λ _, True) (λ _, True));
        [|intros; by apply spec_ret].
      spec_calls pg. }
    intros [] _; [|apply IH].
    eapply spec_bind; [by apply wait_then_break|].
    intros waited ->. cbv iota. apply spec_ret. cbn beta in *. lia.
Qed.

Lemma selectPreferred_bound seats targetSeats seatsSelected :
  waits_never_reject pg →
  spec (λ _, true)
    (λ k, seatsSelected ≤ k ≤ seatsSelected + Z.of_nat (length seats)) (λ _, False)
    (selectPreferred pg seats targetSeats seatsSelected).
Proof.
  intros Hpg. revert seatsSelected.
  induction seats as [|seatNumber rest IH]; intros seatsSelected;
    cbn [selectPreferred length].
  - apply spec_ret. cbn beta in *. lia.
  - eapply spec_bind; [by apply tryPreferredSeat_bound|].
    intros k1 Hk1. destruct (ge_num k1 targetSeats).
    + apply spec_ret. cbn beta in *. lia.
    + eapply spec_weaken; [apply (IH k1)|done| |done]. intros k Hk. cbn beta in *. lia.
Qed.

Lemma clickAvailable_bound n i availableSeats seatsSelected :
  spec (λ _, true)
    (λ k, seatsSelected ≤ k ≤ seatsSelected + Z.of_nat n) (λ _, False)
    (clickAvailable pg n i availableSeats seatsSelected).
Proof.
  revert i seatsSelected. induction n as [|n IH]; intros i seatsSelected;
    cbn [clickAvailable].
  - apply spec_ret. cbn beta in *. lia.
  - eapply spec_bind.
    { eapply (spec_try_catch _ (λ _, True) (λ _, True));
        [|intros; by apply spec_ret].
      spec_calls pg. }
    intros [] _.
    + eapply spec_bind.
      { eapply (spec_try_catch _ (λ _, True) (λ _, True));
          [|intros; by apply spec_ret].
        by apply (spec_call pg). }
      intros _ _. eapply spec_weaken; [apply (IH (i + 1) (seatsSelected + 1))|done| |done].
      intros k Hk. cbn beta in *. lia.
    + eapply spec_weaken; [apply (IH (i + 1) seatsSelected)|done| |done].
      intros k Hk. cbn beta in *. lia.
Qed.

Lemma selectAvailable_bound selectors n seatsSelected :
  seatsSelected ≤ n →
  spec (λ _, true) (λ k, seatsSelected ≤ k ≤ n) (λ _, True)
    (selectAvailable pg selectors (Int n) seatsSelected).
Proof.
  revert seatsSelected. induction selectors as [|selector rest IH];
    intros seatsSelected Hle; cbn [selectAvailable].
  - apply spec_ret. cbn beta in *. lia.
  - eapply spec_bind; [by apply (spec_call pg)|]. intros seatCount _.
    destruct (0 <? seatCount) eqn:Hcount; [|by apply IH].
    eapply spec_bind.
    { eapply spec_weaken; [apply clickAvailable_bound|done| |done].
      intros k Hk. exact Hk. }
    intros k1 Hk1. cbn [seats_to_select] in Hk1.
    assert (seatsSelected ≤ k1 ≤ n) by (cbn beta in *; lia).
    destruct (ge_num k1 (Int n)).
    + by apply spec_ret.
    + eapply spec_weaken; [apply (IH k1); lia|done| |done].
      intros k Hk. cbn beta in *. lia.
Qed.

Lemma slice0_length {A} (l : list A) n :
  0 ≤ n → Z.of_nat (length (slice0 l n)) ≤ n.
Proof.
  intros Hn. unfold slice0. rewrite (proj2 (Z.ltb_ge n 0)) by done.
  rewrite length_take. lia.
Qed.

(** X11. The seat stage never selects more seats than were asked for:
    on a page whose waits do not fail, with a seat count [n >= 0], the
    counter [seatsSelected] ends between 0 and [n].  With the seat count
    [NaN] that the loader lets through, no seat is looked for at all and
    the counter stays 0, without a single call on the page. *)
Theorem seats_selected_within_request (bookingPrefs : bookingPrefs) st :
  (waits_never_reject pg →
   ∀ n seatsSelected,
     numberOfSeats bookingPrefs = Int n → 0 ≤ n →
     (selectSeats pg bookingPrefs st).1 = inr seatsSelected →
     0 ≤ seatsSelected ≤ n)
  ∧ (numberOfSeats bookingPrefs = NaN →
     selectSeats pg bookingPrefs st = (inr 0, st)).
Proof.
  split.
  - intros Hpg n seatsSelected Hn Hpos Hres.
    assert (spec (λ _, true) (λ k, 0 ≤ k ≤ n) (λ _, True)
              (selectSeats pg bookingPrefs)) as Hspec.
    { unfold selectSeats. rewrite Hn. cbn [slice_num].
      eapply spec_bind.
      { eapply spec_weaken; [by apply selectPreferred_bound|done| |done].
        intros k Hk. exact Hk. }
      intros k1 Hk1. cbn beta in Hk1.
      pose proof (slice0_length (preferredSeats bookingPrefs) n Hpos).
      destruct (lt_num k1 (Int n)).
      - eapply spec_weaken; [apply (selectAvailable_bound _ n k1); lia|done| |done].
        intros k Hk. cbn beta in *. lia.
      - apply spec_ret. cbn beta in *. lia. }
    destruct (Hspec st) as (_ & _ & _ & Hk). by rewrite Hres in Hk.
  - intros Hnan. unfold selectSeats. by rewrite Hnan.
Qed.

End Selection.

Lemma seats_selected_within_request_witness :
  let prefs := {| trainName := Some "SUBORNO EXPRESS";
                  preferredSeats := ["A1"; "B2"; "C3"];
                  numberOfSeats := Int 2 |} in
  0 ≤ 2 ≤ 2
  ∧ selectSeats class_sold_out
      {| trainName := Some "SUBORNO EXPRESS"; preferredSeats := ["A1"];
         numberOfSeats := NaN |} (State 0%nat [])
    = (inr 0, State 0%nat []).
Proof.
  intros prefs. split.
  - apply (proj1 (seats_selected_within_request class_sold_out prefs (State 0%nat []))).
    + intros ms w. reflexivity.
    + reflexivity.
    + lia.
    + vm_compute. reflexivity.
  - apply (proj2 (seats_selected_within_request class_sold_out _ (State 0%nat []))).
    reflexivity.
Defined.

(** *** Counting clicks *)

Section Clicks.
Context {W : Type} (pg : page W).

Lemma clicks_app tr tr' : clicks (tr ++ tr') = (clicks tr + clicks tr')%nat.
Proof. unfold clicks. by rewrite filter_app, length_app. Qed.

Lemma clicks_snoc tr ev :
  clicks (tr ++ [ev]) = (clicks tr + if is_click ev then 1 else 0)%nat.
Proof.
  rewrite clicks_app. unfold clicks at 2. cbn [filter list_filter].
  by destruct (is_click ev).
Qed.

Lemma click_weaken {A} (R R' : string + A → nat → Prop) (m : flow W A) :
  click_spec R m → (∀ r n, R r n → R' r n) → click_spec R' m.
Proof. intros Hm HR st. destruct (Hm st) as (n & Hn & Hr). eauto. Qed.

Lemma click_ret {A} (R : string + A → nat → Prop) a :
  R (inr a) 0%nat → click_spec (W := W) R (ret a).
Proof. intros Ha st. exists 0%nat. cbn. split; [lia|done]. Qed.

Lemma click_throw {A} (R : string + A → nat → Prop) e :
  R (inl e) 0%nat → click_spec (W := W) R (throw e).
Proof. intros He st. exists 0%nat. cbn. split; [lia|done]. Qed.

Lemma click_perform {A} (R : string + A → nat → Prop) (c : call A) :
  (∀ w, R (pg A c w).1 (if is_click (Called c) then 1 else 0)%nat) →
  click_spec R (perform pg c).
Proof.
  intros Hc st. exists (if is_click (Called c) then 1 else 0)%nat.
  unfold perform. specialize (Hc (world st)).
  destruct (pg A c (world st)) as [r w]. cbn [fst snd trace] in *. split; [|done].
  rewrite clicks_app. unfold clicks at 2. cbn [filter list_filter].
  by destruct (is_click (Called c)).
Qed.

Lemma click_bind {A B} (R1 : string + A → nat → Prop)
    (R2 : A → string + B → nat → Prop) (R : string + B → nat → Prop)
    (m : flow W A) (k : A → flow W B) :
  click_spec R1 m → (∀ a, click_spec (R2 a) (k a)) →
  (∀ e n, R1 (inl e) n → R (inl e) n) →
  (∀ a n1 r n2, R1 (inr a) n1 → R2 a r n2 → R r (n1 + n2)%nat) →
  click_spec R (bind m k).
Proof.
  intros Hm Hk Hthrown Hboth st. unfold bind.
  destruct (Hm st) as (n1 & Hn1 & Hr1).
  destruct (m st) as [[e|a] st1]; cbn in *; [by eauto|].
  destruct (Hk a st1) as (n2 & Hn2 & Hr2).
  exists (n1 + n2)%nat. split; [lia|by eauto].
Qed.

Lemma click_try_catch {A} (R1 : string + A → nat → Prop)
    (R2 : string → string + A → nat → Prop) (R : string + A → nat → Prop)
    (m : flow W A) (h : string → flow W A) :
  click_spec R1 m → (∀ e, click_spec (R2 e) (h e)) →
  (∀ a n, R1 (inr a) n → R (inr a) n) →
  (∀ e n1 r n2, R1 (inl e) n1 → R2 e r n2 → R r (n1 + n2)%nat) →
  click_spec R (try_catch m h).
Proof.
  intros Hm Hh Hdone Hboth st. unfold try_catch.
  destruct (Hm st) as (n1 & Hn1 & Hr1).
  destruct (m st) as [[e|a] st1]; cbn in *; [|by eauto].
  destruct (Hh e st1) as (n2 & Hn2 & Hr2).
  exists (n1 + n2)%nat. split; [lia|by eauto].
Qed.

(** A flow that emits no click adds none. *)
Lemma click_none {A} (m : flow W A) :
  emits_only (λ ev, negb (is_click ev)) m → click_spec (λ _ n, n = 0%nat) m.
Proof.
  intros Hm st. destruct (Hm st) as (evs & Htr & Hevs & _).
  exists 0%nat. split; [|done]. rewrite Htr, clicks_app. f_equal.
  clear Htr. induction Hevs as [|ev evs Hev _ IH]; [done|].
  change (ev :: evs) with ([ev] ++ evs). rewrite clicks_app, IH.
  unfold clicks. cbn [filter list_filter].
  by destruct (is_click ev).
Qed.

(** A flow without clicks, followed by another. *)
Lemma click_after_quiet {A B} (R : string + B → nat → Prop)
    (m : flow W A) (k : A → flow W B) :
  emits_only (λ ev, negb (is_click ev)) m →
  (∀ e, R (inl e) 0%nat) → (∀ a, click_spec R (k a)) →
  click_spec R (bind m k).
Proof.
  intros Hm Hthrown Hk.
  eapply (click_bind _ (λ _, R));
    [by apply click_none|exact Hk|by intros e n ->|by intros a n1 r n2 ->].
Qed.

Lemma quiet_call {A} (c : call A) :
  is_click (Called c) = false →
  emits_only (λ ev, negb (is_click ev)) (perform pg c).
Proof. intros Hc. apply spec_call. by rewrite Hc. Qed.

(** **** Booking initiation *)

Lemma clickToBook_clicks b :
  click_spec (λ r n, n = 1%nat ∧ r ≠ inr false) (clickToBook pg b).
Proof.
  unfold clickToBook.
  eapply (click_bind (λ _ n, n = 1%nat) (λ _ r n, n = 0%nat ∧ r ≠ inr false)).
  - by apply click_perform.
  - intros _. apply click_after_quiet; [by apply quiet_call|done|].
    intros _. by apply click_ret.
  - by intros e n ->.
  - by intros a n1 r n2 -> [-> Hr].
Qed.

Lemma collectTexts_quiet elements seen :
  emits_only (λ ev, negb (is_click ev)) (collectTexts pg elements seen).
Proof.
  revert seen. induction elements as [|element rest IH]; intros seen;
    cbn [collectTexts]; unfold emits_only in *; spec_calls_with pg ltac:(apply IH).
Qed.

(** Decompose the booking step: a click-free call or helper first, then
    the rest; a branch on what was found; a click on a booking button. *)
Ltac book_clicks leaf :=
  repeat first
    [ leaf
    | apply click_ret; cbn; lia
    | apply click_throw; cbn; lia
    | eapply click_weaken;
        [apply clickToBook_clicks
        |intros [e|[]] n [-> Hr]; cbn; first [lia|done]]
    | apply click_after_quiet;
        [first [apply quiet_call; reflexivity | apply collectTexts_quiet]
        |intros e; cbn; lia|]
    | progress intros
    | match goal with |- click_spec _ (if ?b then _ else _) => destruct b end ].

Lemma tryOtherClasses_clicks classes :
  click_spec (λ r n, match r with
                     | inr true => n = 1 | inr false => n = 0 | inl _ => n ≤ 1
                     end)%nat
    (tryOtherClasses pg classes).
Proof.
  induction classes as [|className rest IH]; cbn [tryOtherClasses];
    book_clicks ltac:(apply IH).
Qed.

(** X12. The booking step of the real booking test clicks at most one
    booking button, whatever the page does: when it reports the booking
    as initiated it has clicked exactly one, and when it reports it as
    not initiated it has clicked none. *)
Theorem booking_step_clicks_once trainName searchClass :
  click_spec (λ r n, match r with
                     | inr true => n = 1 | inr false => n = 0 | inl _ => n ≤ 1
                     end)%nat
    (findAndBookTrain pg trainName searchClass).
Proof.
  unfold findAndBookTrain. book_clicks fail.
  eapply (click_bind _ (λ b r n, n = 0 ∧ (r = inr true ∧ b = true ∨ ∃ e, r = inl e ∧ b = false))%nat).
  - apply tryOtherClasses_clicks.
  - intros []; cbn [negb]; [apply click_ret|apply click_throw]; by eauto.
  - done.
  - intros b n1 r n2 Hb [-> [[-> ->]|(e & -> & ->)]]; cbn in *; lia.
Qed.

(** **** Seat selection *)

Lemma click_if_visible l timeout :
  clicks_never_reject pg →
  click_spec (λ r n, r = inr true ∧ n = 1%nat ∨ r = inr false ∧ n = 0%nat)
    (try_catch
       (bind (perform pg (IsVisible l timeout))
             (λ visible : bool,
                if visible then bind (perform pg (Click l)) (λ _, ret true)
                else ret false))
       (λ _, ret false)).
Proof.
  intros Hclick st. unfold try_catch, bind, perform, ret.
  destruct (pg bool (IsVisible l timeout) (world st)) as [[e|[]] w];
    cbn [fst snd trace world].
  - exists 0%nat. rewrite clicks_snoc. cbn. split; [lia|by right].
  - pose proof (Hclick l w) as Hok.
    destruct (pg unit (Click l) w) as [r w']. cbn in Hok. subst r.
    cbn [fst snd trace world].
    exists 1%nat. rewrite !clicks_snoc. cbn. split; [lia|by left].
  - exists 0%nat. rewrite clicks_snoc. cbn. split; [lia|by right].
Qed.

Lemma click_nth l :
  clicks_never_reject pg →
  click_spec (λ r n, r = inr true ∧ n = 1%nat)
    (try_catch (bind (perform pg (Click l)) (λ _, ret true)) (λ _, ret false)).
Proof.
  intros Hclick st. unfold try_catch, bind, perform, ret.
  pose proof (Hclick l (world st)) as Hok.
  destruct (pg unit (Click l) (world st)) as [r w']. cbn in Hok. subst r.
  cbn [fst snd trace world].
  exists 1%nat. rewrite !clicks_snoc. cbn. split; [lia|done].
Qed.

Lemma quiet_wait {A} ms (a a' : A) :
  emits_only (λ ev, negb (is_click ev))
    (try_catch (bind (perform pg (WaitForTimeout ms)) (λ _, ret a)) (λ _, ret a')).
Proof. unfold emits_only. spec_calls pg. Qed.

Lemma quiet_pause ms :
  emits_only (λ ev, negb (is_click ev))
    (try_catch (perform pg (WaitForTimeout ms)) (λ _, ret ())).
Proof. unfold emits_only. spec_calls pg. Qed.

Lemma counted_step {A} (R1 : string + A → nat → Prop) (f : A → Z) k
    (m : flow W A) (rest : A → flow W Z) :
  click_spec (λ r n, ∃ a, r = inr a ∧ f a = k + Z.of_nat n) m →
  (∀ a, click_spec (counted (f a)) (rest a)) →
  click_spec (counted k) (bind m rest).
Proof.
  intros Hm Hrest.
  eapply (click_bind _ (λ a, counted (f a))); [exact Hm|exact Hrest|done|].
  intros a n1 r n2 (a' & [= <-] & Ha) Hr k' ->. rewrite (Hr k' eq_refl). lia.
Qed.

Lemma tryPreferredSeat_counts selectors seatsSelected :
  clicks_never_reject pg →
  click_spec (counted seatsSelected) (tryPreferredSeat pg selectors seatsSelected).
Proof.
  intros Hclick. revert seatsSelected.
  induction selectors as [|selector rest IH]; intros seatsSelected;
    cbn [tryPreferredSeat].
  - apply click_ret. intros k' [= <-]. lia.
  - eapply (counted_step (λ _ _, True)
              (λ clicked : bool, if clicked then seatsSelected + 1 else seatsSelected)).
    { eapply click_weaken; [by apply click_if_visible|].
      intros r n [[-> ->]|[-> ->]]; eexists; (split; [done|cbn; lia]). }
    intros []; [|apply IH].
    apply click_after_quiet; [apply quiet_wait|done|].
    intros []; [|apply IH]. apply click_ret. intros k' [= <-]. lia.
Qed.

Lemma selectPreferred_counts seats targetSeats seatsSelected :
  clicks_never_reject pg →
  click_spec (counted seatsSelected)
    (selectPreferred pg seats targetSeats seatsSelected).
Proof.
  intros Hclick. revert seatsSelected.
  induction seats as [|seatNumber rest IH]; intros seatsSelected;
    cbn [selectPreferred].
  - apply click_ret. intros k' [= <-]. lia.
  - eapply (click_bind _ (λ k1, counted k1));
      [by apply tryPreferredSeat_counts| |done|].
    + intros k1. destruct (ge_num k1 targetSeats); [|apply IH].
      apply click_ret. intros k' [= <-]. lia.
    + intros k1 n1 r n2 Hk1 Hr k' ->.
      rewrite (Hr k' eq_refl), (Hk1 k1 eq_refl). lia.
Qed.

Lemma clickAvailable_counts n i availableSeats seatsSelected :
  clicks_never_reject pg →
  click_spec (counted seatsSelected)
    (clickAvailable pg n i availableSeats seatsSelected).
Proof.
  intros Hclick. revert i seatsSelected.
  induction n as [|n IH]; intros i seatsSelected; cbn [clickAvailable].
  - apply click_ret. intros k' [= <-]. lia.
  - eapply (counted_step (λ _ _, True)
              (λ clicked : bool, if clicked then seatsSelected + 1 else seatsSelected)).
    { eapply click_weaken; [by apply click_nth|].
      intros r c [-> ->]. eexists. split; [done|cbn; lia]. }
    intros []; [|apply IH].
    apply click_after_quiet; [apply quiet_pause|done|]. intros _. apply IH.
Qed.

Lemma selectAvailable_counts selectors targetSeats seatsSelected :
  clicks_never_reject pg →
  click_spec (counted seatsSelected)
    (selectAvailable pg selectors targetSeats seatsSelected).
Proof.
  intros Hclick. revert seatsSelected.
  induction selectors as [|selector rest IH]; intros seatsSelected;
    cbn [selectAvailable].
  - apply click_ret. intros k' [= <-]. lia.
  - apply click_after_quiet; [by apply quiet_call|done|]. intros seatCount.
    destruct (0 <? seatCount); [|apply IH].
    eapply (click_bind _ (λ k1, counted k1));
      [by apply clickAvailable_counts| |done|].
    + intros k1. destruct (ge_num k1 targetSeats); [|apply IH].
      apply click_ret. intros k' [= <-]. lia.
    + intros k1 n1 r n2 Hk1 Hr k' ->.
      rewrite (Hr k' eq_refl), (Hk1 k1 eq_refl). lia.
Qed.

(** X13. The seat counter counts the seat clicks: on a page where a
    click never fails, the value of [seatsSelected] after the preferred
    seats and the top-up with available seats is the number of clicks
    made on the way, whatever else the page does. *)
Theorem seat_counter_counts_clicks (bookingPrefs : bookingPrefs) st seatsSelected :
  clicks_never_reject pg →
  (selectSeats pg bookingPrefs st).1 = inr seatsSelected →
  Z.of_nat (clicks (trace (selectSeats pg bookingPrefs st).2))
  = Z.of_nat (clicks (trace st)) + seatsSelected.
Proof.
  intros Hclick Hres.
  assert (click_spec (counted 0) (selectSeats pg bookingPrefs)) as Hspec.
  { unfold selectSeats.
    eapply (click_bind _ (λ k1, counted k1));
      [by apply selectPreferred_counts| |done|].
    - intros k1. destruct (lt_num k1 _); [by apply selectAvailable_counts|].
      apply click_ret. intros k' [= <-]. lia.
    - intros k1 n1 r n2 Hk1 Hr k' ->.
      rewrite (Hr k' eq_refl), (Hk1 k1 eq_refl). lia. }
  destruct (Hspec st) as (n & Hn & Hk). rewrite Hn, (Hk _ Hres). lia.
Qed.

(** **** One click per loop *)

Lemma clicks_quiet evs :
  Forall (λ ev, negb (is_click ev) = true) evs → clicks evs = 0%nat.
Proof.
  induction 1 as [|ev evs Hev _ IH]; [done|].
  change (ev :: evs) with ([ev] ++ evs). rewrite clicks_app, IH.
  unfold clicks. cbn [filter list_filter]. by destruct (is_click ev).
Qed.

Lemma spec_ok_call {A} P (c : call A) :
  never_rejects pg → P (Called c) = true →
  spec P (λ _, True) (λ _, False) (perform pg c).
Proof.
  intros Hpg HP. apply spec_perform; [done|]. intros w.
  destruct (Hpg A c w) as [a Ha]. by rewrite Ha.
Qed.

(** Take a flow apart on a page that rejects no call. *)
Ltac spec_settled Hpg leaf :=
  repeat first
    [ leaf
    | apply (spec_ret _ (λ _, True)); exact I
    | apply spec_ret; done
    | apply (spec_ok_call _ _ Hpg); reflexivity
    | eapply spec_bind
    | progress intros
    | match goal with
      | |- spec _ _ _ (if ?b then _ else _) => destruct b
      | |- spec _ _ _ (match ?x with _ => _ end) => destruct x
      end ].

Lemma firstVisible_settled indicators :
  never_rejects pg →
  spec (λ ev, negb (is_click ev)) (λ _, True) (λ _, False) (firstVisible pg indicators).
Proof.
  intros Hpg. induction indicators as [|indicator rest IH]; cbn [firstVisible];
    spec_settled Hpg ltac:(apply IH).
Qed.

Lemma seatWaitLoop_settled fuel startTime :
  never_rejects pg →
  spec (λ ev, negb (is_click ev)) (λ _, True) (λ _, False)
    (seatWaitLoop pg fuel startTime).
Proof.
  intros Hpg. induction fuel as [|fuel IH]; cbn [seatWaitLoop];
    spec_settled Hpg ltac:(first [by apply firstVisible_settled | apply IH]).
Qed.

Lemma firstOtpIndicator_settled indicators :
  never_rejects pg →
  spec (λ ev, negb (is_click ev)) (λ _, True) (λ _, False)
    (firstOtpIndicator pg indicators).
Proof.
  intros Hpg. induction indicators as [|indicator rest IH]; cbn [firstOtpIndicator];
    spec_settled Hpg ltac:(apply IH).
Qed.

(** One iteration of a loop over selectors: if the element is visible
    it is clicked and [body] follows, all inside a [try] whose [catch]
    goes on to the next selector. *)
Lemma click_guarded {A} (Q : A → Prop) l timeout (body : flow W A) (skip : A) :
  never_rejects pg →
  spec (λ ev, negb (is_click ev)) Q (λ _, False) body →
  click_spec (λ r n, (∃ a, r = inr a ∧ Q a ∧ n = 1%nat) ∨ (r = inr skip ∧ n = 0%nat))
    (try_catch
       (bind (perform pg (IsVisible l timeout))
             (λ visible : bool,
                if visible then bind (perform pg (Click l)) (λ _, body)
                else ret skip))
       (λ _, ret skip)).
Proof.
  intros Hpg Hbody st. unfold try_catch, bind, perform.
  destruct (Hpg _ (IsVisible l timeout) (world st)) as [visible Hv].
  destruct (pg bool (IsVisible l timeout) (world st)) as [r w].
  cbn in Hv. subst r. cbn [fst snd]. destruct visible.
  - cbn [world trace].
    destruct (Hpg _ (Click l) w) as [u Hu].
    destruct (pg unit (Click l) w) as [r w']. cbn in Hu. subst r.
    match goal with |- context [body ?st1] =>
      destruct (Hbody st1) as (evs & Htr & Hevs & Hres);
      destruct (body st1) as [[e|a] st2]
    end; cbn [fst snd trace] in *; [done|].
    exists 1%nat. split; [|left; by exists a].
    rewrite Htr, clicks_app, (clicks_quiet evs Hevs), !clicks_snoc. cbn. lia.
  - exists 0%nat. cbn [ret fst snd trace]. rewrite clicks_snoc. cbn.
    split; [lia|by right].
Qed.

Lemma choosePaymentMethod_clicks methods :
  never_rejects pg →
  click_spec (λ _ n, n ≤ 1)%nat (choosePaymentMethod pg methods).
Proof.
  intros Hpg. induction methods as [|method rest IH]; cbn [choosePaymentMethod].
  - apply click_ret. lia.
  - eapply (click_bind _ (λ chosen : bool, λ _ n, if chosen then n = 0 else n ≤ 1)%nat).
    + apply (click_guarded (λ chosen, chosen = true)); [done|].
      spec_settled Hpg fail.
    + intros []; [by apply click_ret|exact IH].
    + by intros e n [(a & [=] & _)|[[=] _]].
    + intros chosen n1 r n2 [(a & [= <-] & -> & ->)|[[= ->] ->]] Hn2; cbn in *; lia.
Qed.

Lemma proceedToPayment_clicks selectors :
  never_rejects pg →
  click_spec (λ _ n, n ≤ 1)%nat (proceedToPayment pg selectors).
Proof.
  intros Hpg. induction selectors as [|selector rest IH]; cbn [proceedToPayment].
  - apply click_ret. lia.
  - eapply (click_bind _ (λ clicked : bool, λ _ n, if clicked then n = 0 else n ≤ 1)%nat).
    + apply (click_guarded (λ clicked, clicked = true)); [done|].
      spec_settled Hpg fail.
    + intros []; [by apply click_ret|exact IH].
    + by intros e n [(a & [=] & _)|[[=] _]].
    + intros clicked n1 r n2 [(a & [= <-] & -> & ->)|[[= ->] ->]] Hn2; cbn in *; lia.
Qed.

Lemma continueToOtp_clicks fuel selectors :
  never_rejects pg →
  click_spec (λ _ n, n ≤ 1)%nat (continueToOtp pg fuel selectors).
Proof.
  intros Hpg. induction selectors as [|selector rest IH]; cbn [continueToOtp].
  - apply click_ret. lia.
  - eapply (click_bind _ (λ left : leave, λ _ n,
                            match left with Went_on => n ≤ 1 | _ => n = 0 end)%nat).
    + apply (click_guarded (λ left, left ≠ Went_on)); [done|].
      unfold seatOtpWait.
      spec_settled Hpg
        ltac:(first [by apply firstOtpIndicator_settled|by apply seatWaitLoop_settled]).
    + intros []; [by apply click_ret..|exact IH].
    + by intros e n [(a & [=] & _)|[[=] _]].
    + intros left n1 r n2 [(a & [= <-] & Ha & ->)|[[= ->] ->]] Hn2;
        [by destruct left; cbn in *; [lia..|]|cbn in *; lia].
Qed.

(** X14. One click per choice: on a page that rejects no call, the
    payment stage clicks at most two buttons, one payment method and
    one button to proceed, and the seat stage clicks at most one button
    to continue to the OTP page. *)
Theorem one_click_per_choice fuel selectors :
  never_rejects pg →
  click_spec (λ _ n, n ≤ 2)%nat (handlePaymentAndOTP pg fuel)
  ∧ click_spec (λ _ n, n ≤ 1)%nat (continueToOtp pg fuel selectors).
Proof.
  intros Hpg. split; [|by apply continueToOtp_clicks].
  assert (∀ ev, is_passive ev = true → negb (is_click ev) = true) as Hpassive
    by (by intros [A []|]).
  unfold handlePaymentAndOTP.
  apply click_after_quiet; [by apply quiet_call|intros; lia|]. intros _.
  apply click_after_quiet; [|intros; lia|].
  { eapply spec_weaken; [apply anyVisible_emits|exact Hpassive|done..]. }
  intros []; cbn [negb].
  - apply click_after_quiet; [by apply quiet_call|intros; lia|]. intros _.
    eapply (click_bind _ (λ _ _ n, n ≤ 1)%nat);
      [by apply choosePaymentMethod_clicks| |intros; cbn in *; lia
      |intros; cbn in *; lia].
    intros _.
    eapply (click_bind _ (λ _ _ n, n = 0)%nat);
      [by apply proceedToPayment_clicks| |intros; cbn in *; lia
      |intros; cbn in *; lia].
    intros _. apply click_none. unfold emits_only.
    spec_calls_with pg
      ltac:(eapply spec_weaken;
              [apply (paymentOtpWait_passive pg)|exact Hpassive|done..]).
  - eapply click_weaken; [apply click_none; by apply quiet_call|].
    intros; cbn in *; lia.
Qed.

End Clicks.

Lemma one_click_per_choice_witness :
  click_spec (λ _ n, n ≤ 2)%nat (handlePaymentAndOTP class_sold_out 200)
  ∧ click_spec (λ _ n, n ≤ 1)%nat
      (continueToOtp class_sold_out 200 continueSelectors).
Proof.
  apply (one_click_per_choice class_sold_out 200 continueSelectors).
  intros A c w. destruct c; by eexists.
Defined.

Lemma seat_counter_counts_clicks_witness :
  let prefs := {| trainName := Some "SUBORNO EXPRESS";
                  preferredSeats := ["A1"; "B2"; "C3"];
                  numberOfSeats := Int 2 |} in
  Z.of_nat (clicks (trace (selectSeats class_sold_out prefs (State 0%nat [])).2))
  = Z.of_nat (clicks []) + 2.
Proof.
  intros prefs.
  apply (seat_counter_counts_clicks class_sold_out prefs (State 0%nat []) 2).
  - intros l w. reflexivity.
  - vm_compute. reflexivity.
Defined.

(** *** The OTP waits end in time *)

Section Bounded.
Import OtpWaitFacts.
Context (s : script) (t0 : Z).

Lemma seat_wait_bounded m :
  ∀ j fuel tr, (j + m = 300)%nat → (m < fuel)%nat →
    ∃ k o, (j ≤ k ≤ 300)%nat ∧ o ≠ OutOfFuel ∧ (o = TimedOut ↔ k = 300%nat)
           ∧ ending (seatWaitLoop (simulated s) fuel t0 (State (poll_time t0 j) tr))
             = (inr o, poll_time t0 k).
Proof.
  induction m as [|m IH]; intros j fuel tr Hj Hfuel;
    (destruct fuel as [|fuel]; [lia|]).
  - exists 300%nat, TimedOut. split_and!; [lia..|done|done|].
    replace j with 300%nat by lia. apply seat_poll_late.
    unfold poll_time, pollInterval, seatMaxWaitTime. lia.
  - assert (poll_time t0 j - t0 < seatMaxWaitTime) as Hin
      by (unfold poll_time, pollInterval, seatMaxWaitTime; lia).
    destruct (signal s seatSuccessIndicators (poll_time t0 j)) as [indicator|] eqn:Hsig.
    + exists j, (Succeeded indicator).
      split_and!; [lia..|done|split; [done|lia]|by apply seat_poll_signalled].
    + destruct (seat_poll_quiet s fuel t0 _ tr Hin Hsig) as [tr' Hstep].
      rewrite Hstep, <- poll_time_S.
      destruct (IH (S j) fuel tr') as (k & o & Hk & Ho & Hlate & Hend); [lia..|].
      exists k, o. split_and!; [lia..|done|done|done].
Qed.

Lemma payment_wait_bounded m :
  ∀ j fuel tr, (j + m = 150)%nat → (m < fuel)%nat →
    ∃ k o, (j ≤ k ≤ 150)%nat ∧ o ≠ OutOfFuel ∧ (o = TimedOut ↔ k = 150%nat)
           ∧ ending (paymentWaitLoop (simulated s) fuel t0 (State (poll_time t0 j) tr))
             = (inr o, poll_time t0 k).
Proof.
  induction m as [|m IH]; intros j fuel tr Hj Hfuel;
    (destruct fuel as [|fuel]; [lia|]).
  - exists 150%nat, TimedOut. split_and!; [lia..|done|done|].
    replace j with 150%nat by lia. apply payment_poll_late.
    unfold poll_time, pollInterval, paymentMaxWaitTime. lia.
  - assert (poll_time t0 j - t0 < paymentMaxWaitTime) as Hin
      by (unfold poll_time, pollInterval, paymentMaxWaitTime; lia).
    destruct (otp_page_up s (poll_time t0 j)) eqn:Hup.
    2:{ exists j, OtpEntered.
        split_and!; [lia..|done|split; [done|lia]|by apply payment_poll_left]. }
    destruct (signal s paymentSuccessIndicators (poll_time t0 j))
      as [indicator|] eqn:Hsig.
    + exists j, (Succeeded indicator).
      split_and!; [lia..|done|split; [done|lia]|by apply payment_poll_signalled].
    + destruct (payment_poll_quiet s fuel t0 _ tr Hin Hup Hsig) as [tr' Hstep].
      rewrite Hstep, <- poll_time_S.
      destruct (IH (S j) fuel tr') as (k & o & Hk & Ho & Hlate & Hend); [lia..|].
      exists k, o. split_and!; [lia..|done|done|done].
Qed.

(** X15. The waits for the OTP end in time.  On a simulated page,
    whatever it shows and whenever, each wait ends at one of its polls,
    no later than its maximum wait (poll 300 after 10 minutes in
    [handleSeatSelection], poll 150 after 5 minutes in
    [handlePaymentAndOTP]), and it ends as timed out exactly when it
    ends at that last poll. *)
Theorem otp_waits_end_in_time tr fuel :
  ((300 < fuel)%nat →
   ∃ k o, (k ≤ 300)%nat ∧ o ≠ OutOfFuel ∧ (o = TimedOut ↔ k = 300%nat)
          ∧ ending (seatOtpWait (simulated s) fuel (State t0 tr))
            = (inr o, poll_time t0 k))
  ∧ ((150 < fuel)%nat →
     ∃ k o, (k ≤ 150)%nat ∧ o ≠ OutOfFuel ∧ (o = TimedOut ↔ k = 150%nat)
            ∧ ending (paymentOtpWait (simulated s) fuel (State t0 tr))
              = (inr o, poll_time t0 k)).
Proof.
  split; intros Hfuel.
  - rewrite seatOtpWait_start.
    destruct (seat_wait_bounded 300 0 fuel (tr ++ [Called DateNow]))
      as (k & o & Hk & Hrest); [lia..|].
    exists k, o. split; [lia|done].
  - rewrite paymentOtpWait_start.
    destruct (payment_wait_bounded 150 0 fuel (tr ++ [Called DateNow]))
      as (k & o & Hk & Hrest); [lia..|].
    exists k, o. split; [lia|done].
Qed.

End Bounded.

Lemma otp_waits_end_in_time_witness :
  (∃ k o, (k ≤ 300)%nat ∧ o ≠ OutOfFuel ∧ (o = TimedOut ↔ k = 300%nat)
          ∧ ending (seatOtpWait (simulated confirmed_after_6s) 400 (State 0 []))
            = (inr o, poll_time 0 k))
  ∧ (∃ k o, (k ≤ 150)%nat ∧ o ≠ OutOfFuel ∧ (o = TimedOut ↔ k = 150%nat)
            ∧ ending (paymentOtpWait (simulated silent_departure) 200 (State 0 []))
              = (inr o, poll_time 0 k)).
Proof.
  split.
  - apply (proj1 (otp_waits_end_in_time confirmed_after_6s 0 [] 400%nat)). lia.
  - apply (proj2 (otp_waits_end_in_time silent_departure 0 [] 200%nat)). lia.
Defined.

End StageFacts.

(** ** The booking API *)

Module ApiFacts.
Import JS Seats Config Browser Api.

Section Rules.
Context {W : Type} (srv : server W).


Lemma sends_ret {A} (R : list sent → string + A → Prop) a :
  R [] (inr a) → sends (W := W) R (ret a).
Proof. intros Ha st. exists []. by rewrite app_nil_r. Qed.

Lemma sends_throw {A} (R : list sent → string + A → Prop) e :
  R [] (inl e) → sends (W := W) R (throw e).
Proof. intros He st. exists []. by rewrite app_nil_r. Qed.



Lemma sends_bind {A B} (R1 : list sent → string + A → Prop)
    (R2 : A → list sent → string + B → Prop) (R : list sent → string + B → Prop)
    (m : flow (W * list sent) A) (k : A → flow (W * list sent) B) :
  sends R1 m → (∀ a, sends (R2 a) (k a)) →
  (∀ reqs e, R1 reqs (inl e) → R reqs (inl e)) →
  (∀ reqs1 a reqs2 r, R1 reqs1 (inr a) → R2 a reqs2 r → R (reqs1 ++ reqs2) r) →
  sends R (bind m k).
Proof.
  intros Hm Hk Hthrown Hboth st. unfold bind.
  destruct (Hm st) as (reqs1 & Hlog1 & Hr1).
  destruct (m st) as [[e|a] st1]; cbn [fst snd] in *; [by eauto|].
  destruct (Hk a st1) as (reqs2 & Hlog2 & Hr2).
  exists (reqs1 ++ reqs2). rewrite Hlog2, Hlog1, app_assoc. split; [done|by eauto].
Qed.


End Rules.

(** *** [getAuthToken] *)

Section Auth.
Context {W : Type} (srv : server W).
Context (username password : option string).

(** One login endpoint tried. *)
Lemma login_attempt endpoint :
  contexts_never_reject srv →
  sends (λ reqs r,
           (∃ token, r = inr (Some token) ∧ truthy_value token = true
                     ∧ reqs = [Sent (loginPost username password endpoint); Sent Dispose])
           ∨ (r = inr None ∧ reqs = [Sent (loginPost username password endpoint)]))
    (try_catch
       (bind (await srv (loginPost username password endpoint))
          (λ response,
             if ok response then
               bind (settled (json response))
                 (λ responseData,
                    bind (settled (token_of responseData))
                      (λ token,
                         if truthy_value token
                         then bind (await srv Dispose) (λ _, ret (Some token))
                         else ret None))
             else ret None))
       (λ _, ret None)).
Proof.
  intros Hsrv st. unfold try_catch, bind, await, settled, ret, log.
  destruct (srv response (loginPost username password endpoint) (world st).1)
    as [[e|response] w]; cbn [fst snd world trace].
  { eexists. split; [done|by right]. }
  destruct (ok response); [|eexists; split; [done|by right]].
  destruct (json response) as [e|responseData]; cbn [fst snd world trace];
    [eexists; split; [done|by right]|].
  destruct (token_of responseData) as [e|token]; cbn [fst snd world trace];
    [eexists; split; [done|by right]|].
  destruct (truthy_value token) eqn:Htoken; cbn [fst snd world trace];
    [|eexists; split; [done|by right]].
  pose proof (proj2 (Hsrv w)) as Hdispose.
  destruct (srv unit Dispose w) as [r w']. cbn in Hdispose. subst r.
  cbn [fst snd world trace]. eexists. split; [by rewrite <- app_assoc|].
  left. by exists token.
Qed.

Lemma tryLogin_sends endpoints :
  contexts_never_reject srv →
  sends (λ reqs r,
           (∃ token k, r = inr (Some token) ∧ truthy_value token = true
                       ∧ (k < length endpoints)%nat
                       ∧ reqs = loginPosts username password (take (S k) endpoints)
                                ++ [Sent Dispose])
           ∨ (r = inr None ∧ reqs = loginPosts username password endpoints))
    (tryLogin srv endpoints username password).
Proof.
  intros Hsrv. induction endpoints as [|endpoint rest IH]; cbn [tryLogin].
  { apply sends_ret. by right. }
  eapply (sends_bind _ (λ found : option value,
            match found with
            | Some token => λ reqs r, reqs = [] ∧ r = inr (Some token)
            | None => _
            end)).
  - by apply login_attempt.
  - intros [token|]; [by apply sends_ret|exact IH].
  - by intros reqs e [(token & [=] & _)|[[=] _]].
  - intros reqs1 found reqs2 r [(token & [= ->] & Htoken & ->)|[[= ->] ->]].
    + intros [-> ->]. left. exists token, 0%nat.
      split_and!; [done|done|cbn; lia|done].
    + intros [(token & k & -> & Htoken & Hk & ->)|[-> ->]].
      * left. exists token, (S k). split_and!; [done|done|cbn; lia|done].
      * by right.
Qed.

End Auth.

(** X16. [getAuthToken].  Without a user name or a password in the
    environment it throws before any call is made.  With both, on a
    server where creating and disposing of the request context do not
    fail, it posts the credentials to the login endpoints in their
    order and either returns a truthy token after the first post that
    yields one, having disposed of the context once, or, after all five
    posts, throws that it could not authenticate, having disposed of
    the context twice. *)
Theorem auth_token_outcomes {W} (srv : server W) (env : gmap string string) st :
  let username := env !! "RAILWAY_USERNAME" in
  let password := env !! "RAILWAY_PASSWORD" in
  let run := getAuthToken srv env st in
  (truthy username = false ∨ truthy password = false →
   run = (inl credentials_missing, st))
  ∧ (contexts_never_reject srv →
     truthy username = true → truthy password = true →
     (∃ token k,
        run.1 = inr token ∧ truthy_value token = true ∧ (k < 5)%nat
        ∧ log run.2
          = log st ++ Sent NewContext
                      :: loginPosts username password (take (S k) loginEndpoints)
                      ++ [Sent Dispose])
     ∨ (run.1 = inl could_not_authenticate
        ∧ log run.2
          = log st ++ Sent NewContext
                      :: loginPosts username password loginEndpoints
                      ++ [Sent Dispose; Sent Dispose])).
Proof.
  intros username password run. subst run. unfold getAuthToken.
  fold username password. split.
  - by intros [->| ->]; [|rewrite orb_true_r].
  - intros Hsrv -> ->. cbn [negb orb]. unfold try_catch, bind, await, throw, ret.
    pose proof (proj1 (Hsrv (world st).1)) as Hnew.
    destruct (srv unit NewContext (world st).1) as [r w]. cbn in Hnew. subst r.
    cbn [fst snd].
    match goal with |- context [tryLogin srv ?es ?u ?p ?st1] =>
      destruct (tryLogin_sends srv u p es Hsrv st1) as (reqs & Hlog & Hr);
      destruct (tryLogin srv es u p st1) as [r st2]
    end.
    cbn [fst snd] in Hlog, Hr. unfold log in Hlog at 2. cbn [world snd] in Hlog.
    destruct Hr as [(token & k & -> & Htoken & Hk & ->)|[-> ->]].
    + left. exists token, k. cbn [fst snd]. rewrite Hlog, <- app_assoc.
      by split_and!.
    + right. unfold log in *.
      pose proof (proj2 (Hsrv (world st2).1)) as Hdispose.
      destruct st2 as [[w2 l2] tr2]. cbn [world fst snd] in *.
      destruct (srv unit Dispose w2) as [r w3]. cbn in Hdispose. subst r.
      cbn [fst snd world].
      pose proof (proj2 (Hsrv w3)) as Hdispose.
      destruct (srv unit Dispose w3) as [r w4]. cbn in Hdispose. subst r.
      cbn [fst snd world]. split; [done|].
      rewrite Hlog, <- !app_assoc. done.
Qed.

Lemma auth_token_outcomes_witness :
  let username := credentials !! "RAILWAY_USERNAME" in
  let password := credentials !! "RAILWAY_PASSWORD" in
  let st := State (0%nat, []) [] in
  let run := getAuthToken login_at_second_endpoint credentials st in
  (∃ token k,
     run.1 = inr token ∧ truthy_value token = true ∧ (k < 5)%nat
     ∧ log run.2
       = log st ++ Sent NewContext
                   :: loginPosts username password (take (S k) loginEndpoints)
                   ++ [Sent Dispose])
  ∨ (run.1 = inl could_not_authenticate
     ∧ log run.2
       = log st ++ Sent NewContext
                   :: loginPosts username password loginEndpoints
                   ++ [Sent Dispose; Sent Dispose]).
Proof.
  apply (proj2 (auth_token_outcomes login_at_second_endpoint credentials
                  (State (0%nat, []) []))).
  - intros w. split; reflexivity.
  - reflexivity.
  - reflexivity.
Defined.

(** *** [attemptFallbackBooking] *)

Section Fallback.
Context {W : Type} (srv : server W).
Context (endpoint : string) (train : value) (bookingPrefs : bookingPrefs)
        (authToken : option string).






End Fallback.

(** *** [attemptBooking] *)

Section Booking.
Context {W : Type} (srv : server W).
Context (train : value) (bookingPrefs : bookingPrefs) (authToken : option string).




End Booking.


(** *** [testBookingEndpoints] *)

Section Probe.
Context {W : Type} (srv : server W).

Lemma testEach_sends endpoints data authToken :
  sends (λ reqs r,
           r = inr ()
           ∧ reqs = (λ endpoint,
                       Sent (Post (BASE_URL +:+ endpoint) data (headers_with authToken)))
                    <$> endpoints)
    (testEach srv endpoints data authToken).
Proof.
  induction endpoints as [|endpoint rest IH]; cbn [testEach fmap list_fmap].
  { by apply sends_ret. }
  eapply (sends_bind
            (λ reqs r,
               r = inr ()
               ∧ reqs = [Sent (Post (BASE_URL +:+ endpoint) data (headers_with authToken))])
            (λ _, _)); [|intros _; exact IH|by intros reqs e [[=] _]|].
  - intros st. unfold try_catch, bind, await, settled, ret, log.
    destruct (srv response _ (world st).1) as [[e|response] w];
      cbn [fst snd world trace]; [by eexists|].
    destruct (ok response); [|by eexists].
    destruct (json response); cbn [fst snd world trace]; by eexists.
  - by intros reqs1 [] reqs2 r [_ ->] [-> ->].
Qed.

(** X19. [testBookingEndpoints] never throws and probes every endpoint:
    whatever the server answers, and whether its requests resolve or
    reject, it makes exactly one post to each of its four endpoints, in
    their order, each with the same data and headers. *)
Theorem booking_endpoints_each_probed (bookingPrefs : bookingPrefs)
    (authToken : option string) st :
  let run := testBookingEndpoints srv bookingPrefs authToken st in
  run.1 = inr ()
  ∧ log run.2
    = log st ++ ((λ endpoint,
                    Sent (Post (BASE_URL +:+ endpoint) (testBookingData bookingPrefs)
                               (headers_with authToken)))
                 <$> testedEndpoints).
Proof.
  intros run. subst run. unfold testBookingEndpoints.
  destruct (testEach_sends testedEndpoints (testBookingData bookingPrefs) authToken st)
    as (reqs & Hlog & Hr & ->).
  by split.
Qed.

End Probe.

End ApiFacts.

(** ** The tests of the configuration *)

Module TestFacts.
Import JS Seats Config SearchConfig Browser Api ConfigTests.

Lemma truthy_defined (v : option string) :
  truthy v = true → toBeDefined v = true ∧ toBe_text v (env_or v EmptyString) = true.
Proof.
  intros Hv. unfold env_or. rewrite Hv.
  destruct v as [s|]; [|done]. cbn. by rewrite String.eqb_refl.
Qed.

Lemma toBe_number_refl n : toBe_number n n = true.
Proof. destruct n as [|z]; [done|]. apply Z.eqb_refl. Qed.

(** X20. The configuration test cannot fail on an expectation: it
    fails only when one of the two loaders throws, with the message of
    that loader, and passes otherwise.  What it expects of the loaded
    values is implied by the checks the loaders make themselves. *)
Theorem configuration_test_outcome (env : gmap string string) :
  (∀ expectation, readsConfiguration env ≠ inl (Unmet expectation))
  ∧ (readsConfiguration env = inr ()
     ↔ (∃ searchData, getSearchData env = inr searchData)
       ∧ (∃ bookingPrefs, getBookingPreferences env = inr bookingPrefs)).
Proof.
  assert (∀ searchData bookingPrefs,
            getSearchData env = inr searchData →
            getBookingPreferences env = inr bookingPrefs →
            readsConfiguration env = inr ()) as Hpass.
  { intros searchData bookingPrefs Hsearch Hbooking.
    unfold readsConfiguration. rewrite Hsearch, Hbooking.
    unfold getSearchData in Hsearch. cbn [from to date class] in Hsearch.
    destruct (truthy (env !! "SEARCH_FROM")) eqn:Hfrom; [|done].
    destruct (truthy (env !! "SEARCH_TO")) eqn:Hto; [|done].
    destruct (truthy (env !! "SEARCH_DATE")) eqn:Hdate; [|done].
    destruct (truthy (env !! "SEARCH_CLASS")) eqn:Hclass; [|done].
    injection Hsearch as <-. cbn [from to date class].
    unfold getBookingPreferences in Hbooking. cbn [trainName numberOfSeats] in Hbooking.
    destruct (truthy (env !! "TRAIN_NAME")) eqn:Hname; [|done].
    destruct (truthy (env !! "PREFERRED_SEATS")) eqn:Hseats; [|done].
    destruct (truthy (env !! "NUMBER_OF_SEATS")) eqn:Hcount; [|done].
    cbn [negb orb] in Hbooking.
    destruct (le_zero _); [done|]. injection Hbooking as <-.
    cbn [trainName numberOfSeats].
    destruct (truthy_defined _ Hfrom) as [-> ->].
    destruct (truthy_defined _ Hto) as [-> ->].
    destruct (truthy_defined _ Hdate) as [-> ->].
    destruct (truthy_defined _ Hclass) as [-> ->].
    destruct (truthy_defined _ Hname) as [-> ->].
    unfold env_or. rewrite Hcount, toBe_number_refl. reflexivity. }
  split.
  - intros expectation Hunmet.
    destruct (getSearchData env) as [e|searchData] eqn:Hsearch.
    { unfold readsConfiguration in Hunmet. by rewrite Hsearch in Hunmet. }
    destruct (getBookingPreferences env) as [e|bookingPrefs] eqn:Hbooking.
    { unfold readsConfiguration in Hunmet. by rewrite Hsearch, Hbooking in Hunmet. }
    by rewrite (Hpass _ _ eq_refl eq_refl) in Hunmet.
  - split.
    + intros Hok. unfold readsConfiguration in Hok.
      destruct (getSearchData env) as [e|searchData]; [done|].
      destruct (getBookingPreferences env) as [e|bookingPrefs]; [done|].
      by eauto.
    + intros [[searchData Hsearch] [bookingPrefs Hbooking]]. by eapply Hpass.
Qed.

(** X21. The validation test leaves [process.env] as it found it, and
    it depends on the configuration it runs in: it passes exactly when
    [TRAIN_NAME] and [PREFERRED_SEATS] are set, and fails otherwise on
    its last expectation, because with 0 seats the loader then reports
    the missing variables and not the seat count. *)
Theorem validation_test_outcome (env : gmap string string) :
  (validatesEnvironment env).2 = env
  ∧ (validatesEnvironment env).1
    = if truthy (env !! "TRAIN_NAME") && truthy (env !! "PREFERRED_SEATS")
      then inr ()
      else inl (Unmet "getBookingPreferences throws for 0 seats").
Proof.
  split; [done|]. unfold validatesEnvironment. cbn [fst first_unmet].
  assert (getSearchData (delete "SEARCH_FROM" env) = inl missing_search_variables)
    as ->.
  { unfold getSearchData. cbn [from]. by rewrite lookup_delete_eq. }
  assert (getBookingPreferences (delete "TRAIN_NAME" env)
          = inl missing_booking_variables) as ->.
  { unfold getBookingPreferences. cbn [trainName]. by rewrite lookup_delete_eq. }
  assert (toThrow (A := searchData) (inl missing_search_variables)
            "Missing required search environment variables" = true) as ->
    by (by vm_compute).
  assert (toThrow (A := bookingPrefs) (inl missing_booking_variables)
            "Missing required booking environment variables" = true) as ->
    by (by vm_compute).
  unfold getBookingPreferences. cbn [trainName numberOfSeats].
  rewrite lookup_insert_eq, !lookup_insert_ne by done.
  change (truthy (Some "0")) with true. cbn [negb orb].
  destruct (truthy (env !! "TRAIN_NAME")); cbn [negb orb andb]; [|by vm_compute].
  destruct (truthy (env !! "PREFERRED_SEATS")); cbn [negb orb andb]; by vm_compute.
Qed.

(** X22. The test of the fallback seats.  Once the loader has returned
    the preferences, with a seat count whose numeral is not too large
    for a double (the code then has [Infinity]), the test passes
    exactly when the seat count is a number: for a count that is [NaN]
    (a [NUMBER_OF_SEATS] without leading digits, which the loader lets
    through) it fails on its first expectation, the generated list
    being empty. *)
Theorem fallback_seat_test_outcome (env : gmap string string) bookingPrefs :
  getBookingPreferences env = inr bookingPrefs →
  no_overflow (numberOfSeats bookingPrefs) = true →
  generatesFallbackSeats env
  = match numberOfSeats bookingPrefs with
    | Int _ => inr ()
    | NaN => inl (Unmet "genericSeats has numberOfSeats elements")
    end.
Proof.
  intros Hbooking _. unfold generatesFallbackSeats. rewrite Hbooking.
  assert (le_zero (numberOfSeats bookingPrefs) = false) as Hpositive.
  { unfold getBookingPreferences in Hbooking.
    destruct (_ || _); [done|]. destruct (le_zero _) eqn:Hle; [done|].
    by injection Hbooking as <-. }
  destruct (numberOfSeats bookingPrefs) as [|n]; [done|].
  cbn [le_zero] in Hpositive. apply Z.leb_gt in Hpositive.
  cbn [seats_for first_unmet toHaveLength].
  rewrite SeatFacts.generic_closed_form, SeatFacts.common_closed_form.
  unfold len. rewrite !SeatFacts.positions_length, Z2Nat.id, Z.eqb_refl by lia.
  pose proof (SeatFacts.positions_lookup generic_seat n 0 ltac:(lia)) as Hfirst.
  change (Z.to_nat 0) with 0%nat in Hfirst. rewrite Hfirst.
  by vm_compute.
Qed.

Lemma fallback_seat_test_outcome_witness :
  generatesFallbackSeats (env_with_seats "2") = inr ()
  ∧ generatesFallbackSeats (env_with_seats "two")
    = inl (Unmet "genericSeats has numberOfSeats elements").
Proof.
  split.
  - apply (fallback_seat_test_outcome (env_with_seats "2")
             {| trainName := Some "SUBORNO EXPRESS";
                preferredSeats := ["A1"; "B2"];
                numberOfSeats := Int 2 |}).
    + reflexivity.
    + reflexivity.
  - apply (fallback_seat_test_outcome (env_with_seats "two")
             {| trainName := Some "SUBORNO EXPRESS";
                preferredSeats := ["A1"; "B2"];
                numberOfSeats := NaN |}).
    + reflexivity.
    + reflexivity.
Defined.

End TestFacts.
